(** * The generation client of the research orchestration engine

    A shallow embedding of [src/ollama_client.py] ([OllamaClient.generate]
    and [OllamaClient._handle_streaming_response]) together with a model of
    the research pipeline of the specification, and the properties the
    specification states about them.

    Python values are an inductive type, dictionaries are [gmap string pyval],
    exceptions are values threaded through a small state-and-exception monad,
    and the libraries the client calls ([json.loads], [bytes.decode], [repr],
    [requests.post]) are variables of the sections that model the code.

    The other methods of the client, the model manager of
    [src/model_manager.py] and the functions of [src/app.py] around the
    server and the sidebar are embedded over a trace of effects, with what
    the surroundings answer held in a record, and their error behaviour,
    their order of effects and their results are proved further down. *)

Set Warnings "-register-all,-inexact-float".
From Stdlib Require Import ZArith QArith Floats Sorted OrdersEx.
From stdpp Require Import gmap strings list fin_maps pretty.

Local Open Scope Z_scope.

(** ** Python values *)

(** [bytes] objects and [str] objects are both sequences of octets here: a
    [str] is held as its UTF-8 encoding. *)
Abbreviation bytes := string (only parsing).

Inductive pyval :=
  | PNone
  | PBool (b : bool)
  | PInt (n : Z)
  | PFloat (f : float)
  | PStr (s : string)
  | PList (l : list pyval)
  | PDict (d : gmap string pyval).

Abbreviation dict := (gmap string pyval) (only parsing).

(** [bool(v)], as used by [if v:]. *)
Definition truthy (v : pyval) : bool :=
  match v with
  | PNone => false
  | PBool b => b
  | PInt n => negb (n =? 0)
  | PFloat f => negb (PrimFloat.eqb f 0%float)
  | PStr s => negb (String.eqb s "")
  | PList l => match l with [] => false | _ :: _ => true end
  | PDict d => match map_to_list d with [] => false | _ :: _ => true end
  end.

(** [type(v).__name__] *)
Definition type_name (v : pyval) : string :=
  match v with
  | PNone => "NoneType"
  | PBool _ => "bool"
  | PInt _ => "int"
  | PFloat _ => "float"
  | PStr _ => "str"
  | PList _ => "list"
  | PDict _ => "dict"
  end.

(** [d.get(k, dflt)] *)
Definition dict_get (d : dict) (k : string) (dflt : pyval) : pyval :=
  default dflt (d !! k).

(** ** Exceptions *)

(** The classes of [Exception] the client distinguishes.  [Timeout] is a
    subclass of [RequestException]; every class here derives from
    [Exception]. *)
Inductive exn_class :=
  | Timeout
  | RequestException
  | JSONDecodeError
  | UnicodeDecodeError
  | TypeError
  | RetryError
  | OtherException.

Record exn := Exn { exn_cls : exn_class; exn_msg : string }.

(** [str(e)] *)
Definition str_exn (e : exn) : string := exn_msg e.

Definition is_timeout (e : exn) : bool :=
  match exn_cls e with Timeout => true | _ => false end.

Definition is_request_exception (e : exn) : bool :=
  match exn_cls e with Timeout | RequestException => true | _ => false end.

Definition is_json_decode_error (e : exn) : bool :=
  match exn_cls e with JSONDecodeError => true | _ => false end.

(** ** A state-and-exception monad

    A computation over a state [S] either returns a value or raises, and
    leaves a state behind either way (what was done before a [raise] stays
    done). *)

Definition M (S A : Type) : Type := S → (exn + A) * S.

#[global] Instance M_ret {S} : MRet (M S) := λ A a s, (inr a, s).

#[global] Instance M_bind {S} : MBind (M S) := λ A B k m s,
  match m s with
  | (inr a, s') => k a s'
  | (inl e, s') => (inl e, s')
  end.

Definition raise {S A} (e : exn) : M S A := λ s, (inl e, s).

(** [try: m  except <classes selected by catches> as e: h e] *)
Definition try_except {S A} (m : M S A) (catches : exn → bool) (h : exn → M S A)
  : M S A :=
  λ s, match m s with
       | (inr a, s') => (inr a, s')
       | (inl e, s') => if catches e then h e s' else (inl e, s')
       end.

Definition lift {S A} (r : exn + A) : M S A :=
  match r with inl e => raise e | inr a => mret a end.

(** ** Events *)

(** The dictionaries the client hands to its caller. *)
Definition mk_event (response model created_at done : pyval) : dict :=
  <["response" := response]> (<["model" := model]>
    (<["created_at" := created_at]> {["done" := done]})).

(** The error dictionary of the streaming handler. *)
Definition stream_error_event (e : exn) : dict :=
  <["response" := PStr ""]> (<["error" := PStr (str_exn e)]>
    {["done" := PBool true]}).

(** The error dictionary of [generate]. *)
Definition error_event (msg : string) : dict :=
  <["response" := PStr ""]> {["error" := PStr msg]}.

(** An event is an error event when it has an ["error"] entry, and it marks
    completion when its ["done"] entry is truthy; it is terminal when either
    holds. *)
Definition is_error (ev : dict) : bool := bool_decide (is_Some (ev !! "error")).
Definition is_done (ev : dict) : bool := truthy (dict_get ev "done" (PBool false)).
Definition terminal (ev : dict) : bool := is_done ev || is_error ev.

(** The text an event carries. *)
Definition event_text (ev : dict) : pyval := dict_get ev "response" (PStr "").

(** ** The streaming handler *)

(** What running the generator of [_handle_streaming_response] to its end
    leaves behind: the fragments buffered, the events yielded in order, and
    the arguments the callback was invoked with, in order. *)
Record gen_state := GenState {
  buffer : list pyval;
  yielded : list dict;
  calls : list pyval
}.

Definition gen_init : gen_state := GenState [] [] [].

(** The state once one more event has been yielded. *)
Definition emit (st : gen_state) (ev : dict) : gen_state :=
  GenState (buffer st) (yielded st ++ [ev]) (calls st).

Definition yield (ev : dict) : M gen_state unit := λ st, (inr tt, emit st ev).

Definition buffer_append (v : pyval) : M gen_state unit :=
  λ st, (inr tt, GenState (buffer st ++ [v]) (yielded st) (calls st)).

Definition get_buffer : M gen_state (list pyval) := λ st, (inr (buffer st), st).

(** ["".join(items)]: the items in order; a [TypeError] at the first item
    that is not a [str]. *)
Fixpoint join_from (i : nat) (items : list pyval) : exn + string :=
  match items with
  | [] => inr ""
  | PStr s :: rest =>
      match join_from (S i) rest with
      | inr t => inr (s +:+ t)
      | inl e => inl e
      end
  | v :: _ =>
      inl (Exn TypeError ("sequence item " +:+ pretty i +:+
                          ": expected str instance, " +:+ type_name v +:+ " found"))
  end.

Definition py_join (items : list pyval) : exn + string := join_from 0 items.

Section Streaming.

(** [json.loads(line)] on a [bytes] line: the value, or the exception it
    raises ([JSONDecodeError], or [UnicodeDecodeError] on octets that are
    text in no encoding it detects). *)
Variable json_loads : bytes → exn + pyval.

(** [line.decode('utf-8')] *)
Variable decode_utf8 : bytes → exn + string.

(** [repr] of the values whose [str] is not spelled out below. *)
Variable py_repr : pyval → string.

(** The caller's chunk callback: [None], or a callable which, given the
    arguments of its earlier invocations and the current one, returns or
    raises. *)
Variable callback : option (list pyval → pyval → option exn).

(** [str(v)] *)
Definition py_str (v : pyval) : string :=
  match v with
  | PStr s => s
  | PInt n => pretty n
  | PBool true => "True"
  | PBool false => "False"
  | PNone => "None"
  | _ => py_repr v
  end.

(** [if callback: callback(v)] *)
Definition invoke_callback (v : pyval) : M gen_state unit :=
  match callback with
  | None => mret tt
  | Some cb =>
      λ st, let st' := GenState (buffer st) (yielded st) (calls st ++ [v]) in
            match cb (calls st) v with
            | Some e => (inl e, st')
            | None => (inr tt, st')
            end
  end.

(** The body of the inner [try]. *)
Definition try_json (line : bytes) : M gen_state unit :=
  result ← lift (json_loads line);
  match result with
  | PDict d =>
      let response_text := dict_get d "response" (PStr "") in
      (if truthy response_text
       then (invoke_callback response_text ;; buffer_append response_text)
       else mret tt) ;;
      yield (mk_event response_text
                      (dict_get d "model" (PStr ""))
                      (dict_get d "created_at" (PStr ""))
                      (dict_get d "done" (PBool false)))
  | _ =>
      let text := PStr (py_str result) in
      invoke_callback text ;;
      buffer_append text ;;
      yield (mk_event text (PStr "") (PStr "") (PBool false))
  end.

(** The body of [except json.JSONDecodeError]. *)
Definition plain_text (line : bytes) : M gen_state unit :=
  s ← lift (decode_utf8 line);
  let text := PStr s in
  invoke_callback text ;;
  buffer_append text ;;
  yield (mk_event text (PStr "") (PStr "") (PBool false)).

(** One turn of the [for] loop. *)
Definition handle_line (line : bytes) : M gen_state unit :=
  if String.eqb line "" then mret tt
  else try_except (try_json line) is_json_decode_error (λ _, plain_text line).

Fixpoint for_lines (lines : list bytes) : M gen_state unit :=
  match lines with
  | [] => mret tt
  | line :: rest => handle_line line ;; for_lines rest
  end.

(** [for line in response.iter_lines(): ...] where the iterator delivers
    [lines] and then either stops or raises [fault]. *)
Definition iterate (lines : list bytes) (fault : option exn) : M gen_state unit :=
  for_lines lines ;;
  match fault with
  | Some e => raise e
  | None => mret tt
  end.

(** The final chunk. *)
Definition final_chunk : M gen_state unit :=
  buf ← get_buffer;
  final_text ← lift (py_join buf);
  yield (mk_event (PStr final_text) (PStr "") (PStr "") (PBool true)).

(** [_handle_streaming_response]: the whole generator body. *)
Definition handle_streaming_response (lines : list bytes) (fault : option exn)
  : M gen_state unit :=
  try_except (iterate lines fault ;; final_chunk)
             (λ _, true)
             (λ e, yield (stream_error_event e)).

(** The generator run to exhaustion. *)
Definition run_stream (lines : list bytes) (fault : option exn)
  : (exn + unit) * gen_state :=
  handle_streaming_response lines fault gen_init.

Definition stream_events (lines : list bytes) (fault : option exn) : list dict :=
  yielded (run_stream lines fault).2.

Definition stream_calls (lines : list bytes) (fault : option exn) : list pyval :=
  calls (run_stream lines fault).2.

(** What a per-line event can be: never an error event, and marked done
    only when its line is a JSON object with a truthy ["done"] field. *)
Definition from_line (line : bytes) (ev : dict) : Prop :=
  is_error ev = false ∧
  (is_done ev = true →
   ∃ d, json_loads line = inr (PDict d) ∧
        truthy (dict_get d "done" (PBool false)) = true).

(** The per-line events [evs] come from the first non-empty lines of
    [lines], one from each and in their order: the event at a position is
    the event of the line at that position. *)
Definition line_by_line (lines : list bytes) (evs : list dict) : Prop :=
  ∃ read rest,
    filter (λ l, l ≠ "") lines = read ++ rest ∧ Forall2 from_line read evs.


End Streaming.

(** ** The client *)

(** [OllamaClient] after [__init__] ([base_url] already stripped of its
    trailing slashes). *)
Record OllamaClient := {
  base_url : string;
  max_retries : Z;
  timeout : Z;
  context_window : Z
}.

(** What [requests.post] is called with. *)
Record request := Request {
  req_url : string;
  req_json : dict;
  req_stream : bool;
  req_timeout : Z
}.

(** A [requests.Response], through the members the client uses:
    [status_code] and [reason] (for [raise_for_status]), the outcome of
    [json()], [text], and the lines [iter_lines()] delivers, followed by the
    exception it raises, if any. *)
Record response := Response {
  status_code : Z;
  reason : string;
  json_result : exn + pyval;
  text : string;
  lines : list bytes;
  fault : option exn
}.

(** Dictionaries are mutable objects, held in a store and passed by
    reference. *)
Abbreviation loc := positive (only parsing).

(** The world around a call: the store, the requests posted so far, and the
    waits slept between attempts. *)
Record world := World {
  heap : gmap loc (gmap string pyval);
  sent : list request;
  slept : list Z
}.

(** What [generate] returns: a dictionary, or the generator of the streaming
    handler over a response (it runs when the caller iterates it). *)
Inductive retval :=
  | RDict (d : dict)
  | RGenerator (r : response).

(** [int.__lt__(z, f)]: Python compares an [int] and a [float] exactly. *)
Definition Z_ltb_float (z : Z) (f : float) : bool :=
  match Prim2SF f with
  | S754_zero _ => z <? 0
  | S754_infinity neg => negb neg
  | S754_nan => false
  | S754_finite neg m e =>
      let sm := if neg then Z.neg m else Z.pos m in
      if 0 <=? e then z <? sm * 2 ^ e else z * 2 ^ (- e) <? sm
  end.

(** [z < v] for an [int] [z]; a [TypeError] when [v] is not a number. *)
Definition int_lt (z : Z) (v : pyval) : exn + bool :=
  match v with
  | PInt n => inr (z <? n)
  | PBool b => inr (z <? (if b then 1 else 0))
  | PFloat f => inr (Z_ltb_float z f)
  | _ => inl (Exn TypeError
                ("'<' not supported between instances of 'int' and '" +:+
                 type_name v +:+ "'"))
  end.

(** [min(v, z)] for an [int] [z]: [z] when [z < v], else [v]. *)
Definition py_min (v : pyval) (z : Z) : exn + pyval :=
  match int_lt z v with
  | inr true => inr (PInt z)
  | inr false => inr v
  | inl e => inl e
  end.

(** [response.raise_for_status()] *)
Definition raise_for_status (url : string) (r : response) : M world unit :=
  if bool_decide (400 ≤ status_code r < 500) then
    raise (Exn RequestException
             (pretty (status_code r) +:+ " Client Error: " +:+ reason r +:+
              " for url: " +:+ url))
  else if bool_decide (500 ≤ status_code r < 600) then
    raise (Exn RequestException
             (pretty (status_code r) +:+ " Server Error: " +:+ reason r +:+
              " for url: " +:+ url))
  else mret tt.

Definition read_dict (l : loc) : M world dict :=
  λ w, (inr (default ∅ (heap w !! l)), w).

Definition write_dict (l : loc) (d : dict) : M world unit :=
  λ w, (inr tt, World (<[l := d]> (heap w)) (sent w) (slept w)).

Definition sleep (seconds : Z) : M world unit :=
  λ w, (inr tt, World (heap w) (sent w) (slept w ++ [seconds])).

(** [stop_after_attempt(3)] and
    [wait_exponential(multiplier=1, min=4, max=10)] *)
Definition stop_after_attempt : nat := 3.

Definition wait_exponential (attempt_number : nat) : Z :=
  Z.max 4 (Z.min (1 * 2 ^ (Z.of_nat attempt_number - 1)) 10).

(** The [@retry] decorator: call again while the call raises, until the
    attempt ceiling, sleeping in between; a call that returns is not
    repeated.  [remaining] is the number of attempts left after this one. *)
Fixpoint retrying {A} (remaining : nat) (attempt_number : nat) (f : M world A)
  : M world A :=
  λ w, match f w with
       | (inr a, w') => (inr a, w')
       | (inl e, w') =>
           match remaining with
           | O => (inl (Exn RetryError "RetryError"), w')
           | S remaining' =>
               (sleep (wait_exponential attempt_number) ;;
                retrying remaining' (S attempt_number) f) w'
           end
       end.

Definition retry {A} (f : M world A) : M world A :=
  retrying (stop_after_attempt - 1) 1 f.

Section Client.

(** [requests.post]: what the n-th call (counting from 0) with a given
    request does: it raises, or returns a response. *)
Variable network : nat → request → exn + response.

Variable py_repr : pyval → string.

Variable self : OllamaClient.

Definition requests_post (rq : request) : M world response :=
  λ w, let w' := World (heap w) (sent w ++ [rq]) (slept w) in
       match network (length (sent w)) rq with
       | inl e => (inl e, w')
       | inr r => (inr r, w')
       end.

(** The non-streaming reply, inside the inner [try]. *)
Definition parse_reply (model : string) (r : response) : M world retval :=
  try_except
    (result ← lift (json_result r);
     match result with
     | PStr _ =>
         mret (RDict (mk_event result (PStr model) (PStr "") (PBool true)))
     | PDict d =>
         mret (RDict (mk_event (dict_get d "response" (PStr ""))
                               (dict_get d "model" (PStr model))
                               (dict_get d "created_at" (PStr ""))
                               (dict_get d "done" (PBool true))))
     | _ =>
         mret (RDict (mk_event (PStr (py_str py_repr result)) (PStr model)
                               (PStr "") (PBool true)))
     end)
    is_json_decode_error
    (λ _, mret (RDict (mk_event (PStr (text r)) (PStr model) (PStr "")
                                (PBool true)))).

(** [data] as first built. *)
Definition base_data (model prompt : string) (stream : bool) : dict :=
  <["model" := PStr model]> (<["prompt" := PStr prompt]>
    {["stream" := PBool stream]}).

(** [if options: ...]: the clamp is written into the caller's dictionary,
    whose entries are then copied over [data]. *)
Definition apply_options (options : option loc) (data : dict) : M world dict :=
  match options with
  | None => mret data
  | Some l =>
      opts ← read_dict l;
      if truthy (PDict opts) then
        match opts !! "max_tokens" with
        | Some requested =>
            m ← lift (py_min requested (context_window self));
            write_dict l (<["max_tokens" := m]> opts)
        | None => mret tt
        end ;;
        opts' ← read_dict l;
        mret (opts' ∪ data)
      else mret data
  end.

(** The outer [try] with its two [except] clauses. *)
Definition exchange (model : string) (stream : bool) (data : dict)
  : M world retval :=
  let url := base_url self +:+ "/api/generate" in
  try_except
    (r ← requests_post (Request url data stream (timeout self));
     raise_for_status url r ;;
     if stream then mret (RGenerator r)
     else parse_reply model r)
    is_request_exception
    (λ e, if is_timeout e
          then mret (RDict (error_event "Request timed out"))
          else mret (RDict (error_event (str_exn e)))).

(** The body of [generate], one attempt. *)
Definition generate_body (model prompt : string) (options : option loc)
    (stream : bool) : M world retval :=
  data ← apply_options options (base_data model prompt stream);
  exchange model stream data.

(** The options are ones the clamp accepts: a [max_tokens] entry, if there
    is one, is a number. *)
Definition options_accepted (w : world) (options : option loc) : Prop :=
  ∀ l opts requested,
    options = Some l → heap w !! l = Some opts →
    opts !! "max_tokens" = Some requested →
    ∃ m, py_min requested (context_window self) = inr m.

(** [generate], as decorated. *)
Definition generate (model prompt : string) (options : option loc)
    (stream : bool) : M world retval :=
  retry (generate_body model prompt options stream).

End Client.

(** The events the caller of [generate] gets: the dictionary returned, or
    what the generator returned yields when it is iterated to its end. *)
Definition generate_events (json_loads : bytes → exn + pyval)
    (decode_utf8 : bytes → exn + string) (py_repr : pyval → string)
    (callback : option (list pyval → pyval → option exn)) (v : retval)
  : list dict :=
  match v with
  | RDict d => [d]
  | RGenerator r =>
      stream_events json_loads decode_utf8 py_repr callback (lines r) (fault r)
  end.

(** The ordering of the events of one request, as the data model states it:
    events that are not terminal, then one terminal event, the last. *)
Definition ordering_invariant (evs : list dict) : bool :=
  match rev evs with
  | [] => false
  | final :: partial => terminal final && forallb (λ ev, negb (terminal ev)) partial
  end.

(** ** The research pipeline *)

Module Pipeline.

(** Modelled from the spec: the data model of the pipeline (section 3); the
    module [research_manager] that implements it is not among the sources. *)
Inductive stage :=
  | Planning
  | AreaSearch
  | AreaSummary
  | Aggregating
  | Complete
  | Error.

Record ResearchConfig := {
  model_name : string;
  max_tokens : Z;
  search_depth : nat;
  max_sources : nat
}.

Record SourceRecord := { title : string; url : string; snippet : string }.

Record ResearchArea := {
  area_name : string;
  queries : list string;
  sources : list SourceRecord;
  summary : string
}.

Record ResearchReport := {
  final_text : string;
  report_areas : list ResearchArea
}.

Record ProgressEvent := {
  tag : stage;
  message : string;
  fraction : Q;
  report : option ResearchReport
}.

(** A run: the events emitted so far, the steps completed, the total number
    of steps (1 until the plan is known), and the number of generation calls
    made. *)
Record run_state := RunState {
  emitted : list ProgressEvent;
  done_steps : nat;
  total_steps : nat;
  asked : nat
}.

Definition run_init : run_state := RunState [] 0 1 0.

(** The fraction after [k] of [total] steps. *)
Definition frac (k total : nat) : Q := Z.of_nat k # Pos.of_nat total.

(** Complete one step and emit its progress event. *)
Definition advance (t : stage) (msg : string) (rep : option ResearchReport)
  : M run_state unit :=
  λ st, let k := S (done_steps st) in
        (inr tt,
         RunState (emitted st ++ [Build_ProgressEvent t msg (frac k (total_steps st)) rep])
                  k (total_steps st) (asked st)).

Definition set_total (total : nat) : M run_state unit :=
  λ st, (inr tt, RunState (emitted st) (done_steps st) total (asked st)).

(** The error event: the upstream text, at the fraction of the steps
    completed. *)
Definition emit_error (msg : string) : M run_state unit :=
  λ st, (inr tt,
         RunState (emitted st ++
                   [Build_ProgressEvent Error msg (frac (done_steps st) (total_steps st)) None])
                  (done_steps st) (total_steps st) (asked st)).

Definition new_area (name : string) : ResearchArea :=
  Build_ResearchArea name [] [] "".

Definition known_url (u : string) (l : list SourceRecord) : bool :=
  existsb (λ s, String.eqb (url s) u) l.

(** Merge new sources into the collected ones, one record per url. *)
Fixpoint merge_sources (have found : list SourceRecord) : list SourceRecord :=
  match found with
  | [] => have
  | s :: found' =>
      if known_url (url s) have then merge_sources have found'
      else merge_sources (have ++ [s]) found'
  end.

Section Run.

(** The generation client as the pipeline sees it: the terminal event of the
    n-th call (counting from 0) on a prompt, an error text or the full
    text. *)
Variable reply : nat → string → string + string.

(** The source fetcher: a query and a maximum count. *)
Variable fetch : string → nat → list SourceRecord.

(** The reading of a plan: the area names, or no usable list. *)
Variable parse_plan : string → option (list string).

(** The prompts. *)
Variable plan_prompt : string → ResearchConfig → string.
Variable refine_prompt : ResearchArea → string.
Variable summary_prompt : ResearchArea → string.
Variable aggregate_prompt : string → list ResearchArea → string.

Variable cfg : ResearchConfig.

(** One generation request; an error event of the client ends the run. *)
Definition ask (prompt : string) : M run_state string :=
  λ st, let st' := RunState (emitted st) (done_steps st) (total_steps st)
                            (S (asked st)) in
        match reply (asked st) prompt with
        | inl err => (inl (Exn OtherException err), st')
        | inr txt => (inr txt, st')
        end.

(** Modelled from the spec: one search iteration of an area (section 4.2,
    AreaSearch).  Once the area holds [max_sources] sources the iteration is
    skipped and progress advances; otherwise the first iteration searches
    for the area's name and a later one asks for a refined query, and the
    sources found are merged in, one per url, up to the cap. *)
Definition search_iteration (i : nat) (a : ResearchArea) : M run_state ResearchArea :=
  let msg := area_name a +:+ " " +:+ pretty i in
  if (max_sources cfg <=? length (sources a))%nat then
    advance AreaSearch msg None ;; mret a
  else
    query ← (if (i =? 1)%nat then mret (area_name a) else ask (refine_prompt a));
    let found := fetch query (max_sources cfg - length (sources a)) in
    let merged := take (max_sources cfg) (merge_sources (sources a) found) in
    advance AreaSearch msg None ;;
    mret (Build_ResearchArea (area_name a) (queries a ++ [query]) merged (summary a)).

Fixpoint search_iterations (iters : list nat) (a : ResearchArea)
  : M run_state ResearchArea :=
  match iters with
  | [] => mret a
  | i :: iters' => a' ← search_iteration i a; search_iterations iters' a'
  end.

Fixpoint search_areas (areas : list ResearchArea) : M run_state (list ResearchArea) :=
  match areas with
  | [] => mret []
  | a :: areas' =>
      a' ← search_iterations (seq 1 (search_depth cfg)) a;
      rest ← search_areas areas';
      mret (a' :: rest)
  end.

(** Modelled from the spec: the summary of one area (section 4.2,
    AreaSummary; an empty summary is a failure, section 7). *)
Definition summarize_area (a : ResearchArea) : M run_state ResearchArea :=
  txt ← ask (summary_prompt a);
  if String.eqb txt "" then raise (Exn OtherException "empty summary")
  else
    advance AreaSummary (area_name a) None ;;
    mret (Build_ResearchArea (area_name a) (queries a) (sources a) txt).

Fixpoint summarize_areas (areas : list ResearchArea) : M run_state (list ResearchArea) :=
  match areas with
  | [] => mret []
  | a :: areas' =>
      a' ← summarize_area a;
      rest ← summarize_areas areas';
      mret (a' :: rest)
  end.

(** Modelled from the spec: the stages in order (section 4.2): plan, search
    every area, summarize every area, aggregate, complete.  The total is
    1 + N * depth + N + 1 steps. *)
Definition stages (topic : string) : M run_state unit :=
  plan ← ask (plan_prompt topic cfg);
  match parse_plan plan with
  | Some (name :: names) =>
      let areas := new_area <$> (name :: names) in
      let n := length areas in
      set_total (1 + n * search_depth cfg + n + 1) ;;
      advance Planning plan None ;;
      searched ← search_areas areas;
      summarized ← summarize_areas searched;
      final ← ask (aggregate_prompt topic summarized);
      advance Complete final (Some (Build_ResearchReport final summarized))
  | _ => raise (Exn OtherException "no usable research plan")
  end.

(** Modelled from the spec: [run(topic, config)] (sections 4.2 and 6): the
    stages, and on any failure one Error event, after which nothing is
    emitted. *)
Definition run (topic : string) : list ProgressEvent :=
  emitted (try_except (stages topic) (λ _, true) (λ e, emit_error (str_exn e))
             run_init).2.

End Run.

(** The fractions never decrease along the list. *)
Definition nondecreasing (l : list Q) : Prop :=
  ∀ i j x y, (i ≤ j)%nat → l !! i = Some x → l !! j = Some y → (x <= y)%Q.

(** Some event reports the fraction 1. *)
Definition reaches_one (evs : list ProgressEvent) : Prop :=
  ∃ ev, ev ∈ evs ∧ (fraction ev == 1)%Q.

(** Between two states of a run: the total is unchanged, and the events
    added are the progress events of the steps completed in between, one per
    step, none of them Error or Complete. *)
Definition steps (st st' : run_state) : Prop :=
  total_steps st' = total_steps st ∧
  (done_steps st ≤ done_steps st')%nat ∧
  ∃ new,
    emitted st' = emitted st ++ new ∧
    fraction <$> new =
      (λ j, frac j (total_steps st)) <$>
        seq (S (done_steps st)) (done_steps st' - done_steps st) ∧
    Forall (λ ev, tag ev ≠ Error ∧ tag ev ≠ Complete) new.

(** A computation that completes at most [b] steps, and exactly [b] when it
    returns. *)
Definition uses {A} (b : nat) (m : M run_state A) : Prop :=
  ∀ st r st', m st = (r, st') →
    steps st st' ∧
    (done_steps st' ≤ done_steps st + b)%nat ∧
    (∀ a, r = inr a → done_steps st' = (done_steps st + b)%nat).

(** What holds of a run between steps: the events emitted are the progress
    events of the steps completed, in order. *)
Definition run_inv (st : run_state) : Prop :=
  fraction <$> emitted st =
    (λ j, frac j (total_steps st)) <$> seq 1 (done_steps st) ∧
  Forall (λ ev, tag ev ≠ Error ∧ tag ev ≠ Complete) (emitted st).

(** The shape of the events of a run: the progress events of [k] steps out
    of [T], then either the Complete event of the last step or an Error
    event at the fraction reached. *)
Definition well_formed_run (evs : list ProgressEvent) : Prop :=
  ∃ body final k T,
    evs = body ++ [final] ∧
    (1 ≤ T)%nat ∧
    fraction <$> body = (λ j, frac j T) <$> seq 1 k ∧
    Forall (λ ev, tag ev ≠ Error ∧ tag ev ≠ Complete) body ∧
    ((tag final = Complete ∧ S k = T ∧ fraction final = frac T T) ∨
     (tag final = Error ∧ (k < T)%nat ∧ fraction final = frac k T)).

End Pipeline.

(** ** Inputs of the worked calls *)

Module Wire.

Definition octets (l : list nat) : bytes :=
  foldr (λ n s, String (Ascii.ascii_of_nat n) s) EmptyString l.

Definition dquote : string := octets [34%nat].

Definition json_string (s : string) : string := dquote +:+ s +:+ dquote.

Definition json_object1 (k v : string) : bytes :=
  "{" +:+ json_string k +:+ ":" +:+ v +:+ "}".

Definition json_object2 (k1 v1 k2 v2 : string) : bytes :=
  "{" +:+ json_string k1 +:+ ":" +:+ v1 +:+ "," +:+
  json_string k2 +:+ ":" +:+ v2 +:+ "}".

(** An object line that reports completion itself. *)
Definition line_a_done : bytes :=
  json_object2 "response" (json_string "a") "done" "true".

Definition line_a : bytes := json_object1 "response" (json_string "a").
Definition line_five : bytes := json_object1 "response" "5".
Definition line_Hello : bytes := json_object1 "response" (json_string "Hello").
Definition line_Hel : bytes := json_object1 "response" (json_string "Hel").
Definition line_lo : bytes := json_object1 "response" (json_string "lo").

(** A line that is no JSON. *)
Definition line_hello : bytes := "hello".

(** The text [hi] in UTF-16 behind a byte order mark: [json.loads] detects
    the encoding, decodes, and fails to parse; the octets are not UTF-8. *)
Definition line_utf16 : bytes := octets [255; 254; 104; 0; 105; 0]%nat.

Definition table : list (bytes * pyval) :=
  [ (line_a_done, PDict (<["response" := PStr "a"]> {["done" := PBool true]}));
    (line_a, PDict {["response" := PStr "a"]});
    (line_five, PDict {["response" := PInt 5]});
    (line_Hello, PDict {["response" := PStr "Hello"]});
    (line_Hel, PDict {["response" := PStr "Hel"]});
    (line_lo, PDict {["response" := PStr "lo"]}) ].

Fixpoint assoc (line : bytes) (t : list (bytes * pyval)) : option pyval :=
  match t with
  | [] => None
  | (k, v) :: t' => if String.eqb line k then Some v else assoc line t'
  end.

(** [json.loads] on the lines above: the objects of [table], and
    [JSONDecodeError] on [line_hello] and [line_utf16]. *)
Definition loads (line : bytes) : exn + pyval :=
  match assoc line table with
  | Some v => inr v
  | None => inl (Exn JSONDecodeError "Expecting value: line 1 column 1 (char 0)")
  end.

Fixpoint ascii_only (s : string) : bool :=
  match s with
  | EmptyString => true
  | String c s' => (Ascii.nat_of_ascii c <? 128)%nat && ascii_only s'
  end.

(** [bytes.decode('utf-8')] on the lines above: the text itself when every
    octet is ASCII, [UnicodeDecodeError] on [line_utf16]. *)
Definition decode (line : bytes) : exn + string :=
  if ascii_only line then inr line
  else inl (Exn UnicodeDecodeError
    "'utf-8' codec can't decode byte 0xff in position 0: invalid start byte").

Definition repr (v : pyval) : string := "".

(** A callback that raises on every call. *)
Definition raising (earlier : list pyval) (v : pyval) : option exn :=
  Some (Exn OtherException "callback failed").

Definition events (lines : list bytes) (fault : option exn) : list dict :=
  stream_events loads decode repr None lines fault.

End Wire.

Module Net.

(** The module-level client, [OllamaClient()]. *)
Definition ollama : OllamaClient :=
  {| base_url := "http://localhost:11434"; max_retries := 3; timeout := 30;
     context_window := 8192 |}.

(** A client with a context window of 4096 tokens. *)
Definition small : OllamaClient :=
  {| base_url := "http://localhost:11434"; max_retries := 3; timeout := 30;
     context_window := 4096 |}.

Definition ok_response (body : exn + pyval) (raw : string) : response :=
  Response 200 "OK" body raw [] None.

(** A complete reply of the server. *)
Definition greeting : response :=
  ok_response
    (inr (PDict (<["response" := PStr "hi there"]>
                   (<["model" := PStr "researcher"]>
                      (<["created_at" := PStr "2024-11-20T10:00:00Z"]>
                         {["done" := PBool true]})))))
    "".

(** A reply object that reports itself unfinished. *)
Definition unfinished : response :=
  ok_response
    (inr (PDict (<["response" := PStr "partial"]> {["done" := PBool false]})))
    "".

(** A reply whose body is a bare JSON string. *)
Definition bare : response := ok_response (inr (PStr "hi there")) "".

(** A transport that times out twice and then answers. *)
Definition flaky (n : nat) (rq : request) : exn + response :=
  match n with
  | 0%nat | 1%nat =>
      inl (Exn Timeout
        "HTTPConnectionPool(host='localhost', port=11434): Read timed out. (read timeout=30)")
  | _ => inr greeting
  end.

(** A transport that always answers with [r]. *)
Definition always (r : response) (n : nat) (rq : request) : exn + response :=
  inr r.

(** A reply that is streamed in two lines. *)
Definition streamed : response :=
  Response 200 "OK"
    (inl (Exn JSONDecodeError "Extra data: line 2 column 1 (char 19)"))
    "" [Wire.line_Hel; Wire.line_lo] None.

Definition empty_world : world := World ∅ [] [].

(** The caller's options dictionary, at reference 1. *)
Definition caller : loc := 1%positive.

Definition world_with (opts : dict) : world := World {[caller := opts]} [] [].

Definition big_options : dict :=
  <["max_tokens" := PInt 9000]> {["temperature" := PInt 1]}.

Definition the_request (stream : bool) : request :=
  Request "http://localhost:11434/api/generate"
    (base_data "researcher" "hi" stream) stream 30.

End Net.

Module Stub.

Import Pipeline.

Definition cfg : ResearchConfig :=
  {| model_name := "researcher"; max_tokens := 4000; search_depth := 1;
     max_sources := 5 |}.

(** A model that answers every call. *)
Definition reply (n : nat) (prompt : string) : string + string :=
  match n with
  | 0%nat => inr "plan"
  | 1%nat | 2%nat => inr "summary"
  | _ => inr "report"
  end.

(** A model whose fourth call, the aggregation, fails. *)
Definition failing_reply (n : nat) (prompt : string) : string + string :=
  match n with
  | 3%nat => inl "connection refused"
  | _ => reply n prompt
  end.

Definition fetch (query : string) (max_count : nat) : list SourceRecord := [].

Definition parse_plan (plan : string) : option (list string) :=
  Some ["hardware"; "algorithms"].

Definition run_with (r : nat → string → string + string) : list ProgressEvent :=
  run r fetch parse_plan (λ _ _, "") (λ _, "") (λ _, "") (λ _ _, "") cfg
      "quantum computing".

End Stub.

(** ** The surroundings of the other operations

    The remaining methods of the client, the model manager and the app talk
    to the server, run the [ollama] program, write files and draw widgets.
    What they do is kept as a trace of effects; what the surroundings answer
    is a function of the trace so far. *)

Inductive http_method := GET | POST | DELETE.

Record http_call := HttpCall {
  call_method : http_method;
  call_url : string;
  call_json : option (gmap string pyval)
}.

(** The [streamlit] calls that show something. *)
Inductive ui_kind :=
  | UiError
  | UiSuccess
  | UiWarning
  | UiInfo
  | UiMarkdown
  | UiSpinner
  | UiProgress
  | UiTabs
  | UiSubheader.

(** Where on the page something is shown. *)
Inductive place :=
  | Page
  | Sidebar
  | Column1
  | Column2
  | ProgressContainer
  | PlanContainer
  | AreasContainer
  | FinalContainer.

Inductive log_level := LogInfo | LogWarning | LogError.

(** What is done, in order.  A request, a write, a run of a program and an
    unlink are the calls made, whether they succeed or fail (what they give
    is in the [environment]); [ETempFile path] is a temporary file that has
    been created at [path]. *)
Inductive effect :=
  | EHttp (c : http_call)
  | ETempFile (path : string)
  | EWrite (path content : string)
  | ESpawn (argv : list string)
  | EUnlink (path : string)
  | ELog (level : log_level) (text : string)
  | EShow (where_ : place) (k : ui_kind) (shown : pyval)
  | EWidget (label : string) (options : list pyval).

(** How [subprocess.run(..., check=True)] ends: the output of a run that
    exits with 0, [CalledProcessError] with the captured error output, or
    another exception (the program is missing, say). *)
Inductive proc_outcome :=
  | Completed (stdout : string)
  | CalledProcessError (stderr : string)
  | SpawnFailed (e : exn).

Record environment := {
  (** [requests.get], [requests.post], [requests.delete] *)
  http : list effect → http_call → exn + response;
  (** [subprocess.run] *)
  run_process : list effect → list string → proc_outcome;
  (** [tempfile.NamedTemporaryFile(..., delete=False)]: the name of the file
      created, or the error *)
  named_temporary_file : list effect → exn + string;
  (** [f.write(content)] and the closing of the file when the [with] block
      is left: the error, if one is raised *)
  file_write : list effect → string → string → option exn;
  (** [os.unlink]: the error, if it fails *)
  os_unlink : list effect → string → option exn;
  (** [json.loads] on a [str] *)
  loads_str : string → exn + pyval;
  (** [str.splitlines] and [str.strip] *)
  splitlines : string → list string;
  strip : string → string;
  (** [repr] of the values whose [str] is not spelled out in [py_str] *)
  repr_of : pyval → string;
  (** The exceptions of [v[key]], of [iter(v)], of [len(v)] and of [v.attr]
      where they fail *)
  subscript_error : pyval → string → exn;
  iter_error : pyval → exn;
  len_error : pyval → exn;
  attribute_error : pyval → string → exn;
  (** [st.button] and [st.selectbox]: the click, the selection *)
  st_button : list effect → string → bool;
  st_selectbox : list effect → string → list pyval → pyval;
  (** [st.number_input] with [int] bounds, for a given initial value: the
      number entered *)
  st_number_input : list effect → string → Z → Z;
  (** The [TypeError] of [sorted(list(set(names)))] for names that are not
      all [str] *)
  sort_error : list pyval → exn
}.

(** [try: m  finally: fin] *)
Definition try_finally {S A} (m : M S A) (fin : M S unit) : M S A :=
  λ s, match m s with
       | (r, s') =>
           match fin s' with
           | (inr _, s'') => (r, s'')
           | (inl e, s'') => (inl e, s'')
           end
       end.

Definition record_effect (e : effect) : M (list effect) unit :=
  λ t, (inr tt, t ++ [e]).

(** The character [/], the character [:] and the line feed. *)
Definition slash : Ascii.ascii := Ascii.ascii_of_nat 47.
Definition colon : Ascii.ascii := Ascii.ascii_of_nat 58.
Definition hyphen : Ascii.ascii := Ascii.ascii_of_nat 45.
Definition nl : string := String (Ascii.ascii_of_nat 10) EmptyString.

(** [s.rstrip('/')] *)
Fixpoint rstrip_slash (s : string) : string :=
  match s with
  | EmptyString => EmptyString
  | String c s' =>
      match rstrip_slash s' with
      | EmptyString => if Ascii.eqb c slash then EmptyString else String c EmptyString
      | t => String c t
      end
  end.

(** [s.replace(':', '-')] *)
Fixpoint replace_colon (s : string) : string :=
  match s with
  | EmptyString => EmptyString
  | String c s' => String (if Ascii.eqb c colon then hyphen else c) (replace_colon s')
  end.

(** [line.split(":", 1)] on a line with a colon: what is before the first
    colon and what is after it; [None] when [":" in line] is false. *)
Fixpoint split_colon (line : string) : option (string * string) :=
  match line with
  | EmptyString => None
  | String c rest =>
      if Ascii.eqb c colon then Some (EmptyString, rest)
      else match split_colon rest with
           | Some (k, v) => Some (String c k, v)
           | None => None
           end
  end.

(** [s.startswith(p)] *)
Definition startswith (s p : string) : bool := String.prefix p s.

(** [needle in s] *)
Fixpoint contains (needle s : string) : bool :=
  String.prefix needle s ||
  match s with
  | EmptyString => false
  | String _ s' => contains needle s'
  end.

(** The characters of a [str]: every octet that is no continuation octet
    starts one. *)
Definition is_continuation (c : Ascii.ascii) : bool :=
  let n := Ascii.nat_of_ascii c in (128 <=? n)%nat && (n <? 192)%nat.

Fixpoint utf8_chars (s : string) : list string :=
  match s with
  | EmptyString => []
  | String c s' =>
      let r := utf8_chars s' in
      match s' with
      | String c' _ =>
          match r with
          | h :: t =>
              if is_continuation c' then String c h :: t
              else String c EmptyString :: r
          | [] => [String c EmptyString]
          end
      | EmptyString => String c EmptyString :: r
      end
  end.

(** [v == s] for a [str] [s] *)
Definition eq_str (v : pyval) (s : string) : bool :=
  match v with PStr t => String.eqb t s | _ => false end.

(** [sorted(list(set(names)))] for names that are [str]: every name once, in
    ascending order of the code points, which is the order of the octets of
    UTF-8. *)
Fixpoint insert_sorted (s : string) (l : list string) : list string :=
  match l with
  | [] => [s]
  | x :: l' =>
      match String.compare s x with
      | Lt => s :: l
      | Eq => l
      | Gt => x :: insert_sorted s l'
      end
  end.

Definition sorted_set (names : list string) : list string :=
  foldr insert_sorted [] names.

(** The names, when all of them are [str]. *)
Fixpoint all_strings (names : list pyval) : option (list string) :=
  match names with
  | [] => Some []
  | PStr s :: rest =>
      match all_strings rest with
      | Some l => Some (s :: l)
      | None => None
      end
  | _ :: _ => None
  end.

Section Python.

Variable env : environment.

(** [v[key]] for a [str] key *)
Definition getitem (v : pyval) (key : string) : exn + pyval :=
  match v with
  | PDict d =>
      match d !! key with
      | Some x => inr x
      | None => inl (subscript_error env v key)
      end
  | _ => inl (subscript_error env v key)
  end.

(** The items [for m in v] goes through (the keys of a dictionary in the
    order of the map). *)
Definition py_iter (v : pyval) : exn + list pyval :=
  match v with
  | PList l => inr l
  | PStr s => inr (PStr <$> utf8_chars s)
  | PDict d => inr ((λ kv, PStr kv.1) <$> map_to_list d)
  | _ => inl (iter_error env v)
  end.

(** [v.startswith(p)] *)
Definition py_startswith (v : pyval) (p : string) : exn + bool :=
  match v with
  | PStr s => inr (startswith s p)
  | _ => inl (attribute_error env v "startswith")
  end.

(** [[m["name"] for m in items]] *)
Fixpoint names_of (items : list pyval) : exn + list pyval :=
  match items with
  | [] => inr []
  | m :: rest =>
      match getitem m "name" with
      | inl e => inl e
      | inr n =>
          match names_of rest with
          | inl e => inl e
          | inr ns => inr (n :: ns)
          end
      end
  end.

Definition http_request (c : http_call) : M (list effect) response :=
  λ t, (http env t c, t ++ [EHttp c]).

Definition spawn (argv : list string) : M (list effect) proc_outcome :=
  λ t, (inr (run_process env t argv), t ++ [ESpawn argv]).

(** [st.error], [st.markdown] and the like, on the page. *)
Definition show (k : ui_kind) (shown : string) : M (list effect) unit :=
  record_effect (EShow Page k (PStr shown)).

Definition log (level : log_level) (text : string) : M (list effect) unit :=
  record_effect (ELog level text).

(** [st.button(label)], wherever it is drawn *)
Definition button (label : string) : M (list effect) bool :=
  λ t, (inr (st_button env t label), t ++ [EWidget label []]).

(** [len(v)] *)
Definition py_len (v : pyval) : exn + nat :=
  match v with
  | PList l => inr (length l)
  | PStr s => inr (length (utf8_chars s))
  | PDict d => inr (size d)
  | _ => inl (len_error env v)
  end.

End Python.

(** The exception of [response.raise_for_status()], if the status is an
    error. *)
Definition http_error (url : string) (r : response) : option exn :=
  if bool_decide (400 ≤ status_code r < 500) then
    Some (Exn RequestException
            (pretty (status_code r) +:+ " Client Error: " +:+ reason r +:+
             " for url: " +:+ url))
  else if bool_decide (500 ≤ status_code r < 600) then
    Some (Exn RequestException
            (pretty (status_code r) +:+ " Server Error: " +:+ reason r +:+
             " for url: " +:+ url))
  else None.

Definition check_status {S} (url : string) (r : response) : M S unit :=
  match http_error url r with
  | Some e => raise e
  | None => mret tt
  end.

(** ** The other methods of the client *)

Module Client.

(** [OllamaClient.__init__] *)
Definition init (base_url : string) (max_retries timeout context_window : Z)
  : OllamaClient :=
  {| base_url := rstrip_slash base_url; max_retries := max_retries;
     timeout := timeout; context_window := context_window |}.

(** [OllamaClient()], the module-level instance [ollama] *)
Definition default : OllamaClient := init "http://localhost:11434" 3 30 8192.

Definition status_error (msg : pyval) : gmap string pyval :=
  <["status" := PStr "error"]> {["error" := msg]}.

Definition status_success (msg : pyval) : gmap string pyval :=
  <["status" := PStr "success"]> {["message" := msg]}.

Definition models_error (msg : string) : gmap string pyval :=
  <["models" := PList []]> {["error" := PStr msg]}.

Section Methods.

Variable env : environment.
Variable self : OllamaClient.

(** [list_models] *)
Definition list_models : M (list effect) (gmap string pyval) :=
  let url := base_url self +:+ "/api/tags" in
  try_except
    (r ← http_request env (HttpCall GET url None);
     check_status url r ;;
     try_except
       (result ← lift (json_result r);
        match result with
        | PList _ => mret {["models" := result]}
        | PDict d => mret {["models" := dict_get d "models" (PList [])]}
        | _ => mret {["models" := PList []]}
        end)
       is_json_decode_error
       (λ e, log LogError ("Failed to parse JSON response: " +:+ str_exn e) ;;
             mret (models_error "Failed to parse response")))
    is_request_exception
    (λ e, log LogError ("Request to Ollama API failed: " +:+ str_exn e) ;;
          mret (models_error (str_exn e))).

(** [pull_model] *)
Definition pull_model (model : string) : M (list effect) pyval :=
  let url := base_url self +:+ "/api/pull" in
  try_except
    (r ← http_request env (HttpCall POST url (Some {["name" := PStr model]}));
     check_status url r ;;
     try_except
       (lift (json_result r))
       is_json_decode_error
       (λ e, log LogError ("Failed to parse JSON response: " +:+ str_exn e) ;;
             mret (PDict (status_error (PStr "Failed to parse response")))))
    is_request_exception
    (λ e, log LogError ("Request to Ollama API failed: " +:+ str_exn e) ;;
          mret (PDict (status_error (PStr (str_exn e))))).

(** [create_model]: the three [except] clauses are the three ways the run
    and the reading of its output can end. *)
Definition create_model (model_name modelfile_path : string)
  : M (list effect) (gmap string pyval) :=
  out ← spawn env ["ollama"; "create"; model_name; "-f"; modelfile_path];
  match out with
  | Completed stdout =>
      match loads_str env stdout with
      | inr output => mret (status_success output)
      | inl e =>
          if is_json_decode_error e then mret (status_success (PStr stdout))
          else log LogError ("Error creating model: " +:+ str_exn e) ;;
               mret (status_error (PStr (str_exn e)))
      end
  | CalledProcessError stderr =>
      log LogError ("Failed to create model: " +:+ stderr) ;;
      mret (status_error (PStr stderr))
  | SpawnFailed e =>
      log LogError ("Error creating model: " +:+ str_exn e) ;;
      mret (status_error (PStr (str_exn e)))
  end.

(** One line of the output of [ollama show]. *)
Definition info_line (info : gmap string pyval) (line : string)
  : gmap string pyval :=
  match split_colon line with
  | Some (key, value) => <[strip env key := PStr (strip env value)]> info
  | None => info
  end.

Definition parse_info (lines : list string) : gmap string pyval :=
  foldl info_line ∅ lines.

(** [get_model_info] *)
Definition get_model_info (model_name : string)
  : M (list effect) (gmap string pyval) :=
  out ← spawn env ["ollama"; "show"; model_name];
  match out with
  | Completed stdout =>
      mret (<["status" := PStr "success"]>
              {["info" := PDict (parse_info (splitlines env stdout))]})
  | CalledProcessError stderr =>
      log LogError ("Failed to get model info: " +:+ stderr) ;;
      mret (status_error (PStr stderr))
  | SpawnFailed e =>
      log LogError ("Error getting model info: " +:+ str_exn e) ;;
      mret (status_error (PStr (str_exn e)))
  end.

End Methods.

End Client.

(** ** The model manager *)

Module ModelManager.

Definition DEFAULT_CONTEXT_LENGTH : Z := 38000.

Record model_info := {
  base : string;
  description : string;
  default_ctx : Z
}.

(** The values of [RECOMMENDED_MODELS], in order. *)
Definition RECOMMENDED_MODELS : list model_info :=
  [ {| base := "mistral-nemo";
       description := "Mistral Nemo with 128k context (recommended)";
       default_ctx := 38000 |};
    {| base := "mistral";
       description := "Mistral 7B with enhanced capabilities";
       default_ctx := 32000 |};
    {| base := "llama2";
       description := "Meta's Llama 2 model";
       default_ctx := 32000 |} ].

(** [any(info["base"] == name for info in RECOMMENDED_MODELS.values())] *)
Definition is_recommended (name : pyval) : bool :=
  existsb (λ info, eq_str name (base info)) RECOMMENDED_MODELS.

(** The name [create_research_model] gives the model. *)
Definition research_name (base_model : string) : string :=
  "research-" +:+ replace_colon base_model.

(** The modelfile it writes. *)
Definition modelfile_content (base_model : string) (ctx_length : Z) : string :=
  nl +:+ "FROM " +:+ base_model +:+ nl +:+ nl +:+
  "PARAMETER num_ctx " +:+ pretty ctx_length +:+ nl.

Section Manager.

Variable env : environment.

(** [get_available_models] *)
Definition get_available_models : M (list effect) pyval :=
  try_except
    (response ← Client.list_models env Client.default;
     match response !! "models" with
     | Some models =>
         n ← lift (py_len env models);
         log LogInfo ("Found " +:+ pretty n +:+ " available models") ;;
         mret models
     | None =>
         log LogWarning "No models found in Ollama response" ;;
         mret (PList [])
     end)
    (λ _, true)
    (λ e, log LogError ("Error fetching models: " +:+ str_exn e) ;;
          mret (PList [])).

(** [any(m["name"] == model_name for m in items)]: the items are looked at
    in order, up to the first one that matches or fails. *)
Fixpoint any_named (items : list pyval) (model_name : string) : exn + bool :=
  match items with
  | [] => inr false
  | m :: rest =>
      match getitem env m "name" with
      | inl e => inl e
      | inr n => if eq_str n model_name then inr true else any_named rest model_name
      end
  end.

(** [validate_model] *)
Definition validate_model (model_name : string) : M (list effect) bool :=
  try_except
    (models ← get_available_models;
     items ← lift (py_iter env models);
     lift (any_named items model_name))
    (λ _, true)
    (λ e, log LogError ("Error validating model " +:+ model_name +:+ ": " +:+
                        str_exn e) ;;
          mret false).

(** The [with tempfile.NamedTemporaryFile(...) as f] block: the file is
    created, then written and closed.  An exception of the write leaves the
    block with the file created (it is opened with [delete=False]). *)
Definition make_temp (content : string) : M (list effect) string :=
  λ t, match named_temporary_file env t with
       | inl e => (inl e, t)
       | inr path =>
           let t' := t ++ [ETempFile path] in
           (match file_write env t' path content with
            | Some e => inl e
            | None => inr path
            end,
            t' ++ [EWrite path content])
       end.

Definition unlink (path : string) : M (list effect) unit :=
  λ t, (match os_unlink env t path with Some e => inl e | None => inr tt end,
        t ++ [EUnlink path]).

(** The [finally] clause of [create_research_model]. *)
Definition clean_up (path : string) : M (list effect) unit :=
  try_except (unlink path) (λ _, true)
    (λ e, log LogWarning ("Failed to clean up modelfile: " +:+ str_exn e)).

(** [create_research_model] *)
Definition create_research_model (base_model : string) (ctx_length : Z)
  : M (list effect) (bool * string) :=
  let model_name := research_name base_model in
  found ← validate_model base_model;
  if negb found then mret (false, "Base model " +:+ base_model +:+ " not found")
  else
    modelfile_path ← make_temp (modelfile_content base_model ctx_length);
    try_finally
      (try_except
         (result ← Client.create_model env model_name modelfile_path;
          if eq_str (dict_get result "status" PNone) "success" then
            log LogInfo ("Successfully created model " +:+ model_name) ;;
            mret (true, "Successfully created model " +:+ model_name)
          else
            let error_msg :=
              "Failed to create model: " +:+
              py_str (repr_of env) (dict_get result "error" (PStr "Unknown error")) in
            log LogError error_msg ;;
            mret (false, error_msg))
         (λ _, true)
         (λ e, let error_msg := "Error creating model: " +:+ str_exn e in
               log LogError error_msg ;;
               mret (false, error_msg)))
      (clean_up modelfile_path).

(** The loop of [render_model_selector] that sorts the models into research
    models, recommended models and the others. *)
Fixpoint categorize (models : list pyval) (research recommended other : list pyval)
  : exn + (list pyval * list pyval * list pyval) :=
  match models with
  | [] => inr (research, recommended, other)
  | model :: rest =>
      match getitem env model "name" with
      | inl e => inl e
      | inr model_name =>
          match py_startswith env model_name "research-" with
          | inl e => inl e
          | inr true => categorize rest (research ++ [model]) recommended other
          | inr false =>
              if is_recommended model_name
              then categorize rest research (recommended ++ [model]) other
              else categorize rest research recommended (other ++ [model])
          end
      end
  end.

Definition selectbox (label : string) (options : list pyval) : M (list effect) pyval :=
  λ t, (inr (st_selectbox env t label options), t ++ [EWidget label options]).

(** The description shown for a selected recommended model: the first
    recommended model with that base. *)
Definition describe (selected : pyval) : M (list effect) unit :=
  match List.find (λ info, eq_str selected (base info)) RECOMMENDED_MODELS with
  | Some info => record_effect (EShow Page UiInfo (PStr (description info)))
  | None => mret tt
  end.

(** One tab of [render_model_selector]: the selection it returns, if it
    returns one. *)
Definition tab (models : list pyval) (label empty_note : string) (with_description : bool)
  : M (list effect) (option pyval) :=
  match models with
  | [] => show UiInfo empty_note ;; mret None
  | _ :: _ =>
      names ← lift (names_of env models);
      selected ← selectbox label names;
      if truthy selected then
        (if with_description then describe selected else mret tt) ;;
        mret (Some selected)
      else mret None
  end.

(** [render_model_selector]: [PNone] is [None]. *)
Definition render_model_selector : M (list effect) pyval :=
  available_models ← get_available_models;
  if negb (truthy available_models) then
    show UiWarning
      "No models available. Please ensure Ollama is running and has models installed." ;;
    mret PNone
  else
    items ← lift (py_iter env available_models);
    cats ← lift (categorize items [] [] []);
    let '(research_models, recommended_models, other_models) := cats in
    record_effect (EShow Page UiTabs
      (PList [PStr "Research Models"; PStr "Recommended Models"; PStr "All Models"])) ;;
    r1 ← tab research_models "Select Research Model"
           "No research models available. Create one in the Model Creator tab." false;
    match r1 with
    | Some selected => mret selected
    | None =>
        r2 ← tab recommended_models "Select Recommended Model"
               "No recommended models available. Install them using Ollama." true;
        match r2 with
        | Some selected => mret selected
        | None =>
            r3 ← tab other_models "Select Model" "No other models available." false;
            match r3 with
            | Some selected => mret selected
            | None => mret PNone
            end
        end
    end.

(** The loop of [render_model_creator] that appends the recommended bases
    missing from the names. *)
Definition add_recommended (names : list pyval) : list pyval :=
  foldl (λ names info,
           if existsb (λ n, eq_str n (base info)) names then names
           else names ++ [PStr (base info)])
        names RECOMMENDED_MODELS.

(** [next((info["default_ctx"] for info in ... if info["base"] == selected),
    DEFAULT_CONTEXT_LENGTH)] *)
Definition default_ctx_of (selected : pyval) : Z :=
  match List.find (λ info, eq_str selected (base info)) RECOMMENDED_MODELS with
  | Some info => default_ctx info
  | None => DEFAULT_CONTEXT_LENGTH
  end.

(** [st.number_input]: the bounds, the initial value and the step are shown. *)
Definition number_input (label : string) (min_value max_value value step : Z)
  : M (list effect) Z :=
  λ t, (inr (st_number_input env t label value),
        t ++ [EWidget label [PInt min_value; PInt max_value; PInt value; PInt step]]).

(** [render_model_creator].  A selection that is no [str] fails at
    [base_model.replace], the first step of [create_research_model]. *)
Definition render_model_creator : M (list effect) unit :=
  record_effect (EShow Page UiSubheader (PStr "Create Custom Research Model")) ;;
  available_models ← get_available_models;
  items ← lift (py_iter env available_models);
  names ← lift (names_of env items);
  let base_model_names := add_recommended names in
  sorted_names ← lift (match all_strings base_model_names with
                       | Some l => inr (sorted_set l)
                       | None => inl (sort_error env base_model_names)
                       end);
  selected_model ← selectbox "Select Base Model" (PStr <$> sorted_names);
  describe selected_model ;;
  ctx_length ← number_input "Context Length" 1000 128000
                 (default_ctx_of selected_model) 1000;
  clicked ← button env "Create Research Model";
  if clicked : bool then
    show UiSpinner "Creating model..." ;;
    result ← match selected_model return M (list effect) (bool * string) with
             | PStr base_model => create_research_model base_model ctx_length
             | _ => raise (attribute_error env selected_model "replace")
             end;
    let '(success, message) := result in
    if success : bool then show UiSuccess message else show UiError message
  else mret tt.

End Manager.

End ModelManager.

(** ** The app *)

Module App.

Definition dq : string := String (Ascii.ascii_of_nat 34) EmptyString.

(** The modelfile of the researcher model. *)
Definition modelfile : string :=
  nl +:+ String.concat nl
    [ "FROM phi";
      "";
      "# Set a custom system message";
      "SYSTEM " +:+ dq +:+ dq +:+ dq +:+
        "You are a highly capable research assistant with expertise in gathering, analyzing, and synthesizing information from various sources. Your goal is to help users conduct thorough research by:";
      "1. Breaking down complex topics into key research areas";
      "2. Generating targeted search queries";
      "3. Analyzing and summarizing findings";
      "4. Identifying patterns and insights";
      "5. Providing actionable conclusions";
      "";
      "Always strive to be thorough, accurate, and objective in your research." +:+
        dq +:+ dq +:+ dq;
      "";
      "# Configure model parameters for research tasks";
      "PARAMETER temperature 0.7";
      "PARAMETER top_p 0.9";
      "PARAMETER top_k 40";
      "PARAMETER num_ctx 128000";
      "PARAMETER stop " +:+ dq +:+ "<|im_end|>" +:+ dq;
      "PARAMETER stop " +:+ dq +:+ "<|im_start|>" +:+ dq;
      "" ].

(** The configuration [initialize_session_state] starts from. *)
Definition default_config : gmap string pyval :=
  <["model_name" := PStr "researcher"]>
    (<["temperature" := PFloat 0.7%float]>
       (<["max_tokens" := PInt 4000]>
          (<["search_depth" := PInt 3]> {["max_sources" := PInt 10]}))).

(** [initialize_session_state], on the session state as a dictionary. *)
Definition initialize_session_state (session : gmap string pyval)
  : gmap string pyval :=
  let session1 :=
    match session !! "config" with
    | Some _ => session
    | None => <["config" := PDict default_config]> session
    end in
  match session1 !! "research_results" with
  | Some _ => session1
  | None => <["research_results" := PList []]> session1
  end.

(** [update_progress], the callback [main] hands to the research manager. *)
Definition update_progress (message : string) (progress : pyval)
  : M (list effect) unit :=
  record_effect (EShow ProgressContainer UiProgress progress) ;;
  if contains "Research Plan" message then
    record_effect (EShow PlanContainer UiMarkdown (PStr "## Research Plan")) ;;
    record_effect (EShow PlanContainer UiMarkdown (PStr message))
  else if contains "Researching area" message then
    record_effect (EShow AreasContainer UiMarkdown (PStr message))
  else if contains "Research complete" message then
    record_effect (EShow FinalContainer UiSuccess (PStr message))
  else
    record_effect (EShow Page UiMarkdown (PStr message)).

(** The heading of the sidebar section; the robot face is U+1F916. *)
Definition management_heading : string :=
  "## " +:+ Wire.octets [240; 159; 164; 150]%nat +:+ " Model Management".

Section App.

Variable env : environment.

(** [OLLAMA_URL], from the process environment. *)
Variable OLLAMA_URL : string.

(** [response.status_code != 200] *)
Definition not_ok (r : response) : bool := negb (status_code r =? 200).

(** [create_model] *)
Definition create_model : M (list effect) bool :=
  try_except
    (show UiSpinner "Pulling base Phi model..." ;;
     response ← http_request env
       (HttpCall POST (OLLAMA_URL +:+ "/api/pull") (Some {["name" := PStr "phi"]}));
     if not_ok response then
       show UiError "Failed to pull base model" ;; mret false
     else
       show UiSpinner "Creating researcher model..." ;;
       response ← http_request env
         (HttpCall POST (OLLAMA_URL +:+ "/api/create")
            (Some (<["name" := PStr "researcher"]> {["modelfile" := PStr modelfile]})));
       if not_ok response then
         show UiError "Failed to create model" ;; mret false
       else
         show UiSuccess "Model created successfully!" ;; mret true)
    (λ _, true)
    (λ e, show UiError ("Error creating model: " +:+ str_exn e) ;; mret false).

(** [delete_model]: the name is whatever the caller passes. *)
Definition delete_model (model_name : pyval) : M (list effect) bool :=
  try_except
    (response ← http_request env
       (HttpCall DELETE (OLLAMA_URL +:+ "/api/delete")
          (Some {["name" := model_name]}));
     if status_code response =? 200 then
       show UiSuccess ("Model " +:+ py_str (repr_of env) model_name +:+
                       " deleted successfully!") ;;
       mret true
     else
       show UiError ("Failed to delete model " +:+ py_str (repr_of env) model_name) ;;
       mret false)
    (λ _, true)
    (λ e, show UiError ("Error deleting model: " +:+ str_exn e) ;; mret false).

(** [any(model.startswith(prefix) for model in names)] *)
Fixpoint any_startswith (names : list pyval) (prefix : string) : exn + bool :=
  match names with
  | [] => inr false
  | n :: rest =>
      match py_startswith env n prefix with
      | inl e => inl e
      | inr true => inr true
      | inr false => any_startswith rest prefix
      end
  end.

(** [verify_model] *)
Definition verify_model : M (list effect) bool :=
  try_except
    (response ← http_request env (HttpCall GET (OLLAMA_URL +:+ "/api/tags") None);
     if status_code response =? 200 then
       body ← lift (json_result response);
       listed ← lift (getitem env body "models");
       items ← lift (py_iter env listed);
       models ← lift (names_of env items);
       found ← lift (any_startswith models "researcher");
       if negb found then
         record_effect (EShow Column1 UiError
                          (PStr "Required model 'researcher' not found.")) ;;
         clicked ← button env "Create Model";
         (if clicked : bool then (create_model ;; mret tt) else mret tt) ;;
         mret false
       else mret true
     else
       show UiError
         "Failed to connect to Ollama API. Please ensure Ollama is running." ;;
       mret false)
    (λ _, true)
    (λ e, show UiError ("Error connecting to Ollama: " +:+ str_exn e) ;;
          mret false).

(** [display_model_management] *)
Definition display_model_management : M (list effect) unit :=
  record_effect (EShow Sidebar UiMarkdown (PStr "---")) ;;
  record_effect (EShow Sidebar UiMarkdown (PStr management_heading)) ;;
  try_except
    (response ← http_request env (HttpCall GET (OLLAMA_URL +:+ "/api/tags") None);
     if status_code response =? 200 then
       body ← lift (json_result response);
       listed ← lift (getitem env body "models");
       items ← lift (py_iter env listed);
       models ← lift (names_of env items);
       clicked ← button env "Create Researcher Model";
       (if clicked : bool then (create_model ;; mret tt) else mret tt) ;;
       if truthy (PList models) then
         record_effect (EShow Sidebar UiMarkdown (PStr "### Delete Model")) ;;
         model_to_delete ← ModelManager.selectbox env "Select model to delete" models;
         clicked ← button env "Delete Selected Model";
         if clicked : bool then (delete_model model_to_delete ;; mret tt) else mret tt
       else mret tt
     else mret tt)
    (λ _, true)
    (λ e, record_effect
            (EShow Sidebar UiError (PStr ("Error loading models: " +:+ str_exn e)))).

End App.

End App.

(** ** Relations between what is buffered, yielded and passed on *)

(** The callback has been invoked with exactly what has been buffered. *)
Definition in_step (st : gen_state) : Prop := calls st = buffer st.

(** [drops buf texts]: [buf] is [texts] without some of its falsy items. *)
Inductive drops : list pyval → list pyval → Prop :=
  | drops_nil : drops [] []
  | drops_keep v buf texts : drops buf texts → drops (buf ++ [v]) (texts ++ [v])
  | drops_skip v buf texts :
      truthy v = false → drops buf texts → drops buf (texts ++ [v]).

(** A transport that raises nothing but [RequestException] and answers with
    bodies whose reading raises nothing but [JSONDecodeError] or
    [RequestException]. *)
Definition benign (network : nat → request → exn + response) (w : world) : Prop :=
  ∀ rq,
    match network (length (sent w)) rq with
    | inl e => is_request_exception e = true
    | inr r =>
        match json_result r with
        | inl e => is_json_decode_error e = true ∨ is_request_exception e = true
        | inr _ => True
        end
    end.

(** [n] slashes. *)
Fixpoint slashes (n : nat) : string :=
  match n with
  | O => EmptyString
  | S n' => String slash (slashes n')
  end.

(** An effect that is a log record. *)
Definition is_log (e : effect) : Prop :=
  match e with ELog _ _ => True | _ => False end.

(** ** Vocabulary of the properties of the model manager and the app *)

(** The request of [ollama.list_models()], the module-level client. *)
Definition default_tags : http_call :=
  HttpCall GET (base_url Client.default +:+ "/api/tags") None.

(** A log record at [info] or at [error]. *)
Definition not_warning (e : effect) : Prop :=
  match e with ELog LogInfo _ | ELog LogError _ => True | _ => False end.

(** The command line of [OllamaClient.create_model]. *)
Definition create_argv (model_name modelfile_path : string) : list string :=
  ["ollama"; "create"; model_name; "-f"; modelfile_path].

(** The run of [argv] exits with 0, and reading its output as JSON raises
    nothing but [JSONDecodeError]. *)
Definition creates (env : environment) (t : list effect) (argv : list string)
  : Prop :=
  ∃ stdout, run_process env t argv = Completed stdout ∧
            ∀ e, loads_str env stdout = inl e → is_json_decode_error e = true.

(** [m["name"]] is a [str] that satisfies [P]. *)
Definition named (env : environment) (m : pyval) (P : string → Prop) : Prop :=
  ∃ s, getitem env m "name" = inr (PStr s) ∧ P s.

(** An [st.info] on the page. *)
Definition is_info (e : effect) : Prop :=
  match e with EShow Page UiInfo _ => True | _ => False end.

(** The warning of [render_model_selector]. *)
Definition no_models_warning : effect :=
  EShow Page UiWarning
    (PStr "No models available. Please ensure Ollama is running and has models installed.").

(** [needle] occurs in [s]. *)
Definition occurs (needle s : string) : Prop :=
  ∃ pre post, s = pre +:+ needle +:+ post.

(** The requests of the app. *)
Definition pull_call (OLLAMA_URL : string) : http_call :=
  HttpCall POST (OLLAMA_URL +:+ "/api/pull") (Some {["name" := PStr "phi"]}).

Definition create_call (OLLAMA_URL : string) : http_call :=
  HttpCall POST (OLLAMA_URL +:+ "/api/create")
    (Some (<["name" := PStr "researcher"]> {["modelfile" := PStr App.modelfile]})).

Definition tags_call (OLLAMA_URL : string) : http_call :=
  HttpCall GET (OLLAMA_URL +:+ "/api/tags") None.

(** The request [c], made after [t], is answered with status 200. *)
Definition answered_ok (env : environment) (t : list effect) (c : http_call)
  : Prop :=
  ∃ r, http env t c = inr r ∧ status_code r = 200.

Definition delete_call (OLLAMA_URL : string) (model_name : pyval) : http_call :=
  HttpCall DELETE (OLLAMA_URL +:+ "/api/delete") (Some {["name" := model_name]}).

(** A [DELETE] request. *)
Definition is_delete (e : effect) : Prop :=
  match e with EHttp c => call_method c = DELETE | _ => False end.

(** [a < b] on [str]. *)
Definition before (a b : string) : Prop := String.compare a b = Lt.

(** An [st.error], wherever it is shown. *)
Definition is_error_message (e : effect) : Prop :=
  match e with EShow _ UiError _ => True | _ => False end.

(** [[model["name"] for model in response.json()["models"]]] of
    [verify_model], for the request made after [t]. *)
Definition listed_names (env : environment) (OLLAMA_URL : string)
    (t : list effect) : exn + list pyval :=
  match http env t (tags_call OLLAMA_URL) with
  | inl e => inl e
  | inr r =>
      match json_result r with
      | inl e => inl e
      | inr body =>
          match getitem env body "models" with
          | inl e => inl e
          | inr listed =>
              match py_iter env listed with
              | inl e => inl e
              | inr items => names_of env items
              end
          end
      end
  end.

(** ** Surroundings of the worked calls *)

Module Sample.

(** What the server lists: a recommended model, a research model and a
    model with a tag. *)
Definition mistral : pyval := PDict {["name" := PStr "mistral"]}.
Definition research_phi : pyval := PDict {["name" := PStr "research-phi"]}.
Definition phi_latest : pyval := PDict {["name" := PStr "phi:latest"]}.

Definition listed : list pyval := [mistral; research_phi; phi_latest].

Definition tags : response :=
  Net.ok_response (inr (PDict {["models" := PList listed]})) "".

(** A reply with an error status. *)
Definition not_found : response :=
  Response 404 "Not Found"
    (inl (Exn JSONDecodeError "Expecting value: line 1 column 1 (char 0)"))
    "404 page not found" [] None.

Definition type_error (text : string) : exn := Exn TypeError text.

(** Surroundings in which the server answers every request with [tags], the
    [ollama] program prints [success] and exits with 0, files are written
    and removed without an error, no button is clicked and every select box
    has its first option selected.  [splitlines] and [strip] are those of
    text of one line without blanks around it. *)
Definition env : environment :=
  {| http := λ _ _, inr tags;
     run_process := λ _ _, Completed "success";
     named_temporary_file := λ _, inr "/tmp/tmpk3x9.modelfile";
     file_write := λ _ _ _, None;
     os_unlink := λ _ _, None;
     loads_str := λ _, inl (Exn JSONDecodeError
                              "Expecting value: line 1 column 1 (char 0)");
     splitlines := λ s, [s];
     strip := λ s, s;
     repr_of := λ _, "";
     subscript_error := λ v _, type_error (type_name v +:+ " has no such item");
     iter_error := λ v,
       type_error ("'" +:+ type_name v +:+ "' object is not iterable");
     len_error := λ v,
       type_error ("object of type '" +:+ type_name v +:+ "' has no len()");
     attribute_error := λ v attr,
       Exn OtherException
         ("'" +:+ type_name v +:+ "' object has no attribute '" +:+ attr +:+ "'");
     st_button := λ _ _, false;
     st_selectbox := λ _ _ options, default PNone (head options);
     st_number_input := λ _ _ value, value;
     sort_error := λ _,
       type_error "'<' not supported between instances of 'str' and 'int'" |}.

(** A callback that never raises. *)
Definition quiet (earlier : list pyval) (v : pyval) : option exn := None.

(** Options without [max_tokens], and options whose [max_tokens] is no
    number. *)
Definition plain_options : dict := {["temperature" := PInt 1]}.
Definition bad_options : dict := {["max_tokens" := PStr "many"]}.

End Sample.

(** ** Facts about events *)

Lemma mk_event_response r m c d : mk_event r m c d !! "response" = Some r.
Proof. reflexivity. Qed.

Lemma mk_event_done r m c d : mk_event r m c d !! "done" = Some d.
Proof. reflexivity. Qed.

Lemma mk_event_no_error r m c d : is_error (mk_event r m c d) = false.
Proof. reflexivity. Qed.

Lemma mk_event_is_done r m c d : is_done (mk_event r m c d) = truthy d.
Proof. reflexivity. Qed.

Lemma stream_error_event_terminal e : terminal (stream_error_event e) = true.
Proof. reflexivity. Qed.

(** ** Facts about the streaming handler *)

Ltac unfold_monad :=
  unfold mbind, M_bind, mret, M_ret, lift, raise, try_except, yield,
    buffer_append, get_buffer in *.

Section StreamingFacts.

Variable json_loads : bytes → exn + pyval.
Variable decode_utf8 : bytes → exn + string.
Variable py_repr : pyval → string.
Variable callback : option (list pyval → pyval → option exn).

Local Abbreviation handle_line := (handle_line json_loads decode_utf8 py_repr callback).
Local Abbreviation for_lines := (for_lines json_loads decode_utf8 py_repr callback).
Local Abbreviation iterate := (iterate json_loads decode_utf8 py_repr callback).
Local Abbreviation run_stream := (run_stream json_loads decode_utf8 py_repr callback).
Local Abbreviation stream_events :=
  (stream_events json_loads decode_utf8 py_repr callback).
Local Abbreviation from_line := (from_line json_loads).
Local Abbreviation line_by_line := (line_by_line json_loads).
Local Abbreviation stream_calls :=
  (stream_calls json_loads decode_utf8 py_repr callback).




Lemma invoke_callback_buffer v st :
  buffer (invoke_callback callback v st).2 = buffer st.
Proof.
  unfold invoke_callback. destruct callback as [cb|]; [|done].
  by destruct (cb (calls st) v).
Qed.








(** A line that is read yields one event, its own; a line that is empty
    and a line on which something is raised yield none. *)
Lemma handle_line_event line st :
  match handle_line line st with
  | (inr _, st') =>
      (line = "" ∧ yielded st' = yielded st) ∨
      (line ≠ "" ∧ ∃ ev, yielded st' = yielded st ++ [ev] ∧ from_line line ev)
  | (inl _, st') => line ≠ "" ∧ yielded st' = yielded st
  end.
Proof.
  destruct (handle_line line st) as [r st'] eqn:H. revert H.
  unfold handle_line. destruct (String.eqb_spec line "") as [->|Hne].
  { intros [= <- <-]. by left. }
  unfold try_except, try_json, plain_text, invoke_callback.
  unfold_monad. unfold_monad. unfold emit. intros H.
  assert (∀ ev : dict, is_done ev = false → is_error ev = false → from_line line ev)
    as Hplain.
  { intros ev Hd He. split; [done|]. by rewrite Hd. }
  repeat (case_match; simplify_eq/=);
    try (split; done);
    try (right; split; [done|]; eexists; split; [reflexivity|];
         by apply Hplain).
  all: right; split; [done|]; eexists; split; [reflexivity|].
  all: split; [done|]; rewrite mk_event_is_done; eauto.
Qed.

Lemma for_lines_line_by_line lines st :
  ∃ evs, yielded (for_lines lines st).2 = yielded st ++ evs ∧ line_by_line lines evs.
Proof.
  revert st. induction lines as [|line lines IH]; intros st; simpl.
  { exists []. rewrite app_nil_r. split; [done|]. exists [], []. by split. }
  unfold_monad. pose proof (handle_line_event line st) as H1.
  destruct (handle_line line st) as [[e|[]] st1]; simpl.
  - destruct H1 as [Hne Hy]. exists []. rewrite app_nil_r. split; [done|].
    exists [], (filter (λ l, l ≠ "") (line :: lines)). by split.
  - destruct (IH st1) as (evs & E & read & rest & Hf & F2).
    destruct H1 as [[-> Hy]|(Hne & ev & Hy & Hev)].
    + exists evs. rewrite E, Hy. split; [done|]. exists read, rest.
      split; [|done]. rewrite filter_cons, decide_False; [done|]. by intros H.
    + exists (ev :: evs). rewrite E, Hy, <- app_assoc. split; [done|].
      exists (line :: read), rest. split; [|by constructor].
      rewrite filter_cons, decide_True by done. simpl. by rewrite Hf.
Qed.

End StreamingFacts.



Example events_line_a_done :
  Wire.events [Wire.line_a_done] None =
  [ mk_event (PStr "a") (PStr "") (PStr "") (PBool true);
    mk_event (PStr "a") (PStr "") (PStr "") (PBool true) ].
Proof. reflexivity. Qed.

Example events_split :
  Wire.events [Wire.line_Hel; Wire.line_lo] None =
  [ mk_event (PStr "Hel") (PStr "") (PStr "") (PBool false);
    mk_event (PStr "lo") (PStr "") (PStr "") (PBool false);
    mk_event (PStr "Hello") (PStr "") (PStr "") (PBool true) ].
Proof. reflexivity. Qed.

Example events_utf16 :
  Wire.events [Wire.line_utf16; Wire.line_hello] None =
  [ stream_error_event (Exn UnicodeDecodeError
      "'utf-8' codec can't decode byte 0xff in position 0: invalid start byte") ].
Proof. reflexivity. Qed.

Example events_five :
  Wire.events [Wire.line_a; Wire.line_five] None =
  [ mk_event (PStr "a") (PStr "") (PStr "") (PBool false);
    mk_event (PInt 5) (PStr "") (PStr "") (PBool false);
    stream_error_event (Exn TypeError
      "sequence item 1: expected str instance, int found") ].
Proof. reflexivity. Qed.

(** ** The streaming handler: ordering, terminal text, resilience *)

Section StreamingTheorems.

Variable json_loads : bytes → exn + pyval.
Variable decode_utf8 : bytes → exn + string.
Variable py_repr : pyval → string.
Variable callback : option (list pyval → pyval → option exn).

Local Abbreviation handle_line' := (handle_line json_loads decode_utf8 py_repr callback).
Local Abbreviation for_lines' := (for_lines json_loads decode_utf8 py_repr callback).
Local Abbreviation iterate' := (iterate json_loads decode_utf8 py_repr callback).
Local Abbreviation run_stream' := (run_stream json_loads decode_utf8 py_repr callback).
Local Abbreviation stream_events' :=
  (stream_events json_loads decode_utf8 py_repr callback).
Local Abbreviation stream_calls' :=
  (stream_calls json_loads decode_utf8 py_repr callback).

Lemma iterate_eq lines fault st :
  iterate' lines fault st =
  match for_lines' lines st with
  | (inr _, st') =>
      match fault with Some e => (inl e, st') | None => (inr tt, st') end
  | (inl e, st') => (inl e, st')
  end.
Proof.
  unfold iterate. unfold_monad.
  destruct (for_lines' lines st) as [[e|[]] st']; [done|]. by destruct fault.
Qed.

Lemma run_stream_eq lines fault :
  run_stream' lines fault =
  match iterate' lines fault gen_init with
  | (inl e, st) => (inr tt, emit st (stream_error_event e))
  | (inr _, st) =>
      match py_join (buffer st) with
      | inr t => (inr tt, emit st (mk_event (PStr t) (PStr "") (PStr "") (PBool true)))
      | inl e => (inr tt, emit st (stream_error_event e))
      end
  end.
Proof.
  unfold run_stream, handle_streaming_response, final_chunk. unfold_monad.
  destruct (iterate' lines fault gen_init) as [[e|[]] st]; [done|].
  simpl. by destruct (py_join (buffer st)).
Qed.

Lemma for_lines_app pre post st :
  for_lines' (pre ++ post) st =
  match for_lines' pre st with
  | (inr _, st') => for_lines' post st'
  | (inl e, st') => (inl e, st')
  end.
Proof.
  revert st. induction pre as [|line pre IH]; intros st; [done|].
  simpl. unfold_monad.
  destruct (handle_line' line st) as [[e|[]] st1]; [done|]. apply IH.
Qed.


Lemma iterate_line_by_line lines fault :
  line_by_line json_loads lines (yielded (iterate' lines fault gen_init).2).
Proof.
  rewrite iterate_eq.
  destruct (for_lines_line_by_line json_loads decode_utf8 py_repr callback lines gen_init)
    as (evs & E & H). simpl in E.
  destruct (for_lines' lines gen_init) as [[e|[]] st]; simpl in *.
  - by rewrite E.
  - destruct fault; simpl; by rewrite E.
Qed.

Lemma ordering_invariant_snoc partial final :
  terminal final = true →
  Forall (λ ev, terminal ev = false) partial →
  ordering_invariant (partial ++ [final]) = true.
Proof.
  intros Hf Hp. unfold ordering_invariant.
  rewrite rev_app_distr. simpl. rewrite Hf. simpl.
  apply forallb_forall. intros ev Hin. apply in_rev in Hin.
  rewrite Forall_forall in Hp. rewrite Hp; [done|]. by apply list_elem_of_In.
Qed.

Lemma join_from_strings i frags :
  join_from i (PStr <$> frags) = inr (String.concat "" frags).
Proof.
  revert i. induction frags as [|s frags IH]; intros i; [done|].
  simpl. rewrite IH. destruct frags as [|s' frags]; [|done].
  simpl. f_equal. induction s as [|c s IHs]; [done|].
  change (String c (s +:+ "") = String c s). by rewrite IHs.
Qed.

Lemma done_true_terminal (ev : dict) :
  ev !! "done" = Some (PBool true) → terminal ev = true.
Proof. intros H. unfold terminal, is_done, dict_get. by rewrite H. Qed.

(** Events that come line by line from lines without a truthy [done] flag
    are not terminal. *)
Lemma line_by_line_not_terminal lines partial :
  line_by_line json_loads lines partial →
  (∀ line d, line ∈ lines → json_loads line = inr (PDict d) →
     truthy (dict_get d "done" (PBool false)) = false) →
  Forall (λ ev, terminal ev = false) partial.
Proof.
  intros (read & rest & Hf & F2) Hno.
  assert (∀ line, line ∈ read → line ∈ lines) as Hin.
  { intros line Hl.
    assert (line ∈ filter (λ l, l ≠ "") lines) as H
      by (rewrite Hf; apply elem_of_app; by left).
    by apply list_elem_of_filter in H as [_ ?]. }
  clear Hf. induction F2 as [|line ev read partial [Herr Hdone] _ IH]; [done|].
  constructor.
  - unfold terminal. rewrite Herr, orb_false_r.
    destruct (is_done ev) eqn:E; [|done].
    destruct (Hdone eq_refl) as (d & Hl & Ht).
    rewrite (Hno line d (Hin line (list_elem_of_here _ _)) Hl) in Ht. done.
  - apply IH. intros l Hl. apply Hin. by right.
Qed.

(** The events of the handler: per-line events, each from its own line,
    and then one final event with [done] set to [True]. *)
Lemma handler_events_ordering lines fault :
  ∃ partial final,
    stream_events' lines fault = partial ++ [final] ∧
    final !! "done" = Some (PBool true) ∧
    terminal final = true ∧
    line_by_line json_loads lines partial ∧
    ((∀ line d, line ∈ lines → json_loads line = inr (PDict d) →
        truthy (dict_get d "done" (PBool false)) = false) →
     ordering_invariant (stream_events' lines fault) = true).
Proof.
  pose proof (iterate_line_by_line lines fault) as Hl.
  assert (∀ final : dict, final !! "done" = Some (PBool true) →
    ∃ partial final',
      yielded (iterate' lines fault gen_init).2 ++ [final] = partial ++ [final'] ∧
      final' !! "done" = Some (PBool true) ∧ terminal final' = true ∧
      line_by_line json_loads lines partial ∧
      ((∀ line d, line ∈ lines → json_loads line = inr (PDict d) →
          truthy (dict_get d "done" (PBool false)) = false) →
       ordering_invariant (yielded (iterate' lines fault gen_init).2 ++ [final]) = true))
    as Hshape.
  { intros final Hd. eexists _, final. split; [done|]. split; [done|].
    split; [by apply done_true_terminal|]. split; [done|]. intros Hno.
    apply ordering_invariant_snoc; [by apply done_true_terminal|].
    by eapply line_by_line_not_terminal. }
  unfold stream_events. rewrite run_stream_eq.
  destruct (iterate' lines fault gen_init) as [[e|[]] st]; simpl in *.
  - by apply Hshape.
  - destruct (py_join (buffer st)) as [e|t]; simpl; by apply Hshape.
Qed.


(** C7 (amended).  A non-empty line on which [json.loads] raises
    [JSONDecodeError], whose octets decode as UTF-8, and on which the
    callback (if any) returns, does not end the stream: its text is passed to
    the callback, appended to the buffer and yielded as a non-terminal event,
    and the loop goes on with the next line. *)
Theorem non_json_line_is_plain_text line rest st e s :
  line ≠ "" →
  json_loads line = inl e →
  is_json_decode_error e = true →
  decode_utf8 line = inr s →
  (∀ cb, callback = Some cb → cb (calls st) (PStr s) = None) →
  terminal (mk_event (PStr s) (PStr "") (PStr "") (PBool false)) = false ∧
  for_lines' (line :: rest) st =
  for_lines' rest
    (GenState (buffer st ++ [PStr s])
       (yielded st ++ [mk_event (PStr s) (PStr "") (PStr "") (PBool false)])
       (calls st ++ match callback with Some _ => [PStr s] | None => [] end)).
Proof.
  intros Hne Hl He Hd Hcb. split; [done|].
  simpl. unfold_monad. unfold handle_line.
  destruct (String.eqb_spec line ""); [done|].
  unfold try_except, try_json, plain_text. unfold_monad.
  rewrite Hl. simpl. rewrite He, Hd. simpl.
  unfold invoke_callback. destruct callback as [cb|]; simpl.
  - rewrite (Hcb cb eq_refl). simpl. reflexivity.
  - rewrite app_nil_r. reflexivity.
Qed.


(** C10.  An empty line is skipped: with or without it the generator yields
    the same events, invokes the callback with the same arguments and ends
    in the same state, so the line adds nothing to the terminal text. *)
Theorem empty_line_is_skipped pre post fault :
  stream_events json_loads decode_utf8 py_repr callback (pre ++ "" :: post) fault =
    stream_events json_loads decode_utf8 py_repr callback (pre ++ post) fault ∧
  stream_calls json_loads decode_utf8 py_repr callback (pre ++ "" :: post) fault =
    stream_calls json_loads decode_utf8 py_repr callback (pre ++ post) fault ∧
  run_stream json_loads decode_utf8 py_repr callback (pre ++ "" :: post) fault =
    run_stream json_loads decode_utf8 py_repr callback (pre ++ post) fault.
Proof.
  assert (run_stream' (pre ++ "" :: post) fault = run_stream' (pre ++ post) fault) as H.
  { rewrite !run_stream_eq, !iterate_eq, !for_lines_app.
    destruct (for_lines' pre gen_init) as [[e|[]] st]; [done|].
    reflexivity. }
  unfold stream_events, stream_calls. by rewrite H.
Qed.

End StreamingTheorems.

(** ** Facts about the client *)

Lemma truthy_dict_lookup (d : gmap string pyval) k v :
  d !! k = Some v → truthy (PDict d) = true.
Proof.
  intros H. simpl. destruct (map_to_list d) as [|kv l] eqn:E; [|done].
  apply map_to_list_empty_iff in E. subst d. by rewrite lookup_empty in H.
Qed.

Lemma falsy_dict_empty (d : gmap string pyval) :
  truthy (PDict d) = false → d = ∅.
Proof.
  simpl. destruct (map_to_list d) as [|kv l] eqn:E; [|done].
  intros _. by apply map_to_list_empty_iff.
Qed.

Lemma py_min_idempotent v z m : py_min v z = inr m → py_min m z = inr m.
Proof.
  unfold py_min. destruct (int_lt z v) as [e|[|]] eqn:E; intros [= <-].
  - simpl. by rewrite Z.ltb_irrefl.
  - by rewrite E.
Qed.

Lemma py_min_int n z : py_min (PInt n) z = inr (PInt (Z.min n z)).
Proof.
  unfold py_min. simpl. destruct (Z.ltb_spec z n); do 2 f_equal; lia.
Qed.

Lemma py_min_exceeding v z : int_lt z v = inr true → py_min v z = inr (PInt z).
Proof. unfold py_min. by intros ->. Qed.

Lemma int_lt_irrefl z v : int_lt z v = inr true → v ≠ PInt z.
Proof. intros H ->. simpl in H. rewrite Z.ltb_irrefl in H. discriminate. Qed.

Lemma retrying_returns {A} n k (f : M world A) w a w' :
  f w = (inr a, w') → retrying n k f w = (inr a, w').
Proof. intros H. destruct n; simpl; by rewrite H. Qed.

(** A call whose every attempt posts one request satisfying [P] and leaves
    the store at [h1]: the decorated call posts at least one request, all
    satisfying [P], and leaves the store at [h1]. *)
Lemma retrying_posts {A} (J : gmap loc (gmap string pyval) → Prop)
    (P : request → Prop) h1 (f : M world A) :
  J h1 →
  (∀ w, J (heap w) →
     ∃ r rq, f w = (r, World h1 (sent w ++ [rq]) (slept w)) ∧ P rq) →
  ∀ n k w, J (heap w) →
    ∃ r rqs sl, retrying n k f w = (r, World h1 (sent w ++ rqs) (slept w ++ sl)) ∧
                rqs ≠ [] ∧ Forall P rqs.
Proof.
  intros J1 Hf. induction n as [|n IH]; intros k w Jw.
  - destruct (Hf w Jw) as (r & rq & E & Prq). simpl. rewrite E.
    destruct r as [e|a]; eexists _, [rq], []; rewrite app_nil_r;
      (split; [done|]); (split; [done|by constructor]).
  - destruct (Hf w Jw) as (r & rq & E & Prq). simpl. rewrite E.
    destruct r as [e|a].
    + unfold_monad. unfold sleep. simpl.
      destruct (IH (S k) (World h1 (sent w ++ [rq])
                      (slept w ++ [wait_exponential k])) J1)
        as (r' & rqs & sl & E' & _ & F).
      simpl in E'. rewrite E'.
      exists r', (rq :: rqs), (wait_exponential k :: sl).
      rewrite <- !app_assoc. simpl. split; [done|]. split; [done|].
      by constructor.
    + eexists _, [rq], []. rewrite app_nil_r.
      split; [done|]. split; [done|by constructor].
Qed.

(** What a decorated call returns, one of its attempts returned. *)
Lemma retrying_result {A} n k (f : M world A) w v w' :
  retrying n k f w = (inr v, w') → ∃ w0, f w0 = (inr v, w').
Proof.
  revert k w. induction n as [|n IH]; intros k w; simpl.
  - destruct (f w) as [[e|a] w1] eqn:E; [done|]. intros [= <- <-]. by exists w.
  - destruct (f w) as [[e|a] w1] eqn:E.
    + unfold_monad. unfold sleep. simpl. apply IH.
    + intros [= <- <-]. by exists w.
Qed.

Lemma error_event_terminal msg :
  terminal (error_event msg) = true ∧ error_event msg !! "done" = None.
Proof.
  split; [|done]. unfold terminal, is_error.
  rewrite bool_decide_eq_true_2; [apply orb_true_r|]. by eexists.
Qed.

Section ClientFacts.

Variable network : nat → request → exn + response.
Variable py_repr : pyval → string.
Variable self : OllamaClient.

Local Abbreviation url' := (base_url self +:+ "/api/generate").
Local Abbreviation exchange' := (exchange network py_repr self).
Local Abbreviation apply_options' := (apply_options self).
Local Abbreviation generate_body' := (generate_body network py_repr self).
Local Abbreviation generate' := (generate network py_repr self).

(** An exchange posts exactly one request and does not touch the store. *)
Lemma exchange_posts model stream data w :
  ∃ r, exchange' model stream data w =
       (r, World (heap w) (sent w ++ [Request url' data stream (timeout self)])
             (slept w)).
Proof.
  unfold exchange, requests_post, raise_for_status, parse_reply.
  unfold_monad. simpl.
  destruct (network _ _) as [e|r]; simpl.
  { destruct (is_request_exception e); [destruct (is_timeout e)|]; eauto. }
  repeat case_bool_decide; simpl;
    try (destruct stream; simpl);
    try (destruct (json_result r) as [e|[]]; simpl);
    repeat match goal with
      | |- context [if ?b then _ else _] => destruct b; simpl
      end; eauto.
Qed.

Lemma apply_options_clamps l opts requested m data w :
  heap w !! l = Some opts →
  opts !! "max_tokens" = Some requested →
  py_min requested (context_window self) = inr m →
  apply_options' (Some l) data w =
  (inr (<["max_tokens" := m]> opts ∪ data),
   World (<[l := <["max_tokens" := m]> opts]> (heap w)) (sent w) (slept w)).
Proof.
  intros Hl Hmt Hmin. unfold apply_options, read_dict, write_dict.
  unfold_monad. simpl. rewrite Hl. simpl.
  pose proof (truthy_dict_lookup _ _ _ Hmt) as Ht. simpl in Ht. rewrite Ht.
  rewrite Hmt, Hmin. simpl.
  by rewrite lookup_insert_eq.
Qed.

Lemma apply_options_passes l opts data w :
  heap w !! l = Some opts →
  opts !! "max_tokens" = None →
  apply_options' (Some l) data w = (inr (opts ∪ data), w).
Proof.
  intros Hl Hmt. unfold apply_options, read_dict, write_dict.
  unfold_monad. simpl. rewrite Hl. simpl.
  destruct (match map_to_list opts with [] => false | _ :: _ => true end) eqn:E.
  - rewrite Hmt. simpl. rewrite Hl. simpl. by destruct w.
  - apply (falsy_dict_empty opts) in E. subst opts. by rewrite (left_id_L ∅ (∪)).
Qed.

Lemma generate_body_clamps model prompt l stream opts requested m w :
  heap w !! l = Some opts →
  opts !! "max_tokens" = Some requested →
  py_min requested (context_window self) = inr m →
  ∃ r, generate_body' model prompt (Some l) stream w =
       (r, World (<[l := <["max_tokens" := m]> opts]> (heap w))
             (sent w ++ [Request url'
                           (<["max_tokens" := m]> opts ∪ base_data model prompt stream)
                           stream (timeout self)])
             (slept w)).
Proof.
  intros Hl Hmt Hmin. unfold generate_body. unfold_monad.
  rewrite (apply_options_clamps _ _ _ _ _ _ Hl Hmt Hmin).
  destruct (exchange_posts model stream
              (<["max_tokens" := m]> opts ∪ base_data model prompt stream)
              (World (<[l := <["max_tokens" := m]> opts]> (heap w)) (sent w) (slept w)))
    as (r & E).
  exists r. exact E.
Qed.

Lemma generate_body_passes model prompt l stream opts w :
  heap w !! l = Some opts →
  opts !! "max_tokens" = None →
  ∃ r, generate_body' model prompt (Some l) stream w =
       (r, World (heap w)
             (sent w ++ [Request url' (opts ∪ base_data model prompt stream)
                           stream (timeout self)])
             (slept w)).
Proof.
  intros Hl Hmt. unfold generate_body. unfold_monad.
  rewrite (apply_options_passes _ _ _ _ Hl Hmt).
  destruct (exchange_posts model stream (opts ∪ base_data model prompt stream) w)
    as (r & E).
  exists r. exact E.
Qed.

(** The decorated call, on options with a [max_tokens] entry the clamp
    accepts. *)
Lemma generate_clamps model prompt l stream opts requested m w :
  heap w !! l = Some opts →
  opts !! "max_tokens" = Some requested →
  py_min requested (context_window self) = inr m →
  ∃ r rqs sl,
    generate' model prompt (Some l) stream w =
      (r, World (<[l := <["max_tokens" := m]> opts]> (heap w))
            (sent w ++ rqs) (slept w ++ sl)) ∧
    rqs ≠ [] ∧
    Forall (λ rq, req_json rq =
                  <["max_tokens" := m]> opts ∪ base_data model prompt stream) rqs.
Proof.
  intros Hl Hmt Hmin. unfold generate, retry.
  set (h0 := heap w). set (h1 := <[l := <["max_tokens" := m]> opts]> h0).
  apply (retrying_posts (λ h, h = h0 ∨ h = h1)); [by right| |by left].
  intros w0 [Hw|Hw].
  - destruct (generate_body_clamps model prompt l stream opts requested m w0)
      as (r & E); [by rewrite Hw|done|done|].
    rewrite Hw in E. eauto.
  - assert (heap w0 !! l = Some (<["max_tokens" := m]> opts)) as Hl1.
    { rewrite Hw. unfold h1. by rewrite lookup_insert_eq. }
    destruct (generate_body_clamps model prompt l stream
                (<["max_tokens" := m]> opts) m m w0) as (r & E);
      [done|by rewrite lookup_insert_eq|by eapply py_min_idempotent|].
    rewrite insert_insert_eq in E. rewrite Hw in E. unfold h1 in E.
    rewrite insert_insert_eq in E. eauto.
Qed.

Lemma generate_passes model prompt l stream opts w :
  heap w !! l = Some opts →
  opts !! "max_tokens" = None →
  ∃ r rqs sl,
    generate' model prompt (Some l) stream w =
      (r, World (heap w) (sent w ++ rqs) (slept w ++ sl)) ∧
    rqs ≠ [] ∧
    Forall (λ rq, req_json rq = opts ∪ base_data model prompt stream) rqs.
Proof.
  intros Hl Hmt. unfold generate, retry.
  apply (retrying_posts (λ h, h = heap w)); [done| |done].
  intros w0 Hw.
  destruct (generate_body_passes model prompt l stream opts w0) as (r & E);
    [by rewrite Hw|done|].
  rewrite Hw in E. eauto.
Qed.

(** C4.  When the options hold a [max_tokens] entry, every request the call
    posts (it posts at least one) carries [min(requested, context_window)]
    as its [max_tokens]; for an integer request that is the smaller of the
    two numbers, so with a context window of 4096 a request of 9000 becomes
    4096 and a request of 2000 stays 2000.  Options without a [max_tokens]
    entry are posted as they are, and the caller's dictionary is left
    alone. *)
Theorem generate_clamps_max_tokens model prompt l stream opts w :
  heap w !! l = Some opts →
  (∀ requested m,
     opts !! "max_tokens" = Some requested →
     py_min requested (context_window self) = inr m →
     ∃ rqs, sent (generate' model prompt (Some l) stream w).2 = sent w ++ rqs ∧
            rqs ≠ [] ∧
            Forall (λ rq, req_json rq !! "max_tokens" = Some m) rqs) ∧
  (∀ n : Z, py_min (PInt n) (context_window self) =
            inr (PInt (Z.min n (context_window self)))) ∧
  py_min (PInt 9000) 4096 = inr (PInt 4096) ∧
  py_min (PInt 2000) 4096 = inr (PInt 2000) ∧
  (opts !! "max_tokens" = None →
     ∃ rqs, sent (generate' model prompt (Some l) stream w).2 = sent w ++ rqs ∧
            rqs ≠ [] ∧
            Forall (λ rq, ∀ k v, opts !! k = Some v → req_json rq !! k = Some v) rqs ∧
            heap (generate' model prompt (Some l) stream w).2 = heap w).
Proof.
  intros Hl. split; [|split; [|split; [|split]]].
  - intros requested m Hmt Hmin.
    destruct (generate_clamps model prompt l stream opts requested m w Hl Hmt Hmin)
      as (r & rqs & sl & E & Hne & F).
    exists rqs. rewrite E. simpl. split; [done|]. split; [done|].
    eapply Forall_impl; [exact F|]. intros rq ->.
    apply lookup_union_Some_l. by rewrite lookup_insert_eq.
  - intros n. apply py_min_int.
  - reflexivity.
  - reflexivity.
  - intros Hmt.
    destruct (generate_passes model prompt l stream opts w Hl Hmt)
      as (r & rqs & sl & E & Hne & F).
    exists rqs. rewrite E. simpl. split; [done|]. split; [done|]. split; [|done].
    eapply Forall_impl; [exact F|]. intros rq -> k v Hk.
    by apply lookup_union_Some_l.
Qed.

(** C9.  When the caller's options dictionary holds a [max_tokens] above the
    context window, the call writes the clamp into that very dictionary:
    after the call the caller's dictionary holds the context window as its
    [max_tokens], which is not the value passed in. *)
Theorem generate_mutates_caller_options model prompt l stream opts requested w :
  heap w !! l = Some opts →
  opts !! "max_tokens" = Some requested →
  int_lt (context_window self) requested = inr true →
  heap (generate' model prompt (Some l) stream w).2 !! l =
    Some (<["max_tokens" := PInt (context_window self)]> opts) ∧
  <["max_tokens" := PInt (context_window self)]> opts !! "max_tokens" =
    Some (PInt (context_window self)) ∧
  requested ≠ PInt (context_window self).
Proof.
  intros Hl Hmt Hlt.
  destruct (generate_clamps model prompt l stream opts requested
              (PInt (context_window self)) w Hl Hmt (py_min_exceeding _ _ Hlt))
    as (r & rqs & sl & E & _ & _).
  rewrite E. simpl. split; [by rewrite lookup_insert_eq|].
  split; [by rewrite lookup_insert_eq|]. by apply int_lt_irrefl.
Qed.

Lemma apply_options_accepted options data w :
  options_accepted self w options →
  ∃ data' h, apply_options' options data w =
             (inr data', World h (sent w) (slept w)).
Proof.
  intros Hok. destruct options as [l|]; [|destruct w; by eexists _, _].
  destruct (heap w !! l) as [opts|] eqn:Hl.
  - destruct (opts !! "max_tokens") as [requested|] eqn:Hmt.
    + destruct (Hok l opts requested eq_refl Hl Hmt) as (m & Hmin).
      rewrite (apply_options_clamps l opts requested m data w Hl Hmt Hmin).
      by eexists _, _.
    + rewrite (apply_options_passes l opts data w Hl Hmt).
      destruct w. by eexists _, _.
  - unfold apply_options, read_dict. unfold_monad. simpl. rewrite Hl. simpl.
    destruct w. by eexists _, _.
Qed.

(** Once the clamp has run, the options stay accepted. *)
Lemma apply_options_stays_accepted options data w data' h s sl :
  options_accepted self w options →
  apply_options' options data w = (inr data', World h (sent w) (slept w)) →
  options_accepted self (World h s sl) options.
Proof.
  intros Hok Ha. destruct options as [l|]; [|by intros ? ? ? [=]].
  destruct (heap w !! l) as [opts|] eqn:Hl.
  - destruct (opts !! "max_tokens") as [requested|] eqn:Hmt.
    + destruct (Hok l opts requested eq_refl Hl Hmt) as (m & Hmin).
      rewrite (apply_options_clamps l opts requested m data w Hl Hmt Hmin) in Ha.
      injection Ha as _ <-.
      intros l' opts' requested' [= <-]. simpl. rewrite lookup_insert_eq.
      intros [= <-]. rewrite lookup_insert_eq. intros [= <-].
      exists m. by eapply py_min_idempotent.
    + rewrite (apply_options_passes l opts data w Hl Hmt) in Ha.
      injection Ha as _ Hw. intros l' opts' requested' Hl'. simpl.
      assert (h = heap w) as -> by (by rewrite Hw). by apply Hok.
  - revert Ha. unfold apply_options, read_dict. unfold_monad. simpl.
    rewrite Hl. simpl. rewrite map_to_list_empty. intros [= _ Hw].
    intros l' opts' requested' Hl'. simpl.
    assert (h = heap w) as -> by (by rewrite Hw). by apply Hok.
Qed.

(** One attempt of a non-streaming call whose reply has a body that cannot
    be read: the exception of [json()] is raised. *)
Lemma generate_body_unreadable model prompt options w r e :
  options_accepted self w options →
  (∀ rq, network (length (sent w)) rq = inr r) →
  ¬ (400 ≤ status_code r < 600) →
  json_result r = inl e →
  is_json_decode_error e = false → is_request_exception e = false →
  ∃ h rq,
    generate_body' model prompt options false w =
      (inl e, World h (sent w ++ [rq]) (slept w)) ∧
    ∀ s sl, options_accepted self (World h s sl) options.
Proof.
  intros Hok Hnet Hst Hj Hd Hr.
  destruct (apply_options_accepted options (base_data model prompt false) w Hok)
    as (data & h & Ha).
  exists h, (Request url' data false (timeout self)). split.
  - unfold generate_body. unfold_monad. rewrite Ha.
    unfold exchange, requests_post, raise_for_status, parse_reply. unfold_monad.
    simpl. rewrite Hnet. simpl.
    rewrite bool_decide_eq_false_2 by lia.
    rewrite bool_decide_eq_false_2 by lia.
    simpl. rewrite Hj. simpl. rewrite Hd. simpl. by rewrite Hr.
  - intros s sl. by eapply apply_options_stays_accepted.
Qed.

(** C5 (amended).  A non-streaming call with accepted options whose request
    is answered with a status that is no error returns, after one request
    and no wait, exactly one dictionary whenever the body is JSON or reading
    it raises [JSONDecodeError] or a [RequestException].  For a body that is
    a JSON string it carries that string, for any other JSON value that is
    no object its [str], for a body that is no JSON the raw text, all with
    the requested model, an empty [created_at] and [done] set to [True]; for
    a JSON object it carries the object's [response], [model], [created_at]
    and [done] fields (defaults: the empty string, the requested model, the
    empty string, [True]), so it is terminal exactly when the object's own
    [done] field is truthy or absent.  When reading the body raises a
    [RequestException] the error dictionary is returned.  When reading the
    body raises anything else nothing is returned: the decorator repeats the
    call, three requests with two waits of 4 seconds, and raises
    [RetryError]. *)
Theorem non_streaming_reply model prompt options w r :
  options_accepted self w options →
  (∀ rq, network (length (sent w)) rq = inr r) →
  ¬ (400 ≤ status_code r < 600) →
  ∃ w',
    length (sent w') = S (length (sent w)) ∧ slept w' = slept w ∧
    (∀ s, json_result r = inr (PStr s) →
       generate' model prompt options false w =
         (inr (RDict (mk_event (PStr s) (PStr model) (PStr "") (PBool true))), w')) ∧
    (∀ d, json_result r = inr (PDict d) →
       generate' model prompt options false w =
         (inr (RDict (mk_event (dict_get d "response" (PStr ""))
                               (dict_get d "model" (PStr model))
                               (dict_get d "created_at" (PStr ""))
                               (dict_get d "done" (PBool true)))), w')) ∧
    (∀ e, json_result r = inl e → is_json_decode_error e = true →
       generate' model prompt options false w =
         (inr (RDict (mk_event (PStr (text r)) (PStr model) (PStr "") (PBool true))),
          w')) ∧
    (∀ x m c, terminal (mk_event x m c (PBool true)) = true) ∧
    (∀ x m c d, terminal (mk_event x m c d) = truthy d) ∧
    (∀ v, json_result r = inr v → (∀ s, v ≠ PStr s) → (∀ d, v ≠ PDict d) →
       generate' model prompt options false w =
         (inr (RDict (mk_event (PStr (py_str py_repr v)) (PStr model) (PStr "")
                               (PBool true))), w')) ∧
    (∀ e, json_result r = inl e → is_json_decode_error e = false →
       is_request_exception e = true →
       generate' model prompt options false w =
         (inr (RDict (error_event
                        (if is_timeout e then "Request timed out" else str_exn e))),
          w')) ∧
    (∀ e, json_result r = inl e → is_json_decode_error e = false →
       is_request_exception e = false →
       (∀ n rq, network n rq = inr r) →
       ∃ raised w'',
         generate' model prompt options false w = (inl raised, w'') ∧
         exn_cls raised = RetryError ∧
         length (sent w'') = (3 + length (sent w))%nat ∧
         slept w'' = slept w ++ [4; 4]).
Proof.
  intros Hok Hnet Hst.
  destruct (apply_options_accepted options (base_data model prompt false) w Hok)
    as (data & h & Ha).
  exists (World h (sent w ++ [Request url' data false (timeout self)]) (slept w)).
  split; [simpl; rewrite length_app; simpl; lia|]. split; [done|].
  assert (∀ v,
    try_except (parse_reply py_repr model r) is_request_exception
      (λ e, if is_timeout e
            then mret (RDict (error_event "Request timed out"))
            else mret (RDict (error_event (str_exn e))))
      (World h (sent w ++ [Request url' data false (timeout self)]) (slept w)) =
    (inr v,
     World h (sent w ++ [Request url' data false (timeout self)]) (slept w)) →
    generate' model prompt options false w =
    (inr v,
     World h (sent w ++ [Request url' data false (timeout self)]) (slept w)))
    as Hgen.
  { intros v Hp. unfold generate, retry. apply retrying_returns.
    unfold generate_body. unfold_monad. rewrite Ha.
    revert Hp. unfold exchange, requests_post, raise_for_status, try_except.
    unfold_monad. simpl.
    rewrite Hnet. simpl.
    rewrite bool_decide_eq_false_2 by lia.
    rewrite bool_decide_eq_false_2 by lia.
    simpl. done. }
  split; [|split; [|split; [|split; [|split; [|split; [|split]]]]]].
  - intros s Hj. apply Hgen. unfold try_except, parse_reply. unfold_monad.
    by rewrite Hj.
  - intros d Hj. apply Hgen. unfold try_except, parse_reply. unfold_monad.
    by rewrite Hj.
  - intros e Hj He. apply Hgen. unfold try_except, parse_reply. unfold_monad.
    rewrite Hj. simpl. by rewrite He.
  - reflexivity.
  - intros x m c d. unfold terminal. rewrite mk_event_is_done, mk_event_no_error.
    apply orb_false_r.
  - intros v Hj Hs Hd. apply Hgen. unfold try_except, parse_reply. unfold_monad.
    rewrite Hj. simpl.
    destruct v as [| | | |s| |d]; try done;
      first [by destruct (Hs s)|by destruct (Hd d)].
  - intros e Hj Hd Hr. apply Hgen. unfold try_except, parse_reply. unfold_monad.
    rewrite Hj. simpl. rewrite Hd. simpl. rewrite Hr. by destruct (is_timeout e).
  - intros e Hj Hd Hr Hall.
    destruct (generate_body_unreadable model prompt options w r e Hok Hnet Hst Hj Hd Hr)
      as (h1 & rq1 & E1 & Hok1).
    destruct (generate_body_unreadable model prompt options
                (World h1 (sent w ++ [rq1]) (slept w ++ [wait_exponential 1])) r e
                (Hok1 _ _) (λ rq, Hall _ rq) Hst Hj Hd Hr)
      as (h2 & rq2 & E2 & Hok2).
    destruct (generate_body_unreadable model prompt options
                (World h2 ((sent w ++ [rq1]) ++ [rq2])
                   ((slept w ++ [wait_exponential 1]) ++ [wait_exponential 2])) r e
                (Hok2 _ _) (λ rq, Hall _ rq) Hst Hj Hd Hr)
      as (h3 & rq3 & E3 & Hok3).
    simpl in E2, E3.
    eexists (Exn RetryError "RetryError"), _. split.
    + unfold generate, retry. simpl. unfold_monad. unfold sleep.
      rewrite E1. simpl. rewrite E2. simpl. rewrite E3. reflexivity.
    + split; [done|]. simpl. rewrite !length_app. simpl.
      split; [lia|]. by rewrite <- app_assoc.
Qed.

Lemma generate_returns_on_transport_failure model prompt stream w e :
  (∀ rq, network (length (sent w)) rq = inl e) →
  is_request_exception e = true →
  generate' model prompt None stream w =
  (inr (RDict (error_event (if is_timeout e then "Request timed out" else str_exn e))),
   World (heap w)
     (sent w ++ [Request url' (base_data model prompt stream) stream (timeout self)])
     (slept w)).
Proof.
  intros Hnet He. unfold generate, retry. apply retrying_returns.
  unfold generate_body, apply_options, exchange, requests_post. unfold_monad.
  simpl. rewrite Hnet. simpl. rewrite He. by destruct (is_timeout e).
Qed.

(** What a streaming exchange returns: the generator over the reply, or the
    error dictionary. *)
Lemma exchange_streaming model data w v w' :
  exchange' model true data w = (inr v, w') →
  ∃ n rq,
    (∃ r, v = RGenerator r ∧ network n rq = inr r ∧ ¬ (400 ≤ status_code r < 600)) ∨
    (∃ msg, v = RDict (error_event msg) ∧
            ((∃ e, network n rq = inl e ∧ is_request_exception e = true) ∨
             (∃ r, network n rq = inr r ∧ 400 ≤ status_code r < 600))).
Proof.
  unfold exchange, requests_post, raise_for_status, try_except. unfold_monad. simpl.
  intros H. exists (length (sent w)), (Request url' data true (timeout self)).
  revert H.
  destruct (network _ _) as [e|r]; simpl.
  { destruct (is_request_exception e) eqn:He; [|done].
    destruct (is_timeout e); intros [= <- _]; right; eexists; (split; [done|]);
      left; by exists e. }
  repeat case_bool_decide; simpl; intros [= <- _].
  - right. eexists. split; [done|]. right. exists r. split; [done|]. lia.
  - right. eexists. split; [done|]. right. exists r. split; [done|]. lia.
  - left. exists r. split; [done|]. split; [done|]. lia.
Qed.

(** C2 (amended).  What the caller of a streaming [generate] call that
    returns gets is one of two things.  It is the error dictionary alone
    (the request raised a [RequestException] or was answered with an error
    status): one error event, terminal, without a [done] entry.  Or it is
    the events of the generator: per-line events followed by exactly one
    final event whose [done] is [True] (the final chunk or the error event),
    with nothing after it.  The per-line events come from the first
    non-empty lines of the stream, one from each and in their order; a
    per-line event is never an error event, and it is marked done only when
    its own line is a JSON object with a truthy [done] field, which the
    handler echoes.  So when no line carries a truthy [done] flag, the
    events are non-terminal events followed by exactly one terminal event. *)
Theorem stream_events_ordering json_loads decode_utf8 callback model prompt options
    w v w' :
  generate' model prompt options true w = (inr v, w') →
  ∃ partial final,
    generate_events json_loads decode_utf8 py_repr callback v = partial ++ [final] ∧
    terminal final = true ∧
    match v with
    | RDict d =>
        partial = [] ∧ is_error final = true ∧ final !! "done" = None ∧
        (∃ msg, d = error_event msg) ∧
        ∃ n rq, (∃ e, network n rq = inl e ∧ is_request_exception e = true) ∨
                (∃ r, network n rq = inr r ∧ 400 ≤ status_code r < 600)
    | RGenerator r =>
        final !! "done" = Some (PBool true) ∧
        line_by_line json_loads (lines r) partial ∧
        ∃ n rq, network n rq = inr r ∧ ¬ (400 ≤ status_code r < 600)
    end ∧
    ((∀ r line d, v = RGenerator r → line ∈ lines r →
        json_loads line = inr (PDict d) →
        truthy (dict_get d "done" (PBool false)) = false) →
     ordering_invariant
       (generate_events json_loads decode_utf8 py_repr callback v) = true).
Proof.
  intros H. unfold generate, retry in H. apply retrying_result in H as (w0 & H).
  revert H. unfold generate_body. unfold_monad.
  destruct (apply_options' options (base_data model prompt true) w0)
    as [[e|data] w1]; [done|].
  intros (n & rq & [(r & -> & Hr & Hst)|(msg & -> & Hwhy)])%exchange_streaming.
  - destruct (handler_events_ordering json_loads decode_utf8 py_repr callback
                (lines r) (fault r))
      as (partial & final & E & Hd & Ht & Hl & Hord).
    exists partial, final. simpl. split; [done|]. split; [done|].
    split; [split; [done|]; split; [done|]; by exists n, rq|].
    intros Hno. apply Hord. intros line d. by apply (Hno r).
  - destruct (error_event_terminal msg) as [Ht Hd].
    exists [], (error_event msg). simpl. split; [done|]. split; [done|].
    split; [|intros _; unfold ordering_invariant; simpl; by rewrite Ht].
    split; [done|]. split; [|split; [done|split; [by exists msg|by exists n, rq]]].
    unfold is_error. rewrite bool_decide_eq_true_2; [done|]. by eexists.
Qed.

End ClientFacts.


(** ** Facts about the pipeline *)

Section PipelineFacts.

Import Pipeline.
Local Open Scope nat_scope.

Variable reply : nat → string → string + string.
Variable fetch : string → nat → list SourceRecord.
Variable parse_plan : string → option (list string).
Variable plan_prompt : string → ResearchConfig → string.
Variable refine_prompt : ResearchArea → string.
Variable summary_prompt : ResearchArea → string.
Variable aggregate_prompt : string → list ResearchArea → string.
Variable cfg : ResearchConfig.

Local Abbreviation ask' := (ask reply).
Local Abbreviation search_iteration' := (search_iteration reply fetch refine_prompt cfg).
Local Abbreviation search_iterations' := (search_iterations reply fetch refine_prompt cfg).
Local Abbreviation search_areas' := (search_areas reply fetch refine_prompt cfg).
Local Abbreviation summarize_area' := (summarize_area reply summary_prompt).
Local Abbreviation summarize_areas' := (summarize_areas reply summary_prompt).
Local Abbreviation stages' :=
  (stages reply fetch parse_plan plan_prompt refine_prompt summary_prompt
          aggregate_prompt cfg).
Local Abbreviation run' :=
  (run reply fetch parse_plan plan_prompt refine_prompt summary_prompt
       aggregate_prompt cfg).

Lemma frac_le j k total : j ≤ k → (frac j total <= frac k total)%Q.
Proof. intros H. unfold frac, Qle. simpl. nia. Qed.

Lemma frac_one j total : 1 ≤ total → (frac j total == 1)%Q ↔ j = total.
Proof.
  intros H. unfold frac, Qeq. simpl.
  assert (Z.pos (Pos.of_nat total) = Z.of_nat total) as ->.
  { rewrite <- positive_nat_Z, Nat2Pos.id; [done|lia]. }
  lia.
Qed.

Lemma steps_refl st : steps st st.
Proof.
  split; [done|]. split; [done|]. exists []. rewrite app_nil_r, Nat.sub_diag.
  by repeat split.
Qed.

Lemma steps_trans st1 st2 st3 : steps st1 st2 → steps st2 st3 → steps st1 st3.
Proof.
  intros (T1 & L1 & new1 & E1 & F1 & G1) (T2 & L2 & new2 & E2 & F2 & G2).
  split; [congruence|]. split; [lia|].
  exists (new1 ++ new2). split; [by rewrite E2, E1, app_assoc|]. split.
  - rewrite fmap_app, F1, F2, T1, <- fmap_app. f_equal.
    replace (done_steps st3 - done_steps st1)
      with ((done_steps st2 - done_steps st1) + (done_steps st3 - done_steps st2))
      by lia.
    rewrite seq_app. do 2 f_equal. lia.
  - by apply Forall_app.
Qed.

Lemma uses_ret {A} (a : A) : uses 0 (mret a).
Proof.
  intros st r st' [= <- <-]. split; [apply steps_refl|]. split; [lia|].
  intros; lia.
Qed.

Lemma uses_raise {A} b e : uses b (raise e : M run_state A).
Proof.
  intros st r st' [= <- <-]. split; [apply steps_refl|]. split; [lia|].
  intros; discriminate.
Qed.

Lemma uses_bind {A B} b1 b2 (m : M run_state A) (k : A → M run_state B) :
  uses b1 m → (∀ a, uses b2 (k a)) → uses (b1 + b2) (m ≫= k).
Proof.
  intros Hm Hk st r st'. unfold_monad.
  destruct (m st) as [[e|a] st1] eqn:E1.
  - intros [= <- <-]. destruct (Hm _ _ _ E1) as (S1 & L1 & _).
    split; [done|]. split; [lia|]. intros; discriminate.
  - intros E2. destruct (Hm _ _ _ E1) as (S1 & L1 & D1).
    destruct (Hk a _ _ _ E2) as (S2 & L2 & D2).
    split; [by eapply steps_trans|]. rewrite (D1 a eq_refl) in *.
    split; [lia|]. intros b ->. rewrite (D2 b eq_refl). lia.
Qed.

Lemma uses_ask prompt : uses 0 (ask' prompt).
Proof.
  intros st r st'. unfold ask.
  destruct (reply (asked st) prompt); intros [= <- <-];
    (split; [|split; [simpl; lia|intros; simpl; lia]]);
    (split; [done|]; split; [done|]; exists []; simpl;
     rewrite app_nil_r, Nat.sub_diag; by repeat split).
Qed.

Lemma uses_advance t msg rep :
  t ≠ Error → t ≠ Complete → uses 1 (advance t msg rep).
Proof.
  intros H1 H2 st r st' [= <- <-]. simpl.
  split; [|split; [lia|intros; lia]].
  split; [done|]. split; [simpl; lia|].
  eexists [_]. simpl. split; [done|].
  replace (S (done_steps st) - done_steps st) with 1 by lia.
  split; [done|]. by repeat constructor.
Qed.

Lemma uses_search_iteration i a : uses 1 (search_iteration' i a).
Proof.
  unfold search_iteration.
  destruct (max_sources cfg <=? length (sources a)).
  - apply (uses_bind 1 0); [by apply uses_advance|]. intros; apply uses_ret.
  - apply (uses_bind 0 1).
    + destruct (i =? 1); [apply uses_ret|apply uses_ask].
    + intros query. apply (uses_bind 1 0); [by apply uses_advance|].
      intros; apply uses_ret.
Qed.

Lemma uses_search_iterations iters a :
  uses (length iters) (search_iterations' iters a).
Proof.
  revert a. induction iters as [|i iters IH]; intros a; simpl.
  - apply uses_ret.
  - apply (uses_bind 1 (length iters)); [apply uses_search_iteration|done].
Qed.

Lemma uses_search_areas areas :
  uses (length areas * search_depth cfg) (search_areas' areas).
Proof.
  induction areas as [|a areas IH]; simpl.
  - apply uses_ret.
  - apply (uses_bind (search_depth cfg) (length areas * search_depth cfg)).
    + pose proof (uses_search_iterations (seq 1 (search_depth cfg)) a) as H.
      by rewrite length_seq in H.
    + intros a'.
      replace (length areas * search_depth cfg)
        with (length areas * search_depth cfg + 0) by lia.
      apply uses_bind; [done|]. intros; apply uses_ret.
Qed.

Lemma search_areas_length areas st found st' :
  search_areas' areas st = (inr found, st') → length found = length areas.
Proof.
  revert st found st'. induction areas as [|a areas IH]; intros st found st'; simpl.
  - by intros [= <- <-].
  - unfold_monad.
    destruct (search_iterations' _ a st) as [[e|a'] st1]; [done|].
    destruct (search_areas' areas st1) as [[e|rest] st2] eqn:E; [done|].
    intros [= <- <-]. simpl. f_equal. by eapply IH.
Qed.

Lemma uses_summarize_area a : uses 1 (summarize_area' a).
Proof.
  unfold summarize_area. apply (uses_bind 0 1); [apply uses_ask|].
  intros txt. destruct (String.eqb txt ""); [apply uses_raise|].
  apply (uses_bind 1 0); [by apply uses_advance|]. intros; apply uses_ret.
Qed.

Lemma uses_summarize_areas areas :
  uses (length areas) (summarize_areas' areas).
Proof.
  induction areas as [|a areas IH]; simpl.
  - apply uses_ret.
  - apply (uses_bind 1 (length areas)); [apply uses_summarize_area|].
    intros a'. replace (length areas) with (length areas + 0) by lia.
    apply uses_bind; [done|]. intros; apply uses_ret.
Qed.

Lemma inv_steps st st' : run_inv st → steps st st' → run_inv st'.
Proof.
  intros (F & G) (T & L & new & E & Fn & Gn). split.
  - rewrite E, fmap_app, F, Fn, T, <- fmap_app. f_equal.
    replace (done_steps st') with (done_steps st + (done_steps st' - done_steps st))
      at 2 by lia.
    by rewrite seq_app.
  - rewrite E. by apply Forall_app.
Qed.

Lemma inv_error st msg :
  run_inv st → 1 ≤ total_steps st → done_steps st < total_steps st →
  well_formed_run (emitted (emit_error msg st).2).
Proof.
  intros (F & G) HT Hk. simpl.
  eexists (emitted st), _, (done_steps st), (total_steps st).
  split; [done|]. split; [done|]. split; [done|]. split; [done|]. by right.
Qed.

Lemma bind_ok {S A B} (m : M S A) (k : A → M S B) st a st' :
  m st = (inr a, st') → (m ≫= k) st = k a st'.
Proof. intros E. unfold_monad. by rewrite E. Qed.

Lemma bind_err {S A B} (m : M S A) (k : A → M S B) st e st' :
  m st = (inl e, st') → (m ≫= k) st = (inl e, st').
Proof. intros E. unfold_monad. by rewrite E. Qed.

Lemma handled_run (m : M run_state unit) st :
  emitted (try_except m (λ _, true) (λ e, emit_error (str_exn e)) st).2 =
  match m st with
  | (inr _, st') => emitted st'
  | (inl e, st') => emitted (emit_error (str_exn e) st').2
  end.
Proof. unfold try_except. by destruct (m st) as [[e|a] st']. Qed.

Lemma use_ok {A} b (m : M run_state A) st a st' :
  uses b m → m st = (inr a, st') → run_inv st →
  run_inv st' ∧ total_steps st' = total_steps st ∧
  done_steps st' = done_steps st + b.
Proof.
  intros U E I. destruct (U _ _ _ E) as (S1 & _ & D).
  split; [by eapply inv_steps|]. split; [by destruct S1|]. by eapply D.
Qed.

Lemma use_err {A} b (m : M run_state A) st e st' :
  uses b m → m st = (inl e, st') → run_inv st →
  run_inv st' ∧ total_steps st' = total_steps st ∧
  done_steps st' ≤ done_steps st + b.
Proof.
  intros U E I. destruct (U _ _ _ E) as (S1 & L & _).
  split; [by eapply inv_steps|]. split; [by destruct S1|done].
Qed.

Lemma run_well_formed topic : well_formed_run (run' topic).
Proof.
  unfold run. rewrite handled_run. unfold stages.
  assert (run_inv run_init) as Inv0 by (split; [done|constructor]).
  destruct (ask' (plan_prompt topic cfg) run_init) as [[e|plan] st1] eqn:E1.
  { rewrite (bind_err _ _ _ _ _ E1).
    destruct (use_err _ _ _ _ _ (uses_ask _) E1 Inv0) as (I1 & T1 & D1).
    simpl in T1, D1. apply inv_error; [done|lia|lia]. }
  rewrite (bind_ok _ _ _ _ _ E1).
  destruct (use_ok _ _ _ _ _ (uses_ask _) E1 Inv0) as (I1 & T1 & D1).
  simpl in T1, D1.
  destruct (parse_plan plan) as [[|name names]|];
    try (unfold raise; apply inv_error; [done|lia|lia]).
  cbv zeta.
  remember (new_area <$> name :: names) as areas eqn:Ha.
  assert (1 ≤ length areas) as Hn by (subst areas; simpl; lia).
  remember (1 + length areas * search_depth cfg + length areas + 1) as T eqn:HT.
  set (st1' := RunState (emitted st1) (done_steps st1) T (asked st1)).
  assert (set_total T st1 = (inr tt, st1')) as E1' by done.
  rewrite (bind_ok _ _ _ _ _ E1').
  assert (run_inv st1') as I1'.
  { destruct I1 as (F & G). split; [|done]. simpl. rewrite F, D1. done. }
  destruct (advance Planning plan None st1') as [[e|[]] st2] eqn:E2; [done|].
  rewrite (bind_ok _ _ _ _ _ E2).
  destruct (use_ok _ _ _ _ _ (uses_advance Planning plan None
              ltac:(done) ltac:(done)) E2 I1') as (I2 & T2 & D2).
  simpl in T2, D2.
  destruct (search_areas' areas st2) as [[e|searched] st3] eqn:E3.
  { rewrite (bind_err _ _ _ _ _ E3).
    destruct (use_err _ _ _ _ _ (uses_search_areas areas) E3 I2) as (I3 & T3 & D3).
    apply inv_error; [done|lia|lia]. }
  rewrite (bind_ok _ _ _ _ _ E3).
  destruct (use_ok _ _ _ _ _ (uses_search_areas areas) E3 I2) as (I3 & T3 & D3).
  pose proof (search_areas_length areas _ _ _ E3) as Hs.
  destruct (summarize_areas' searched st3) as [[e|summarized] st4] eqn:E4.
  { rewrite (bind_err _ _ _ _ _ E4).
    destruct (use_err _ _ _ _ _ (uses_summarize_areas searched) E4 I3)
      as (I4 & T4 & D4).
    apply inv_error; [done|lia|lia]. }
  rewrite (bind_ok _ _ _ _ _ E4).
  destruct (use_ok _ _ _ _ _ (uses_summarize_areas searched) E4 I3)
    as (I4 & T4 & D4).
  destruct (ask' (aggregate_prompt topic summarized) st4) as [[e|final] st5] eqn:E5.
  { rewrite (bind_err _ _ _ _ _ E5).
    destruct (use_err _ _ _ _ _ (uses_ask _) E5 I4) as (I5 & T5 & D5).
    apply inv_error; [done|lia|lia]. }
  rewrite (bind_ok _ _ _ _ _ E5).
  destruct (use_ok _ _ _ _ _ (uses_ask _) E5 I4) as ((F5 & G5) & T5 & D5).
  unfold advance. simpl.
  assert (total_steps st5 = T) as HT5 by lia.
  assert (S (done_steps st5) = T) as Hk by lia.
  eexists (emitted st5), _, (done_steps st5), T.
  split; [done|]. split; [lia|]. rewrite HT5 in F5.
  split; [done|]. split; [done|]. left. simpl. by rewrite HT5, Hk.
Qed.

Lemma steps_nondecreasing k k' :
  k ≤ k' → ∀ i j x y, i ≤ j →
  (seq 1 k ++ [k']) !! i = Some x → (seq 1 k ++ [k']) !! j = Some y → x ≤ y.
Proof.
  intros Hk i j x y Hij Hi Hj.
  apply lookup_app_Some in Hi as [Hi|[Li Hi]];
    apply lookup_app_Some in Hj as [Hj|[Lj Hj]].
  - apply lookup_seq in Hi as [-> _]. apply lookup_seq in Hj as [-> _]. lia.
  - apply lookup_seq in Hi as [-> Hi]. rewrite length_seq in Lj.
    apply list_lookup_singleton_Some in Hj as [_ <-]. lia.
  - rewrite length_seq in Li. apply lookup_seq in Hj as [_ Hj]. lia.
  - apply list_lookup_singleton_Some in Hi as [_ <-].
    apply list_lookup_singleton_Some in Hj as [_ <-]. lia.
Qed.

Lemma well_formed_properties evs :
  well_formed_run evs →
  nondecreasing (fraction <$> evs) ∧
  (reaches_one evs ↔ tag <$> last evs = Some Complete) ∧
  (∀ pre ev suf, evs = pre ++ ev :: suf → tag ev = Error → suf = []).
Proof.
  intros (body & final & k & T & -> & HT & F & G & Hfin).
  assert (∃ k', k ≤ k' ∧ fraction final = frac k' T ∧
                (k' = T ↔ tag final = Complete) ∧ k < T) as (k' & Hk & Hf & Hc & HkT).
  { destruct Hfin as [(Ht & <- & Hf)|(Ht & Hlt & Hf)].
    - exists (S k). rewrite Ht. repeat split; (lia || done).
    - exists k. rewrite Ht. repeat split; (lia || done). }
  split; [|split].
  - rewrite fmap_app, F. simpl. rewrite Hf.
    change ([frac k' T]) with ((λ j, frac j T) <$> [k']). rewrite <- fmap_app.
    intros i j x y Hij Hi Hj.
    rewrite list_lookup_fmap in Hi, Hj.
    destruct ((seq 1 k ++ [k']) !! i) as [a|] eqn:Ea; [|done].
    destruct ((seq 1 k ++ [k']) !! j) as [b|] eqn:Eb; [|done].
    simpl in Hi, Hj. injection Hi as <-. injection Hj as <-.
    apply frac_le. exact (steps_nondecreasing k k' Hk i j a b Hij Ea Eb).
  - rewrite last_snoc. simpl. split.
    + intros (ev & Hin & H1). apply elem_of_app in Hin as [Hin|Hin].
      * apply (list_elem_of_fmap_2 fraction) in Hin. rewrite F in Hin.
        apply list_elem_of_fmap in Hin as (j & Hj & Hin).
        apply elem_of_seq in Hin. rewrite Hj in H1.
        apply frac_one in H1; [lia|done].
      * apply list_elem_of_singleton in Hin as ->. rewrite Hf in H1.
        apply frac_one in H1; [|done]. f_equal. by apply Hc.
    + intros [= Ht]. exists final. split; [apply elem_of_app; right; by left|].
      rewrite Hf. apply frac_one; [done|]. by apply Hc.
  - intros pre ev suf E Ht.
    destruct suf as [|x suf] using rev_ind; [done|].
    rewrite app_comm_cons, app_assoc in E. apply app_inj_tail in E as [-> _].
    rewrite Forall_app, Forall_cons in G. by destruct G as (_ & (? & _) & _).
Qed.

(** C6.  In every run of the pipeline the fractions of the progress events
    never decrease, some event reports the fraction 1 exactly when the last
    event is Complete, and nothing is emitted after an Error event. *)
Theorem pipeline_progress topic :
  nondecreasing (fraction <$> run' topic) ∧
  (reaches_one (run' topic) ↔ tag <$> last (run' topic) = Some Complete) ∧
  (∀ pre ev suf, run' topic = pre ++ ev :: suf → tag ev = Error → suf = []).
Proof. apply well_formed_properties, run_well_formed. Qed.

End PipelineFacts.

(** ** Worked calls *)

(** The end-to-end run of the specification: two areas, depth 1. *)
Example pipeline_end_to_end :
  (Pipeline.tag <$> Stub.run_with Stub.reply =
     [Pipeline.Planning; Pipeline.AreaSearch; Pipeline.AreaSearch;
      Pipeline.AreaSummary; Pipeline.AreaSummary; Pipeline.Complete]) ∧
  (Pipeline.fraction <$> Stub.run_with Stub.reply =
     [1 # 6; 2 # 6; 3 # 6; 4 # 6; 5 # 6; 6 # 6])%Q.
Proof. split; reflexivity. Qed.

(** A failure of the aggregation call: no Complete event, one Error event. *)
Example pipeline_error_propagation :
  (Pipeline.tag <$> Stub.run_with Stub.failing_reply =
     [Pipeline.Planning; Pipeline.AreaSearch; Pipeline.AreaSearch;
      Pipeline.AreaSummary; Pipeline.AreaSummary; Pipeline.Error]) ∧
  (Pipeline.message <$> last (Stub.run_with Stub.failing_reply) =
     Some "connection refused").
Proof. split; reflexivity. Qed.

(** The clamp on numbers that are no integers, and on a value that is no
    number. *)
Example clamp_float : py_min (PFloat 9000.5%float) 4096 = inr (PInt 4096).
Proof. reflexivity. Qed.

Example clamp_float_below : py_min (PFloat 0.5%float) 4096 = inr (PFloat 0.5%float).
Proof. reflexivity. Qed.

Example clamp_string :
  py_min (PStr "many") 4096 =
  inl (Exn TypeError "'<' not supported between instances of 'int' and 'str'").
Proof. reflexivity. Qed.

(** What the decorator does repeat: a call that raises.  With a
    [max_tokens] that is no number the body raises before any request, three
    times, with the two waits in between. *)
Example raising_body_is_retried :
  generate Net.flaky Wire.repr Net.ollama "researcher" "hi" (Some Net.caller) false
           (Net.world_with {["max_tokens" := PStr "many"]}) =
    (inl (Exn RetryError "RetryError"),
     World {[Net.caller := {["max_tokens" := PStr "many"]}]} [] [4; 4]).
Proof. reflexivity. Qed.

(** C1.  The decorated call is not retried on a transport failure: with a
    transport that times out twice and would answer the third time,
    [generate] returns the error dictionary after the first request, without
    any wait, although the body run as a third attempt returns the reply. *)
Theorem transport_failure_is_not_retried :
  generate Net.flaky Wire.repr Net.ollama "researcher" "hi" None false
           Net.empty_world =
    (inr (RDict (error_event "Request timed out")),
     World ∅ [Net.the_request false] []) ∧
  generate_body Net.flaky Wire.repr Net.ollama "researcher" "hi" None false
                (World ∅ [Net.the_request false; Net.the_request false] []) =
    (inr (RDict (mk_event (PStr "hi there") (PStr "researcher")
                          (PStr "2024-11-20T10:00:00Z") (PBool true))),
     World ∅ [Net.the_request false; Net.the_request false; Net.the_request false]
           []).
Proof. split; reflexivity. Qed.

(** C2, as stated, fails: a wire line that reports [done] yields a per-line
    event that is terminal, and the final chunk follows it. *)
Lemma ordering_fails_on_wire_done_flag :
  Wire.events [Wire.line_a_done] None =
    [ mk_event (PStr "a") (PStr "") (PStr "") (PBool true);
      mk_event (PStr "a") (PStr "") (PStr "") (PBool true) ] ∧
  ordering_invariant (Wire.events [Wire.line_a_done] None) = false.
Proof. split; reflexivity. Qed.

(** A reply streamed in two lines: two per-line events, each from its own
    line, and the final chunk. *)
Lemma stream_events_ordering_witness :
  ∃ partial final,
    generate_events Wire.loads Wire.decode Wire.repr None (RGenerator Net.streamed) =
      partial ++ [final] ∧
    terminal final = true ∧
    (final !! "done" = Some (PBool true) ∧
     line_by_line Wire.loads (lines Net.streamed) partial ∧
     ∃ n rq, Net.always Net.streamed n rq = inr Net.streamed ∧
             ¬ (400 ≤ status_code Net.streamed < 600)) ∧
    ((∀ r line d, RGenerator Net.streamed = RGenerator r → line ∈ lines r →
        Wire.loads line = inr (PDict d) →
        truthy (dict_get d "done" (PBool false)) = false) →
     ordering_invariant
       (generate_events Wire.loads Wire.decode Wire.repr None
          (RGenerator Net.streamed)) = true).
Proof.
  exact (stream_events_ordering (Net.always Net.streamed) Wire.repr Net.ollama
           Wire.loads Wire.decode None "researcher" "hi" None Net.empty_world
           (RGenerator Net.streamed) _ eq_refl).
Defined.



(** C7, as stated, fails: [json.loads] raises [JSONDecodeError] on the
    first line, whose octets are not UTF-8; the stream ends with the error
    event, the text of the first line is never yielded and the second line
    is never read, although alone it is yielded as text.  A callback that
    raises on the text of a line ends the stream the same way. *)
Lemma undecodable_line_aborts_stream :
  Wire.loads Wire.line_utf16 =
    inl (Exn JSONDecodeError "Expecting value: line 1 column 1 (char 0)") ∧
  Wire.events [Wire.line_utf16; Wire.line_hello] None =
    [ stream_error_event (Exn UnicodeDecodeError
        "'utf-8' codec can't decode byte 0xff in position 0: invalid start byte") ] ∧
  Wire.events [Wire.line_hello] None =
    [ mk_event (PStr "hello") (PStr "") (PStr "") (PBool false);
      mk_event (PStr "hello") (PStr "") (PStr "") (PBool true) ] ∧
  stream_events Wire.loads Wire.decode Wire.repr (Some Wire.raising)
    [Wire.line_hello; Wire.line_a] None =
    [ stream_error_event (Exn OtherException "callback failed") ].
Proof. repeat split; reflexivity. Qed.

(** The line [hello] is no JSON: it is yielded as text and the loop goes on. *)
Lemma non_json_line_is_plain_text_witness :
  terminal (mk_event (PStr "hello") (PStr "") (PStr "") (PBool false)) = false ∧
  for_lines Wire.loads Wire.decode Wire.repr None [Wire.line_hello; Wire.line_a]
            gen_init =
  for_lines Wire.loads Wire.decode Wire.repr None [Wire.line_a]
    (GenState [PStr "hello"]
       [mk_event (PStr "hello") (PStr "") (PStr "") (PBool false)] []).
Proof.
  apply (non_json_line_is_plain_text Wire.loads Wire.decode Wire.repr None
           Wire.line_hello [Wire.line_a] gen_init
           (Exn JSONDecodeError "Expecting value: line 1 column 1 (char 0)")
           "hello").
  - discriminate.
  - reflexivity.
  - reflexivity.
  - reflexivity.
  - intros cb. discriminate.
Defined.

(** A request of 9000 tokens is posted as 4096 by a client whose context
    window is 4096. *)
Lemma generate_clamps_max_tokens_witness :
  ∃ rqs,
    sent (generate (Net.always Net.greeting) Wire.repr Net.small "researcher" "hi"
            (Some Net.caller) false (Net.world_with Net.big_options)).2 = [] ++ rqs ∧
    rqs ≠ [] ∧
    Forall (λ rq, req_json rq !! "max_tokens" = Some (PInt 4096)) rqs.
Proof.
  apply (proj1 (generate_clamps_max_tokens (Net.always Net.greeting) Wire.repr
                  Net.small "researcher" "hi" Net.caller false Net.big_options
                  (Net.world_with Net.big_options) eq_refl)
           (PInt 9000) (PInt 4096) eq_refl eq_refl).
Defined.

(** After the call the caller's dictionary holds 4096, not 9000. *)
Lemma generate_mutates_caller_options_witness :
  heap (generate (Net.always Net.greeting) Wire.repr Net.small "researcher" "hi"
          (Some Net.caller) false (Net.world_with Net.big_options)).2 !! Net.caller =
    Some (<["max_tokens" := PInt 4096]> Net.big_options) ∧
  <["max_tokens" := PInt 4096]> Net.big_options !! "max_tokens" = Some (PInt 4096) ∧
  PInt 9000 ≠ PInt 4096.
Proof.
  apply (generate_mutates_caller_options (Net.always Net.greeting) Wire.repr
           Net.small "researcher" "hi" Net.caller false Net.big_options (PInt 9000)
           (Net.world_with Net.big_options) eq_refl eq_refl eq_refl).
Defined.

(** C5, as stated, fails: a reply object whose [done] field is false is
    returned as an event that is not terminal. *)
Lemma non_streaming_object_not_terminal :
  generate (Net.always Net.unfinished) Wire.repr Net.ollama "researcher" "hi" None
           false Net.empty_world =
    (inr (RDict (mk_event (PStr "partial") (PStr "researcher") (PStr "")
                          (PBool false))),
     World ∅ [Net.the_request false] []) ∧
  terminal (mk_event (PStr "partial") (PStr "researcher") (PStr "") (PBool false)) =
    false.
Proof. split; reflexivity. Qed.

(** A bare JSON string is returned as one terminal event. *)
Lemma non_streaming_reply_witness :
  ∃ w',
    generate (Net.always Net.bare) Wire.repr Net.ollama "researcher" "hi" None false
             Net.empty_world =
    (inr (RDict (mk_event (PStr "hi there") (PStr "researcher") (PStr "")
                          (PBool true))), w').
Proof.
  destruct (non_streaming_reply (Net.always Net.bare) Wire.repr Net.ollama
              "researcher" "hi" None Net.empty_world Net.bare)
    as (w' & _ & _ & Hs & _).
  - intros l opts requested. discriminate.
  - reflexivity.
  - simpl. lia.
  - exists w'. apply Hs. reflexivity.
Defined.

(** ** Further properties of the streaming handler *)

Section StreamingExtras.

Variable json_loads : bytes → exn + pyval.
Variable decode_utf8 : bytes → exn + string.
Variable py_repr : pyval → string.

Lemma handle_line_in_step cb line st :
  (∀ earlier x, cb earlier x = None) → in_step st →
  in_step (handle_line json_loads decode_utf8 py_repr (Some cb) line st).2.
Proof.
  intros Hcb Hst. unfold handle_line.
  destruct (String.eqb line ""); [done|].
  unfold try_except, try_json, plain_text, invoke_callback. unfold_monad.
  unfold in_step in *.
  destruct (json_loads line) as [e|result]; simpl.
  - destruct (is_json_decode_error e); [|done].
    destruct (decode_utf8 line) as [e'|s]; simpl; [done|].
    rewrite Hcb. simpl. by rewrite Hst.
  - destruct result as [| b | n | f | s | l | d]; simpl;
      rewrite ?Hcb; simpl; try (by rewrite Hst).
    destruct (truthy (dict_get d "response" (PStr ""))); simpl;
      rewrite ?Hcb; simpl; by rewrite ?Hst.
Qed.

Lemma for_lines_in_step cb lines st :
  (∀ earlier x, cb earlier x = None) → in_step st →
  in_step (for_lines json_loads decode_utf8 py_repr (Some cb) lines st).2.
Proof.
  intros Hcb. revert st. induction lines as [|line lines IH]; intros st Hst; [done|].
  simpl. unfold_monad.
  pose proof (handle_line_in_step cb line st Hcb Hst) as H1.
  destruct (handle_line json_loads decode_utf8 py_repr (Some cb) line st)
    as [[e|[]] st1]; [done|]. by apply IH.
Qed.

Lemma for_lines_no_callback lines st :
  calls (for_lines json_loads decode_utf8 py_repr None lines st).2 = calls st.
Proof.
  revert st. induction lines as [|line lines IH]; intros st; [done|].
  simpl. unfold_monad.
  assert (calls (handle_line json_loads decode_utf8 py_repr None line st).2 = calls st)
    as H1.
  { unfold handle_line. destruct (String.eqb line ""); [done|].
    unfold try_except, try_json, plain_text, invoke_callback. unfold_monad.
    destruct (json_loads line) as [e|result]; simpl.
    - destruct (is_json_decode_error e); [|done].
      by destruct (decode_utf8 line).
    - destruct result as [| b | n | f | s | l | d]; try done.
      by destruct (truthy (dict_get d "response" (PStr ""))). }
  destruct (handle_line json_loads decode_utf8 py_repr None line st)
    as [[e|[]] st1]; [done|]. simpl in H1. rewrite IH. done.
Qed.

Lemma run_stream_state callback lines fault :
  ∃ ev, (run_stream json_loads decode_utf8 py_repr callback lines fault).2 =
        emit (for_lines json_loads decode_utf8 py_repr callback lines gen_init).2 ev.
Proof.
  rewrite run_stream_eq, iterate_eq.
  destruct (for_lines json_loads decode_utf8 py_repr callback lines gen_init)
    as [[e|[]] st]; simpl; [by eexists|].
  destruct fault; simpl; [by eexists|].
  destruct (py_join (buffer st)); by eexists.
Qed.

(** X1.  A callback that never raises is invoked with exactly the fragments
    that are buffered, in the same order, whatever the lines are and however
    the stream ends; and without a callback nothing is invoked. *)
Theorem callback_receives_buffered_fragments cb lines fault :
  (∀ earlier x, cb earlier x = None) →
  stream_calls json_loads decode_utf8 py_repr (Some cb) lines fault =
    buffer (run_stream json_loads decode_utf8 py_repr (Some cb) lines fault).2 ∧
  stream_calls json_loads decode_utf8 py_repr None lines fault = [].
Proof.
  intros Hcb. unfold stream_calls. split.
  - destruct (run_stream_state (Some cb) lines fault) as (ev & ->). simpl.
    by apply (for_lines_in_step cb lines gen_init Hcb).
  - destruct (run_stream_state None lines fault) as (ev & ->). simpl.
    by rewrite for_lines_no_callback.
Qed.

Lemma try_json_events callback line st r st' :
  try_json json_loads py_repr callback line st = (r, st') →
  match r with
  | inr _ => length (yielded st') = S (length (yielded st))
  | inl _ => yielded st' = yielded st
  end.
Proof.
  unfold try_json, invoke_callback. unfold_monad. unfold_monad. unfold emit.
  intros H.
  repeat (case_match; simplify_eq/=); rewrite ?length_app; simpl; done || lia.
Qed.

Lemma plain_text_events callback line st r st' :
  plain_text decode_utf8 callback line st = (r, st') →
  match r with
  | inr _ => length (yielded st') = S (length (yielded st))
  | inl _ => yielded st' = yielded st
  end.
Proof.
  unfold plain_text, invoke_callback. unfold_monad. unfold_monad. unfold emit.
  intros H.
  repeat (case_match; simplify_eq/=); rewrite ?length_app; simpl; done || lia.
Qed.

Lemma handle_line_one_event callback line st st' :
  handle_line json_loads decode_utf8 py_repr callback line st = (inr tt, st') →
  length (yielded st') =
    (length (yielded st) + if String.eqb line "" then 0 else 1)%nat.
Proof.
  unfold handle_line. destruct (String.eqb line "").
  { intros [= <-]. lia. }
  unfold try_except.
  destruct (try_json json_loads py_repr callback line st) as [[e|[]] st1] eqn:E1.
  - pose proof (try_json_events _ _ _ _ _ E1) as H1. simpl in H1.
    destruct (is_json_decode_error e); [|done].
    intros E2. pose proof (plain_text_events _ _ _ _ _ E2) as H2. simpl in H2.
    rewrite H2, H1. lia.
  - pose proof (try_json_events _ _ _ _ _ E1) as H1. simpl in H1.
    intros [= <-]. lia.
Qed.

Lemma for_lines_event_count callback lines st st' :
  for_lines json_loads decode_utf8 py_repr callback lines st = (inr tt, st') →
  length (yielded st') =
    (length (yielded st) + length (filter (λ l, l ≠ "") lines))%nat.
Proof.
  revert st. induction lines as [|line lines IH]; intros st; simpl.
  { intros [= <-]. lia. }
  unfold_monad.
  destruct (handle_line json_loads decode_utf8 py_repr callback line st)
    as [[e|[]] st1] eqn:E1; [done|].
  intros E2. rewrite (IH _ E2), (handle_line_one_event _ _ _ _ E1).
  rewrite filter_cons. destruct (String.eqb_spec line "") as [->|Hne].
  - rewrite decide_False by (intros H; by apply H). lia.
  - rewrite decide_True by done. simpl. lia.
Qed.

(** X2.  When the lines are read without an exception, the generator yields
    one event for every line that is not empty, in order, and then the final
    event: as many events as there are non-empty lines, plus one. *)
Theorem one_event_per_line callback lines st :
  for_lines json_loads decode_utf8 py_repr callback lines gen_init = (inr tt, st) →
  length (stream_events json_loads decode_utf8 py_repr callback lines None) =
    S (length (filter (λ l, l ≠ "") lines)).
Proof.
  intros E. unfold stream_events. rewrite run_stream_eq, iterate_eq, E.
  pose proof (for_lines_event_count callback lines gen_init st E) as H.
  simpl in H.
  destruct (py_join (buffer st)); simpl; rewrite length_app, H; simpl; lia.
Qed.

Lemma append_nil_r s : s +:+ "" = s.
Proof.
  induction s as [|c s IH]; [done|].
  change (String c (s +:+ "") = String c s). by rewrite IH.
Qed.

Lemma append_assoc s1 s2 s3 : (s1 +:+ s2) +:+ s3 = s1 +:+ (s2 +:+ s3).
Proof.
  induction s1 as [|c s1 IH]; [done|].
  change (String c ((s1 +:+ s2) +:+ s3) = String c (s1 +:+ (s2 +:+ s3))).
  by rewrite IH.
Qed.

Lemma concat_cons s l : String.concat "" (s :: l) = s +:+ String.concat "" l.
Proof. destruct l; [|done]. simpl. by rewrite append_nil_r. Qed.

Lemma concat_snoc l s : String.concat "" (l ++ [s]) = String.concat "" l +:+ s.
Proof.
  induction l as [|x l IH]; [done|].
  rewrite <- app_comm_cons, !concat_cons, IH. by rewrite append_assoc.
Qed.

Lemma falsy_str s : truthy (PStr s) = false → s = "".
Proof. simpl. by destruct (String.eqb_spec s ""). Qed.

(** What is buffered is what was yielded, but for empty fragments. *)
Lemma drops_strings buf texts :
  drops buf texts → ∀ frags, texts = PStr <$> frags →
  ∃ kept, buf = PStr <$> kept ∧ String.concat "" kept = String.concat "" frags.
Proof.
  induction 1 as [|v b t _ IH|v b t Hv _ IH]; intros frags E.
  - exists []. split; [done|]. symmetry in E. apply fmap_nil_inv in E. by subst.
  - symmetry in E. apply fmap_app_inv in E as (f1 & f2 & E1 & E2 & ->).
    destruct f2 as [|s [|? ?]]; try done. injection E2 as ->.
    destruct (IH f1 E1) as (kept & -> & Hc).
    exists (kept ++ [s]). split; [by rewrite fmap_app|].
    by rewrite !concat_snoc, Hc.
  - symmetry in E. apply fmap_app_inv in E as (f1 & f2 & E1 & E2 & ->).
    destruct f2 as [|s [|? ?]]; try done. injection E2 as ->.
    destruct (IH f1 E1) as (kept & -> & Hc).
    exists kept. split; [done|].
    rewrite concat_snoc, Hc, (falsy_str s Hv). by rewrite append_nil_r.
Qed.

Lemma try_json_drops callback line st r st' :
  try_json json_loads py_repr callback line st = (r, st') →
  drops (buffer st) (event_text <$> yielded st) →
  drops (buffer st') (event_text <$> yielded st') ∧
  (∀ e, r = inl e → buffer st' = buffer st ∧ yielded st' = yielded st).
Proof.
  unfold try_json, invoke_callback. unfold_monad. unfold_monad. unfold emit.
  intros H D.
  repeat (case_match; simplify_eq/=);
    (split; [|intros; by simplify_eq]);
    rewrite ?fmap_app; simpl;
    first [ done | by apply drops_keep | by apply drops_skip ].
Qed.

Lemma plain_text_drops callback line st r st' :
  plain_text decode_utf8 callback line st = (r, st') →
  drops (buffer st) (event_text <$> yielded st) →
  drops (buffer st') (event_text <$> yielded st').
Proof.
  unfold plain_text, invoke_callback. unfold_monad. unfold_monad. unfold emit.
  intros H D.
  repeat (case_match; simplify_eq/=); rewrite ?fmap_app; simpl;
    first [ done | by apply drops_keep ].
Qed.

Lemma for_lines_drops callback lines st :
  drops (buffer st) (event_text <$> yielded st) →
  drops (buffer (for_lines json_loads decode_utf8 py_repr callback lines st).2)
        (event_text <$>
           yielded (for_lines json_loads decode_utf8 py_repr callback lines st).2).
Proof.
  revert st. induction lines as [|line lines IH]; intros st D; [done|].
  simpl. unfold_monad.
  assert (drops
    (buffer (handle_line json_loads decode_utf8 py_repr callback line st).2)
    (event_text <$>
       yielded (handle_line json_loads decode_utf8 py_repr callback line st).2))
    as D1.
  { unfold handle_line. destruct (String.eqb line ""); [done|].
    unfold try_except.
    destruct (try_json json_loads py_repr callback line st) as [[e|[]] st1] eqn:E1.
    - destruct (try_json_drops _ _ _ _ _ E1 D) as (D1 & Hsame).
      destruct (is_json_decode_error e); [|done].
      destruct (plain_text decode_utf8 callback line st1) as [r st2] eqn:E2.
      by apply (plain_text_drops _ _ _ _ _ E2).
    - by destruct (try_json_drops _ _ _ _ _ E1 D). }
  destruct (handle_line json_loads decode_utf8 py_repr callback line st)
    as [[e|[]] st1]; [done|]. by apply IH.
Qed.

(** X3.  When the lines are read without an exception and the text of every
    per-line event is a string, the final event carries the concatenation
    of the texts of the per-line events, in order. *)
Theorem partial_texts_concatenate_to_final callback lines fault st frags :
  iterate json_loads decode_utf8 py_repr callback lines fault gen_init = (inr tt, st) →
  event_text <$> yielded st = PStr <$> frags →
  stream_events json_loads decode_utf8 py_repr callback lines fault =
    yielded st ++
    [mk_event (PStr (String.concat "" frags)) (PStr "") (PStr "") (PBool true)].
Proof.
  intros Hi Ht. unfold stream_events. rewrite run_stream_eq, Hi.
  pose proof (for_lines_drops callback lines gen_init drops_nil) as D.
  rewrite iterate_eq in Hi.
  destruct (for_lines json_loads decode_utf8 py_repr callback lines gen_init)
    as [[e|[]] st0]; [done|].
  destruct fault; [done|]. injection Hi as ->. simpl in D.
  destruct (drops_strings _ _ D frags Ht) as (kept & Hb & Hc).
  unfold py_join. rewrite Hb, join_from_strings, Hc. done.
Qed.

End StreamingExtras.

(** ** Further properties of [generate] *)

Section GenerateExtras.

Variable network : nat → request → exn + response.
Variable py_repr : pyval → string.
Variable self : OllamaClient.

Lemma raise_for_status_http_error url r (w : world) :
  raise_for_status url r w =
  match http_error url r with
  | Some e => (inl e, w)
  | None => (inr tt, w)
  end.
Proof.
  unfold raise_for_status, http_error.
  by repeat case_bool_decide.
Qed.

Lemma http_error_class url r e :
  http_error url r = Some e →
  is_request_exception e = true ∧ is_timeout e = false.
Proof.
  unfold http_error. repeat case_bool_decide; intros [= <-]; done.
Qed.

Lemma exchange_returns model stream data w :
  benign network w →
  ∃ v, exchange network py_repr self model stream data w =
       (inr v, World (heap w)
                 (sent w ++ [Request (base_url self +:+ "/api/generate") data stream
                               (timeout self)])
                 (slept w)).
Proof.
  intros Hb. unfold exchange, requests_post, parse_reply. unfold_monad. simpl.
  specialize (Hb (Request (base_url self +:+ "/api/generate") data stream (timeout self))).
  destruct (network _ _) as [e|r]; simpl.
  { rewrite Hb. destruct (is_timeout e); eauto. }
  rewrite raise_for_status_http_error.
  destruct (http_error _ r) as [e|] eqn:He; simpl.
  { destruct (http_error_class _ _ _ He) as [-> ->]. eauto. }
  destruct stream; simpl; [eauto|].
  destruct (json_result r) as [e|result]; simpl.
  - destruct (is_json_decode_error e) eqn:Hj; simpl; [eauto|].
    destruct Hb as [Hb|Hb]; [congruence|]. rewrite Hb.
    destruct (is_timeout e); eauto.
  - destruct result; simpl; eauto.
Qed.

(** X4.  With options the clamp accepts, a transport that raises nothing but
    [RequestException] and a body whose reading raises nothing but
    [JSONDecodeError] or [RequestException], [generate] returns a value: it
    raises nothing, after exactly one request and without any wait. *)
Theorem generate_returns_without_retry model prompt options stream w :
  options_accepted self w options →
  benign network w →
  ∃ v w', generate network py_repr self model prompt options stream w = (inr v, w') ∧
          length (sent w') = S (length (sent w)) ∧
          slept w' = slept w.
Proof.
  intros Hok Hb.
  destruct (apply_options_accepted self options (base_data model prompt stream) w Hok)
    as (data & h & Ha).
  destruct (exchange_returns model stream data (World h (sent w) (slept w)) Hb)
    as (v & Hx).
  eexists v, _. split.
  - unfold generate, retry. apply retrying_returns.
    unfold generate_body. unfold_monad. rewrite Ha. exact Hx.
  - simpl. rewrite length_app. simpl. split; [lia|done].
Qed.

(** X5.  A reply with an error status (400 to 599) is never read: whatever
    its body, and in both modes, [generate] returns the error dictionary with
    the message of the status. *)
Theorem error_status_is_error_event model prompt stream w r e :
  (∀ rq, network (length (sent w)) rq = inr r) →
  http_error (base_url self +:+ "/api/generate") r = Some e →
  generate network py_repr self model prompt None stream w =
  (inr (RDict (error_event (str_exn e))),
   World (heap w)
     (sent w ++ [Request (base_url self +:+ "/api/generate")
                   (base_data model prompt stream) stream (timeout self)])
     (slept w)).
Proof.
  intros Hnet He. unfold generate, retry. apply retrying_returns.
  unfold generate_body, apply_options, exchange, requests_post. unfold_monad.
  simpl. rewrite Hnet. simpl. rewrite raise_for_status_http_error, He. simpl.
  by destruct (http_error_class _ _ _ He) as [-> ->].
Qed.

(** X6.  The entries of the options replace the call's own entries in the
    posted JSON, [model], [prompt] and [stream] included, while the transport
    is opened with the [stream] argument: every request posted is the same,
    with the options laid over the call's data. *)
Theorem options_take_precedence model prompt l stream opts w :
  heap w !! l = Some opts →
  opts !! "max_tokens" = None →
  ∃ r rqs sl,
    generate network py_repr self model prompt (Some l) stream w =
      (r, World (heap w) (sent w ++ rqs) (slept w ++ sl)) ∧
    rqs ≠ [] ∧
    Forall (λ rq, rq = Request (base_url self +:+ "/api/generate")
                         (opts ∪ base_data model prompt stream) stream
                         (timeout self)) rqs ∧
    (∀ k v, opts !! k = Some v →
       Forall (λ rq, req_json rq !! k = Some v ∧ req_stream rq = stream) rqs).
Proof.
  intros Hl Hmt.
  assert (∃ r rqs sl,
    generate network py_repr self model prompt (Some l) stream w =
      (r, World (heap w) (sent w ++ rqs) (slept w ++ sl)) ∧
    rqs ≠ [] ∧
    Forall (λ rq, rq = Request (base_url self +:+ "/api/generate")
                         (opts ∪ base_data model prompt stream) stream
                         (timeout self)) rqs) as (r & rqs & sl & E & Hne & F).
  { unfold generate, retry.
    apply (retrying_posts (λ h, h = heap w)); [done| |done].
    intros w0 Hw.
    destruct (generate_body_passes network py_repr self model prompt l stream opts w0)
      as (r & E); [by rewrite Hw|done|].
    rewrite Hw in E. eauto. }
  exists r, rqs, sl. split; [done|]. split; [done|]. split; [done|].
  intros k v Hk. eapply Forall_impl; [exact F|]. intros rq ->. simpl.
  split; [|done]. by apply lookup_union_Some_l.
Qed.

(** X7.  A [max_tokens] that is no number makes the body raise before any
    request: the decorator runs it three times, waiting 4 seconds after the
    first and after the second attempt, and then raises [RetryError]; nothing
    is posted and the caller's dictionary is left as it was. *)
Theorem non_numeric_max_tokens_is_retried model prompt l stream opts requested e w :
  heap w !! l = Some opts →
  opts !! "max_tokens" = Some requested →
  int_lt (context_window self) requested = inl e →
  ∃ raised,
    generate network py_repr self model prompt (Some l) stream w =
      (inl raised, World (heap w) (sent w) (slept w ++ [4; 4])) ∧
    exn_cls raised = RetryError.
Proof.
  intros Hl Hmt Hlt.
  assert (∀ sl, generate_body network py_repr self model prompt (Some l) stream
                  (World (heap w) (sent w) sl) =
                (inl e, World (heap w) (sent w) sl)) as Hbody.
  { intros sl. unfold generate_body, apply_options, read_dict. unfold_monad.
    simpl. rewrite Hl. simpl.
    pose proof (truthy_dict_lookup _ _ _ Hmt) as Ht. simpl in Ht. rewrite Ht.
    rewrite Hmt. unfold py_min. rewrite Hlt. done. }
  exists (Exn RetryError "RetryError"). split; [|reflexivity].
  unfold generate, retry. simpl. unfold_monad. unfold sleep.
  destruct w as [h s sl]. simpl in *.
  rewrite Hbody. simpl. rewrite Hbody. simpl. rewrite Hbody. simpl.
  by rewrite <- app_assoc.
Qed.

End GenerateExtras.

(** ** The other methods of the client: properties *)

Lemma rstrip_slash_split s : ∃ n, s = rstrip_slash s +:+ slashes n.
Proof.
  induction s as [|c s (n & IH)]; [by exists 0%nat|].
  simpl. destruct (rstrip_slash s) as [|a t] eqn:E.
  - change (s = slashes n) in IH.
    destruct (Ascii.eqb_spec c slash) as [->|Hc].
    + exists (S n). change (String slash s = String slash (slashes n)).
      by f_equal.
    + exists n. change (String c s = String c (slashes n)). by f_equal.
  - exists n. change (String c s = String c (String a t +:+ slashes n)).
    by f_equal.
Qed.

Lemma rstrip_slash_no_trailing s x : rstrip_slash s ≠ x +:+ "/".
Proof.
  revert x. induction s as [|c s IH]; intros x; simpl.
  { by destruct x. }
  destruct (rstrip_slash s) as [|a t] eqn:E.
  - destruct (Ascii.eqb_spec c slash) as [->|Hc].
    + by destruct x.
    + destruct x as [|b [|b' x]]; simpl; try done.
      intros [= ->]. by apply Hc.
  - destruct x as [|b x]; simpl; [done|].
    intros [= -> H]. by apply (IH x).
Qed.

Lemma rstrip_slash_fixed s : (∀ x, s ≠ x +:+ "/") → rstrip_slash s = s.
Proof.
  induction s as [|c s IH]; intros H; [done|]. simpl.
  rewrite IH.
  - destruct s as [|a t]; [|done].
    destruct (Ascii.eqb_spec c slash) as [->|Hc]; [|done].
    by destruct (H "").
  - intros x ->. by apply (H (String c x)).
Qed.

(** X8.  [__init__] removes the slashes at the end of the base URL and
    nothing else: the URL given is the stored one followed by slashes only,
    the stored one does not end in a slash, and storing it again changes
    nothing. *)
Theorem init_strips_trailing_slashes url retries seconds window :
  (∃ n, url = base_url (Client.init url retries seconds window) +:+ slashes n) ∧
  (∀ x, base_url (Client.init url retries seconds window) ≠ x +:+ "/") ∧
  Client.init (base_url (Client.init url retries seconds window))
              retries seconds window =
    Client.init url retries seconds window.
Proof.
  split; [apply rstrip_slash_split|]. split; [apply rstrip_slash_no_trailing|].
  unfold Client.init. simpl. f_equal.
  apply rstrip_slash_fixed, rstrip_slash_no_trailing.
Qed.

Section ClientExtras.

Variable env : environment.
Variable self : OllamaClient.

(** X9.  [list_models] always answers with a dictionary that has a [models]
    entry, and it makes one request.  When the request raises a
    [RequestException], or is answered with an error status, or the body is
    no JSON, [models] is the empty list and [error] tells why. *)
Theorem list_models_always_lists t :
  let call := HttpCall GET (base_url self +:+ "/api/tags") None in
  (∀ d t', Client.list_models env self t = (inr d, t') →
     is_Some (d !! "models") ∧
     ∃ logged, t' = t ++ EHttp call :: logged ∧ Forall is_log logged) ∧
  (∀ e, http env t call = inl e → is_request_exception e = true →
     (Client.list_models env self t).1 = inr (Client.models_error (str_exn e))) ∧
  (∀ r e, http env t call = inr r →
     http_error (base_url self +:+ "/api/tags") r = Some e →
     (Client.list_models env self t).1 = inr (Client.models_error (str_exn e))) ∧
  (∀ r e, http env t call = inr r →
     http_error (base_url self +:+ "/api/tags") r = None →
     json_result r = inl e → is_json_decode_error e = true →
     (Client.list_models env self t).1 =
       inr (Client.models_error "Failed to parse response")).
Proof.
  intros call. unfold Client.list_models, http_request, check_status, log,
    record_effect. unfold_monad. unfold_monad. fold call.
  split; [|split; [|split]].
  - intros d t'. unfold try_except. simpl.
    assert (∀ (d0 : gmap string pyval) t0,
      is_Some (d0 !! "models") →
      (∃ logged, t0 = t ++ EHttp call :: logged ∧ Forall is_log logged) →
      ((inr d0, t0) : (exn + gmap string pyval) * list effect) = (inr d, t') →
      is_Some (d !! "models") ∧
      ∃ logged, t' = t ++ EHttp call :: logged ∧ Forall is_log logged) as Hans.
    { by intros d0 t0 H1 H2 [= <- <-]. }
    assert (∀ x, ∃ logged,
      (t ++ [EHttp call]) ++ [ELog LogError x] = t ++ EHttp call :: logged ∧
      Forall is_log logged) as Hlog.
    { intros x. exists [ELog LogError x]. rewrite <- app_assoc.
      split; [done|]. by repeat constructor. }
    assert (∃ logged, t ++ [EHttp call] = t ++ EHttp call :: logged ∧
                      Forall is_log logged) as Hnil by (by exists []).
    destruct (http env t call) as [e|r]; simpl.
    { destruct (is_request_exception e); [|done]. by apply Hans. }
    destruct (http_error _ r) as [e|] eqn:He; simpl.
    { destruct (is_request_exception e); [|done]. by apply Hans. }
    destruct (json_result r) as [e|result]; simpl.
    + destruct (is_json_decode_error e); simpl; [by apply Hans|].
      destruct (is_request_exception e); [|done]. by apply Hans.
    + destruct result; simpl; by apply Hans.
  - intros e He Hr. unfold try_except. simpl. rewrite He. simpl. by rewrite Hr.
  - intros r e Hr He. unfold try_except. simpl. rewrite Hr. simpl. rewrite He. simpl.
    by destruct (http_error_class _ _ _ He) as [-> _].
  - intros r e Hr He Hj Hd. unfold try_except. simpl. rewrite Hr. simpl.
    rewrite He. simpl. rewrite Hj. simpl. by rewrite Hd.
Qed.

(** X10.  [create_model] never raises and runs the program once, with the
    arguments [ollama create <name> -f <path>].  Its status is [success]
    exactly when the run exits with 0 and reading its output raises nothing
    but [JSONDecodeError]; otherwise the status is [error]. *)
Theorem create_model_reports_status model_name modelfile_path t :
  let argv := ["ollama"; "create"; model_name; "-f"; modelfile_path] in
  ∃ d logged,
    Client.create_model env model_name modelfile_path t =
      (inr d, t ++ ESpawn argv :: logged) ∧
    Forall is_log logged ∧
    (d !! "status" = Some (PStr "success") ∨ d !! "status" = Some (PStr "error")) ∧
    (d !! "status" = Some (PStr "success") ↔
     ∃ stdout, run_process env t argv = Completed stdout ∧
               ∀ e, loads_str env stdout = inl e → is_json_decode_error e = true).
Proof.
  intros argv. unfold Client.create_model, spawn, log, record_effect.
  unfold_monad. fold argv.
  destruct (run_process env t argv) as [stdout|stderr|e] eqn:Hrun.
  - destruct (loads_str env stdout) as [e|output] eqn:Hl.
    + destruct (is_json_decode_error e) eqn:Hj.
      * eexists _, []. split; [done|]. split; [done|]. split; [by left|].
        split; [|done]. intros _. exists stdout. split; [done|]. intros e0 He0. congruence.
      * eexists _, [_]. split; [by rewrite <- app_assoc|]. split; [by repeat constructor|].
        split; [by right|]. split; [done|].
        intros (s & [= <-] & H). specialize (H e Hl). congruence.
    + eexists _, []. split; [done|]. split; [done|]. split; [by left|].
      split; [|done]. intros _. exists stdout. split; [done|]. intros e. congruence.
  - eexists _, [_]. split; [by rewrite <- app_assoc|]. split; [by repeat constructor|].
    split; [by right|]. split; [done|]. by intros (s & ? & _).
  - eexists _, [_]. split; [by rewrite <- app_assoc|]. split; [by repeat constructor|].
    split; [by right|]. split; [done|]. by intros (s & ? & _).
Qed.

Lemma split_colon_joined key value :
  split_colon key = None → split_colon (key +:+ ":" +:+ value) = Some (key, value).
Proof.
  induction key as [|c key IH]; [done|]. simpl.
  destruct (Ascii.eqb c colon); [done|].
  destruct (split_colon key) as [[k v]|] eqn:E; [done|]. intros _.
  by rewrite IH.
Qed.

Lemma split_colon_parts line key value :
  split_colon line = Some (key, value) →
  line = key +:+ ":" +:+ value ∧ split_colon key = None.
Proof.
  revert key. induction line as [|c line IH]; intros key; [done|]. simpl.
  destruct (Ascii.eqb_spec c colon) as [->|Hc].
  { by intros [= <- <-]. }
  destruct (split_colon line) as [[k v]|] eqn:E; [|done].
  intros [= <- <-]. destruct (IH k eq_refl) as [-> Hk]. split; [done|].
  simpl. destruct (Ascii.eqb_spec c colon); [done|]. by rewrite Hk.
Qed.

(** X11.  [get_model_info] reads a line at its first colon only: a line
    [key:value] whose key holds no colon sets the stripped key to the
    stripped value, colons of the value included, and replaces what an
    earlier line set; a line without a colon changes nothing; and whatever
    is split was the line. *)
Theorem info_lines_split_at_first_colon lines line key value :
  (split_colon key = None →
   Client.parse_info env (lines ++ [key +:+ ":" +:+ value]) =
     <[strip env key := PStr (strip env value)]> (Client.parse_info env lines)) ∧
  (split_colon line = None →
   Client.parse_info env (lines ++ [line]) = Client.parse_info env lines) ∧
  (split_colon line = Some (key, value) →
   line = key +:+ ":" +:+ value ∧ split_colon key = None).
Proof.
  unfold Client.parse_info. split; [|split].
  - intros Hk. rewrite foldl_app. simpl. unfold Client.info_line at 1.
    by rewrite split_colon_joined.
  - intros Hl. rewrite foldl_app. simpl. unfold Client.info_line at 1.
    by rewrite Hl.
  - apply split_colon_parts.
Qed.

(** X25.  [pull_model] lets no [RequestException] out.  A request that
    raises one, or is answered with an error status, gives the error
    dictionary with the message of the exception; a body that is JSON is
    returned as the server sent it, a dictionary or not, after one request
    and without a log record. *)
Theorem pull_model_reports_failures model t :
  let url := base_url self +:+ "/api/pull" in
  let call := HttpCall POST url (Some {["name" := PStr model]}) in
  (∀ e, (Client.pull_model env self model t).1 = inl e →
        is_request_exception e = false) ∧
  (∀ e, http env t call = inl e → is_request_exception e = true →
        (Client.pull_model env self model t).1 =
          inr (PDict (Client.status_error (PStr (str_exn e))))) ∧
  (∀ r e, http env t call = inr r → http_error url r = Some e →
          (Client.pull_model env self model t).1 =
            inr (PDict (Client.status_error (PStr (str_exn e))))) ∧
  (∀ r v, http env t call = inr r → http_error url r = None →
          json_result r = inr v →
          Client.pull_model env self model t = (inr v, t ++ [EHttp call])).
Proof.
  intros url call.
  unfold Client.pull_model, http_request, check_status, log, record_effect, try_except.
  unfold_monad. unfold_monad. fold url. fold call.
  split; [|split; [|split]].
  - intros e. destruct (http env t call) as [e0|r]; simpl.
    { destruct (is_request_exception e0) eqn:Hr; simpl; [done|]. by intros [= <-]. }
    destruct (http_error url r) as [e0|]; simpl.
    { destruct (is_request_exception e0) eqn:Hr; simpl; [done|]. by intros [= <-]. }
    destruct (json_result r) as [e0|v]; simpl; [|done].
    destruct (is_json_decode_error e0); simpl; [done|].
    destruct (is_request_exception e0) eqn:Hr; simpl; [done|]. by intros [= <-].
  - intros e He Hr. rewrite He. simpl. by rewrite Hr.
  - intros r e Hr He. rewrite Hr. simpl. rewrite He. simpl.
    by destruct (http_error_class _ _ _ He) as [-> _].
  - intros r v Hr He Hv. rewrite Hr. simpl. rewrite He. simpl. by rewrite Hv.
Qed.

End ClientExtras.

(** ** The model manager: properties *)

Lemma prefix_split p s : String.prefix p s = true ↔ ∃ post, s = p +:+ post.
Proof.
  revert s. induction p as [|c p IH]; intros s; simpl.
  { split; [|by destruct s]. intros _. exists s. by destruct s. }
  destruct s as [|d s]; simpl.
  { split; [done|]. by intros (? & ?). }
  destruct (Ascii.ascii_dec c d) as [->|Hne].
  - rewrite IH. split; intros (post & E); exists post.
    + by rewrite E.
    + by injection E.
  - split; [done|]. intros (post & [= ? ?]). congruence.
Qed.

Lemma replace_colon_no_colon s : split_colon (replace_colon s) = None.
Proof.
  induction s as [|c s IH]; [done|]. simpl.
  destruct (Ascii.eqb_spec c colon) as [->|Hc]; simpl.
  - by rewrite IH.
  - destruct (Ascii.eqb_spec c colon); [done|]. by rewrite IH.
Qed.

Lemma replace_colon_fixed s : split_colon s = None → replace_colon s = s.
Proof.
  induction s as [|c s IH]; [done|]. simpl.
  destruct (Ascii.eqb c colon); [done|].
  destruct (split_colon s) as [[k v]|]; [done|]. intros _. by rewrite IH.
Qed.

Lemma not_warning_is_log e : not_warning e → is_log e.
Proof. by destruct e as [| | | | |[]| |]. Qed.

Lemma recommended_has_no_tag s :
  ModelManager.is_recommended (PStr s) = true → split_colon s = None.
Proof.
  unfold ModelManager.is_recommended. simpl.
  rewrite !orb_true_iff, !String.eqb_eq. by intros [->|[->|[->|?]]].
Qed.

Section ManagerExtras.

Variable env : environment.

Lemma list_models_trace self t :
  ∃ r logged,
    Client.list_models env self t =
      (r, t ++ EHttp (HttpCall GET (base_url self +:+ "/api/tags") None) :: logged) ∧
    Forall not_warning logged ∧
    (∀ d, r = inr d → is_Some (d !! "models")).
Proof.
  unfold Client.list_models, http_request, check_status, log, record_effect.
  unfold_monad. unfold_monad. unfold try_except. simpl.
  destruct (http env t _) as [e|r]; simpl.
  { destruct (is_request_exception e).
    - eexists _, [_]. rewrite <- app_assoc. split; [done|].
      split; [by repeat constructor|]. intros ? [= <-]. by eexists.
    - eexists _, []. split; [done|]. split; [done|]. done. }
  destruct (http_error _ r) as [e|] eqn:He; simpl.
  { destruct (is_request_exception e).
    - eexists _, [_]. rewrite <- app_assoc. split; [done|].
      split; [by repeat constructor|]. intros ? [= <-]. by eexists.
    - eexists _, []. split; [done|]. split; [done|]. done. }
  destruct (json_result r) as [e|result]; simpl.
  - destruct (is_json_decode_error e); simpl.
    + eexists _, [_]. rewrite <- app_assoc. split; [done|].
      split; [by repeat constructor|]. intros ? [= <-]. by eexists.
    + destruct (is_request_exception e).
      * eexists _, [_]. rewrite <- app_assoc. split; [done|].
        split; [by repeat constructor|]. intros ? [= <-]. by eexists.
      * eexists _, []. split; [done|]. split; [done|]. done.
  - destruct result; simpl; eexists _, []; (split; [done|]); (split; [done|]);
      intros ? [= <-]; by eexists.
Qed.

Lemma get_available_models_spec t :
  ∃ v logged,
    ModelManager.get_available_models env t =
      (inr v, t ++ EHttp default_tags :: logged) ∧
    Forall not_warning logged ∧
    (∃ n, py_len env v = inr n) ∧
    (v = PList [] ∨
     ∃ d, (Client.list_models env Client.default t).1 = inr d ∧
          d !! "models" = Some v).
Proof.
  unfold ModelManager.get_available_models, try_except.
  unfold mbind at 1. unfold M_bind.
  destruct (list_models_trace Client.default t) as (r & logged & -> & Hlog & Hm).
  fold default_tags.
  destruct r as [e|d]; simpl.
  { unfold log, record_effect. unfold_monad.
    eexists _, (logged ++ [_]). rewrite <- app_assoc. split; [done|].
    split; [|split; [by exists 0%nat|by left]].
    apply Forall_app. split; [done|]. by repeat constructor. }
  destruct (Hm d eq_refl) as (models & Hmodels). rewrite Hmodels.
  unfold log, record_effect. unfold_monad. unfold_monad.
  destruct (py_len env models) as [e|n] eqn:Hn; simpl.
  - eexists _, (logged ++ [_]). rewrite <- app_assoc. split; [done|].
    split; [|split; [by exists 0%nat|by left]].
    apply Forall_app. split; [done|]. by repeat constructor.
  - eexists _, (logged ++ [_]). rewrite <- app_assoc. split; [done|].
    split; [|split; [by exists n|right; by exists d]].
    apply Forall_app. split; [done|]. by repeat constructor.
Qed.

(** X12.  [get_available_models] never raises.  It makes one request and
    logs; the warning about a reply without models is never logged.  What
    it returns has a length: it is the [models] entry [list_models] gave,
    or, when that has no length or [list_models] raised, the empty list. *)
Theorem available_models_always_answers t :
  ∃ v logged,
    ModelManager.get_available_models env t =
      (inr v, t ++ EHttp default_tags :: logged) ∧
    Forall is_log logged ∧
    (∀ text, ELog LogWarning text ∉ logged) ∧
    (∃ n, py_len env v = inr n) ∧
    (v = PList [] ∨
     ∃ d, (Client.list_models env Client.default t).1 = inr d ∧
          d !! "models" = Some v).
Proof.
  destruct (get_available_models_spec t) as (v & logged & E & Hlog & Hn & Hv).
  exists v, logged. split; [done|].
  split; [exact (Forall_impl _ _ _ Hlog not_warning_is_log)|].
  split; [|done]. intros text Hin.
  rewrite Forall_forall in Hlog. by apply Hlog in Hin.
Qed.

Lemma any_named_true items name :
  ModelManager.any_named env items name = inr true ↔
  ∃ i m, items !! i = Some m ∧ getitem env m "name" = inr (PStr name) ∧
         ∀ j m', (j < i)%nat → items !! j = Some m' →
                 ∃ n, getitem env m' "name" = inr n.
Proof.
  induction items as [|m0 items IH]; simpl.
  { split; [done|]. by intros (i & m & ? & _). }
  destruct (getitem env m0 "name") as [e|n] eqn:Hn.
  { split; [done|]. intros ([|i] & m & Hi & Hm & Hbefore).
    - simpl in Hi. congruence.
    - destruct (Hbefore 0%nat m0) as (n & ?); [lia|done|congruence]. }
  destruct (eq_str n name) eqn:Heq.
  - split; [|done]. intros _. exists 0%nat, m0. split; [done|]. split; [|lia].
    destruct n; try done. simpl in Heq. apply String.eqb_eq in Heq. by subst.
  - rewrite IH. split.
    + intros (i & m & Hi & Hm & Hbefore). exists (S i), m. split; [done|].
      split; [done|]. intros [|j] m' Hj Hm'.
      * simpl in Hm'. injection Hm' as <-. by exists n.
      * apply (Hbefore j); [lia|done].
    + intros ([|i] & m & Hi & Hm & Hbefore).
      * simpl in Hi. injection Hi as <-. rewrite Hm in Hn. injection Hn as <-.
        simpl in Heq. by rewrite String.eqb_refl in Heq.
      * exists i, m. split; [done|]. split; [done|]. intros j m' Hj Hm'.
        apply (Hbefore (S j)); [lia|done].
Qed.

Lemma validate_model_spec name t :
  ∃ b logged,
    ModelManager.validate_model env name t =
      (inr b, t ++ EHttp default_tags :: logged) ∧
    Forall is_log logged ∧
    (b = true ↔
     ∃ models items,
       (ModelManager.get_available_models env t).1 = inr models ∧
       py_iter env models = inr items ∧
       ModelManager.any_named env items name = inr true).
Proof.
  unfold ModelManager.validate_model, try_except.
  unfold mbind at 1. unfold M_bind.
  destruct (get_available_models_spec t) as (v & logged & -> & Hlog & _).
  pose proof (Forall_impl _ _ _ Hlog not_warning_is_log) as Hlog'.
  unfold log, record_effect. unfold_monad. unfold_monad. simpl.
  destruct (py_iter env v) as [e|items] eqn:Hi; simpl.
  { eexists _, (logged ++ [_]). rewrite <- app_assoc. split; [done|].
    split; [apply Forall_app; split; [done|by repeat constructor]|].
    split; [done|]. intros (? & ? & [= <-] & ? & _). congruence. }
  destruct (ModelManager.any_named env items name) as [e|b] eqn:Ha; simpl.
  { eexists _, (logged ++ [_]). rewrite <- app_assoc. split; [done|].
    split; [apply Forall_app; split; [done|by repeat constructor]|].
    split; [done|]. intros (? & ? & [= <-] & ? & ?). congruence. }
  eexists _, logged. split; [done|]. split; [done|]. split.
  - intros ->. by exists v, items.
  - intros (? & ? & [= <-] & ? & ?). congruence.
Qed.

(** X13.  [validate_model] never raises, after one request.  It is [True]
    exactly when the available models can be gone through and one of them
    has the name asked for while every one before it has a name: an entry
    without a [name] ahead of the model makes the answer [False]. *)
Theorem validate_model_first_match name t :
  ∃ b logged,
    ModelManager.validate_model env name t =
      (inr b, t ++ EHttp default_tags :: logged) ∧
    Forall is_log logged ∧
    (b = true ↔
     ∃ models items i m,
       (ModelManager.get_available_models env t).1 = inr models ∧
       py_iter env models = inr items ∧
       items !! i = Some m ∧ getitem env m "name" = inr (PStr name) ∧
       ∀ j m', (j < i)%nat → items !! j = Some m' →
               ∃ n, getitem env m' "name" = inr n).
Proof.
  destruct (validate_model_spec name t) as (b & logged & E & Hlog & Hb).
  exists b, logged. split; [done|]. split; [done|]. rewrite Hb. split.
  - intros (models & items & Hm & Hi & (i & m & H)%any_named_true).
    by exists models, items, i, m.
  - intros (models & items & i & m & Hm & Hi & H).
    exists models, items. split; [done|]. split; [done|].
    apply any_named_true. by exists i, m.
Qed.

Lemma client_create_model_spec model_name modelfile_path t :
  ∃ d logged,
    Client.create_model env model_name modelfile_path t =
      (inr d, t ++ ESpawn (create_argv model_name modelfile_path) :: logged) ∧
    Forall is_log logged ∧
    ((d !! "status" = Some (PStr "success") ∧
      creates env t (create_argv model_name modelfile_path)) ∨
     (d !! "status" = Some (PStr "error") ∧
      ¬ creates env t (create_argv model_name modelfile_path))).
Proof.
  unfold Client.create_model, spawn, log, record_effect, creates.
  unfold_monad. fold (create_argv model_name modelfile_path).
  destruct (run_process env t _) as [stdout|stderr|e] eqn:Hrun.
  - destruct (loads_str env stdout) as [e|output] eqn:Hl.
    + destruct (is_json_decode_error e) eqn:Hj.
      * eexists _, []. split; [done|]. split; [done|]. left. split; [done|].
        exists stdout. split; [done|]. intros e0 He0. congruence.
      * eexists _, [_]. split; [by rewrite <- app_assoc|].
        split; [by repeat constructor|]. right. split; [done|].
        intros (s & [= <-] & H). specialize (H e Hl). congruence.
    + eexists _, []. split; [done|]. split; [done|]. left. split; [done|].
      exists stdout. split; [done|]. intros e. congruence.
  - eexists _, [_]. split; [by rewrite <- app_assoc|].
    split; [by repeat constructor|]. right. split; [done|]. by intros (s & ? & _).
  - eexists _, [_]. split; [by rewrite <- app_assoc|].
    split; [by repeat constructor|]. right. split; [done|]. by intros (s & ? & _).
Qed.

Lemma clean_up_spec path t :
  ModelManager.clean_up env path t =
    (inr tt,
     t ++ EUnlink path ::
       match os_unlink env t path with
       | None => []
       | Some e => [ELog LogWarning ("Failed to clean up modelfile: " +:+ str_exn e)]
       end).
Proof.
  unfold ModelManager.clean_up, ModelManager.unlink, try_except, log, record_effect.
  destruct (os_unlink env t path); [|done]. by rewrite <- app_assoc.
Qed.

Lemma create_research_model_spec base_model ctx_length t :
  ∃ checked,
    Forall is_log checked ∧
    let t1 := t ++ EHttp default_tags :: checked in
    let content := ModelManager.modelfile_content base_model ctx_length in
    (ModelManager.validate_model env base_model t = (inr false, t1) ∧
     ModelManager.create_research_model env base_model ctx_length t =
       (inr (false, "Base model " +:+ base_model +:+ " not found"), t1)) ∨
    (ModelManager.validate_model env base_model t = (inr true, t1) ∧
     ∃ e, named_temporary_file env t1 = inl e ∧
          ModelManager.create_research_model env base_model ctx_length t = (inl e, t1)) ∨
    (ModelManager.validate_model env base_model t = (inr true, t1) ∧
     ∃ modelfile_path e,
       named_temporary_file env t1 = inr modelfile_path ∧
       file_write env (t1 ++ [ETempFile modelfile_path]) modelfile_path content =
         Some e ∧
       ModelManager.create_research_model env base_model ctx_length t =
         (inl e, t1 ++ [ETempFile modelfile_path; EWrite modelfile_path content])) ∨
    (ModelManager.validate_model env base_model t = (inr true, t1) ∧
     ∃ modelfile_path logged ok msg,
       let t2 := t1 ++ [ETempFile modelfile_path; EWrite modelfile_path content] in
       let argv := create_argv (ModelManager.research_name base_model) modelfile_path in
       named_temporary_file env t1 = inr modelfile_path ∧
       file_write env (t1 ++ [ETempFile modelfile_path]) modelfile_path content = None ∧
       ModelManager.create_research_model env base_model ctx_length t =
         (inr (ok, msg),
          (t2 ++ ESpawn argv :: logged) ++ EUnlink modelfile_path ::
            match os_unlink env (t2 ++ ESpawn argv :: logged) modelfile_path with
            | None => []
            | Some e =>
                [ELog LogWarning ("Failed to clean up modelfile: " +:+ str_exn e)]
            end) ∧
       Forall is_log logged ∧
       (ok = true ↔ creates env t2 argv) ∧
       (ok = true → msg = "Successfully created model " +:+
                          ModelManager.research_name base_model)).
Proof.
  destruct (validate_model_spec base_model t) as (b & checked & Hv & Hlog & _).
  exists checked. split; [done|]. cbv zeta.
  unfold ModelManager.create_research_model. unfold mbind, M_bind.
  rewrite Hv. simpl.
  destruct b; simpl; [|by left]. right.
  unfold ModelManager.make_temp.
  destruct (named_temporary_file env _) as [e|path] eqn:Htemp; [left; eauto|].
  right. cbv zeta.
  destruct (file_write env _ path _) as [e|] eqn:Hw.
  { left. split; [done|]. exists path, e. split; [done|]. split; [done|].
    by rewrite <- app_assoc. }
  right. split; [done|]. unfold try_finally, try_except.
  assert (((t ++ EHttp default_tags :: checked) ++ [ETempFile path]) ++
          [EWrite path (ModelManager.modelfile_content base_model ctx_length)] =
          (t ++ EHttp default_tags :: checked) ++
          [ETempFile path;
           EWrite path (ModelManager.modelfile_content base_model ctx_length)])
    as -> by (by rewrite <- app_assoc).
  destruct (client_create_model_spec (ModelManager.research_name base_model) path
              ((t ++ EHttp default_tags :: checked) ++
               [ETempFile path;
                EWrite path (ModelManager.modelfile_content base_model ctx_length)]))
    as (d & logged & -> & Hlogged & Hd).
  unfold log, record_effect. unfold_monad.
  destruct Hd as [[Hs Hc]|[Hs Hc]]; unfold dict_get; rewrite Hs; simpl;
    rewrite clean_up_spec.
  - eexists path, (logged ++ [_]), true, _. split; [done|]. split; [done|].
    split; [by rewrite <- (app_assoc _ (ESpawn _ :: logged) _)|].
    split; [apply Forall_app; split; [done|by repeat constructor]|].
    split; [done|]. done.
  - eexists path, (logged ++ [_]), false, _. split; [done|]. split; [done|].
    split; [by rewrite <- (app_assoc _ (ESpawn _ :: logged) _)|].
    split; [apply Forall_app; split; [done|by repeat constructor]|].
    split; [done|]. done.
Qed.

(** X14.  [create_research_model] calls [os.unlink] on the modelfile once
    it has written it: after the request that validates the base model,
    either no file is created and no program is run; or the file is created
    and the write raises, and then the exception is raised and [os.unlink]
    is never called, so the file stays; or the file is created and written,
    [ollama create] is run next on that path under the research name, and
    [os.unlink] is called on the path once, after the run and its log
    records, whether the creation worked or not.  In the last case a pair is
    returned and nothing is raised, and when [os.unlink] fails the warning
    is logged and nothing else is done. *)
Theorem research_modelfile_is_unlinked base_model ctx_length t :
  ∃ r checked rest,
    ModelManager.create_research_model env base_model ctx_length t =
      (r, t ++ EHttp default_tags :: checked ++ rest) ∧
    Forall is_log checked ∧
    let t1 := t ++ EHttp default_tags :: checked in
    let content := ModelManager.modelfile_content base_model ctx_length in
    ((rest = [] ∧ ∀ ok msg, r = inr (ok, msg) → ok = false) ∨
     (∃ modelfile_path e,
        rest = [ETempFile modelfile_path; EWrite modelfile_path content] ∧
        file_write env (t1 ++ [ETempFile modelfile_path]) modelfile_path content =
          Some e ∧
        r = inl e) ∨
     (∃ modelfile_path logged ok msg,
        let run :=
          [ETempFile modelfile_path; EWrite modelfile_path content;
           ESpawn ["ollama"; "create"; ModelManager.research_name base_model;
                   "-f"; modelfile_path]] ++ logged in
        file_write env (t1 ++ [ETempFile modelfile_path]) modelfile_path content =
          None ∧
        Forall is_log logged ∧ r = inr (ok, msg) ∧
        match os_unlink env (t1 ++ run) modelfile_path with
        | None => rest = run ++ [EUnlink modelfile_path]
        | Some e =>
            rest = run ++
                   [EUnlink modelfile_path;
                    ELog LogWarning ("Failed to clean up modelfile: " +:+ str_exn e)]
        end)).
Proof.
  destruct (create_research_model_spec base_model ctx_length t)
    as (checked & Hlog & [[_ E]|[[_ (e & _ & E)]|[[_ H]|[_ H]]]]).
  - eexists _, checked, []. rewrite app_nil_r. split; [done|]. split; [done|].
    left. split; [done|]. by intros ok msg [= <- _].
  - eexists _, checked, []. rewrite app_nil_r. split; [done|]. split; [done|].
    left. split; [done|]. by intros ok msg [=].
  - destruct H as (path & e & _ & Hw & E).
    eexists _, checked, _. split.
    { rewrite E. f_equal. rewrite <- app_assoc. reflexivity. }
    split; [done|]. right. left. by exists path, e.
  - destruct H as (path & logged & ok & msg & _ & Hw & E & Hlogged & _).
    cbv zeta in E.
    set (run := [ETempFile path;
                 EWrite path (ModelManager.modelfile_content base_model ctx_length);
                 ESpawn ["ollama"; "create"; ModelManager.research_name base_model;
                         "-f"; path]] ++ logged).
    assert (((t ++ EHttp default_tags :: checked) ++
             [ETempFile path;
              EWrite path (ModelManager.modelfile_content base_model ctx_length)]) ++
            ESpawn (create_argv (ModelManager.research_name base_model) path)
              :: logged =
            (t ++ EHttp default_tags :: checked) ++ run) as Htr
      by (unfold run; by rewrite <- app_assoc).
    rewrite Htr in E.
    exists (inr (ok, msg)), checked,
      (run ++ EUnlink path ::
         match os_unlink env ((t ++ EHttp default_tags :: checked) ++ run) path with
         | None => []
         | Some e =>
             [ELog LogWarning ("Failed to clean up modelfile: " +:+ str_exn e)]
         end).
    split.
    { rewrite E. f_equal.
      generalize (match os_unlink env ((t ++ EHttp default_tags :: checked) ++ run)
                          path with
                  | None => []
                  | Some e =>
                      [ELog LogWarning
                         ("Failed to clean up modelfile: " +:+ str_exn e)]
                  end).
      intros tail. by rewrite <- !app_assoc. }
    split; [done|]. right. right. exists path, logged, ok, msg. cbv zeta.
    split; [done|]. split; [done|]. split; [done|]. fold run.
    by destruct (os_unlink env _ path).
Qed.

(** X15.  What [create_research_model] answers.  It raises only what
    creating or writing the modelfile raises, and only for a validated base
    model.  It answers [True], with the message of success, exactly when the
    base model is validated, the modelfile is created and written and the
    run of [ollama create] exits with 0; a base model that is not validated
    gives [False] and the message that it is not found. *)
Theorem research_model_outcome base_model ctx_length t :
  ∃ found t1,
    ModelManager.validate_model env base_model t = (inr found, t1) ∧
    let content := ModelManager.modelfile_content base_model ctx_length in
    let written modelfile_path :=
      named_temporary_file env t1 = inr modelfile_path ∧
      file_write env (t1 ++ [ETempFile modelfile_path]) modelfile_path content = None in
    let run modelfile_path :=
      creates env
        (t1 ++ [ETempFile modelfile_path; EWrite modelfile_path content])
        (create_argv (ModelManager.research_name base_model) modelfile_path) in
    match (ModelManager.create_research_model env base_model ctx_length t).1 with
    | inl e =>
        found = true ∧
        (named_temporary_file env t1 = inl e ∨
         ∃ modelfile_path,
           named_temporary_file env t1 = inr modelfile_path ∧
           file_write env (t1 ++ [ETempFile modelfile_path]) modelfile_path content =
             Some e)
    | inr (true, msg) =>
        found = true ∧
        msg = "Successfully created model " +:+ ModelManager.research_name base_model ∧
        ∃ modelfile_path, written modelfile_path ∧ run modelfile_path
    | inr (false, msg) =>
        (found = false ∧ msg = "Base model " +:+ base_model +:+ " not found") ∨
        (found = true ∧
         ∃ modelfile_path, written modelfile_path ∧ ¬ run modelfile_path)
    end.
Proof.
  destruct (create_research_model_spec base_model ctx_length t)
    as (checked & Hlog & [[Hv E]|[[Hv (e & He & E)]|[[Hv H]|[Hv H]]]]).
  - eexists _, _. split; [exact Hv|]. rewrite E. simpl. by left.
  - eexists _, _. split; [exact Hv|]. rewrite E. simpl. split; [done|]. by left.
  - destruct H as (path & e & Hp & Hw & E).
    eexists _, _. split; [exact Hv|]. rewrite E. simpl. split; [done|].
    right. by exists path.
  - destruct H as (path & logged & ok & msg & Hp & Hw & E & _ & Hok & Hmsg).
    eexists _, _. split; [exact Hv|]. cbv zeta in *. rewrite E. simpl. destruct ok.
    + split; [done|]. split; [by apply Hmsg|]. exists path. split; [done|].
      by apply Hok.
    + right. split; [done|]. exists path. split; [done|].
      intros Hc. apply Hok in Hc. done.
Qed.

(** X16.  The name [create_research_model] gives a model holds no colon and
    is the base model's name behind [research-] when that holds none; and
    [render_model_selector] puts a model of that name under the research
    models, whatever else is known of it. *)
Theorem research_name_is_research base_model :
  split_colon (ModelManager.research_name base_model) = None ∧
  (split_colon base_model = None →
   ModelManager.research_name base_model = "research-" +:+ base_model) ∧
  ∀ info models research recommended other,
    info !! "name" = Some (PStr (ModelManager.research_name base_model)) →
    ModelManager.categorize env (PDict info :: models) research recommended other =
    ModelManager.categorize env models (research ++ [PDict info]) recommended other.
Proof.
  split; [|split].
  - unfold ModelManager.research_name. simpl.
    change ("" +:+ replace_colon base_model) with (replace_colon base_model).
    by rewrite replace_colon_no_colon.
  - intros H. unfold ModelManager.research_name. by rewrite replace_colon_fixed.
  - intros info models research recommended other Hname.
    change (ModelManager.categorize env (PDict info :: models) research recommended other)
      with (match getitem env (PDict info) "name" with
            | inl e => inl e
            | inr model_name =>
                match py_startswith env model_name "research-" with
                | inl e => inl e
                | inr true =>
                    ModelManager.categorize env models (research ++ [PDict info])
                      recommended other
                | inr false =>
                    if ModelManager.is_recommended model_name
                    then ModelManager.categorize env models research
                           (recommended ++ [PDict info]) other
                    else ModelManager.categorize env models research recommended
                           (other ++ [PDict info])
                end
            end).
    unfold getitem. rewrite Hname. unfold py_startswith, startswith.
    unfold ModelManager.research_name.
    assert (String.prefix "research-" ("research-" +:+ replace_colon base_model) = true)
      as -> by (apply prefix_split; by eexists).
    done.
Qed.

Lemma categorize_spec models research recommended other research' recommended' other' :
  ModelManager.categorize env models research recommended other =
    inr (research', recommended', other') →
  ∃ r c o,
    research' = research ++ r ∧ recommended' = recommended ++ c ∧
    other' = other ++ o ∧
    r ++ c ++ o ≡ₚ models ∧
    r `sublist_of` models ∧ c `sublist_of` models ∧ o `sublist_of` models ∧
    Forall (λ m, named env m (λ s, startswith s "research-" = true)) r ∧
    Forall (λ m, named env m (λ s, startswith s "research-" = false ∧
                                   ModelManager.is_recommended (PStr s) = true)) c ∧
    Forall (λ m, named env m (λ s, startswith s "research-" = false ∧
                                   ModelManager.is_recommended (PStr s) = false)) o.
Proof.
  revert research recommended other.
  induction models as [|m models IH]; intros research recommended other; simpl.
  { intros [= <- <- <-]. exists [], [], []. rewrite !app_nil_r. by repeat split. }
  destruct (getitem env m "name") as [e|n] eqn:Hn; [done|].
  destruct n as [| | | |s| |]; simpl; try done.
  destruct (startswith s "research-") eqn:Hs.
  - intros H. destruct (IH _ _ _ H)
      as (r & c & o & -> & -> & -> & Hp & Hr & Hc & Ho & Fr & Fc & Fo).
    exists (m :: r), c, o. rewrite <- app_assoc. split; [done|]. split; [done|].
    split; [done|]. split; [simpl; by rewrite Hp|].
    split; [by apply sublist_skip|]. split; [by apply sublist_cons|].
    split; [by apply sublist_cons|]. split; [|done].
    constructor; [|done]. by exists s.
  - destruct (ModelManager.is_recommended (PStr s)) eqn:Hrec.
    + intros H. destruct (IH _ _ _ H)
        as (r & c & o & -> & -> & -> & Hp & Hr & Hc & Ho & Fr & Fc & Fo).
      exists r, (m :: c), o. rewrite <- app_assoc. split; [done|]. split; [done|].
      split; [done|]. split.
      { rewrite <- Hp. by rewrite Permutation_middle. }
      split; [by apply sublist_cons|]. split; [by apply sublist_skip|].
      split; [by apply sublist_cons|]. split; [done|]. split; [|done].
      constructor; [|done]. by exists s.
    + intros H. destruct (IH _ _ _ H)
        as (r & c & o & -> & -> & -> & Hp & Hr & Hc & Ho & Fr & Fc & Fo).
      exists r, c, (m :: o). rewrite <- app_assoc. split; [done|]. split; [done|].
      split; [done|]. split.
      { rewrite <- Hp. rewrite (app_assoc r c (m :: o)), (app_assoc r c o).
        by rewrite Permutation_middle. }
      split; [by apply sublist_cons|]. split; [by apply sublist_cons|].
      split; [by apply sublist_skip|]. split; [done|]. split; [done|].
      constructor; [|done]. by exists s.
Qed.

(** X17.  The loop of [render_model_selector] sorts the models without
    losing, repeating or reordering any: the three lists together are a
    permutation of the models and each keeps their order.  Every model
    sorted has a [str] name; the research models are those whose name
    starts with [research-], the recommended ones are the others with the
    name of a recommended base, whose name thus holds no colon, and the
    rest is neither. *)
Theorem categorize_partitions models research recommended other :
  ModelManager.categorize env models [] [] [] = inr (research, recommended, other) →
  research ++ recommended ++ other ≡ₚ models ∧
  research `sublist_of` models ∧ recommended `sublist_of` models ∧
  other `sublist_of` models ∧
  Forall (λ m, named env m (λ s, startswith s "research-" = true)) research ∧
  Forall (λ m, named env m (λ s, startswith s "research-" = false ∧
                                 ModelManager.is_recommended (PStr s) = true ∧
                                 split_colon s = None)) recommended ∧
  Forall (λ m, named env m (λ s, startswith s "research-" = false ∧
                                 ModelManager.is_recommended (PStr s) = false)) other.
Proof.
  intros H. destruct (categorize_spec _ _ _ _ _ _ _ H)
    as (r & c & o & -> & -> & -> & Hp & Hr & Hc & Ho & Fr & Fc & Fo).
  simpl. repeat split; try done.
  eapply Forall_impl; [exact Fc|]. intros m (s & Hs & H1 & H2).
  exists s. split; [done|]. split; [done|]. split; [done|].
  by apply recommended_has_no_tag.
Qed.

Lemma names_of_elem models names n :
  names_of env models = inr names → n ∈ names →
  ∃ m, m ∈ models ∧ getitem env m "name" = inr n.
Proof.
  revert names. induction models as [|m models IH]; intros names; simpl.
  { intros [= <-]. by intros ?%elem_of_nil. }
  destruct (getitem env m "name") as [e|x] eqn:Hx; [done|].
  destruct (names_of env models) as [e|ns]; [done|]. intros [= <-].
  intros [->|Hn]%elem_of_cons.
  - exists m. split; [by left|done].
  - destruct (IH ns eq_refl Hn) as (m' & ? & ?). exists m'. split; [by right|done].
Qed.

Lemma tab_spec models label note with_description t :
  match ModelManager.tab env models label note with_description t with
  | (inl e, t') => models ≠ [] ∧ names_of env models = inl e ∧ t' = t
  | (inr None, t') =>
      (models = [] ∧ t' = t ++ [EShow Page UiInfo (PStr note)]) ∨
      (∃ names, models ≠ [] ∧ names_of env models = inr names ∧
                truthy (st_selectbox env t label names) = false ∧
                t' = t ++ [EWidget label names])
  | (inr (Some v), t') =>
      ∃ names shown,
        models ≠ [] ∧ names_of env models = inr names ∧
        v = st_selectbox env t label names ∧ truthy v = true ∧
        t' = t ++ EWidget label names :: shown ∧ Forall is_info shown
  end.
Proof.
  unfold ModelManager.tab. destruct models as [|m models].
  { left. done. }
  unfold ModelManager.selectbox, ModelManager.describe, show, record_effect.
  unfold_monad. unfold_monad.
  destruct (names_of env (m :: models)) as [e|names] eqn:Hn; simpl; [done|].
  destruct (truthy (st_selectbox env t label names)) eqn:Ht.
  - destruct with_description.
    + repeat (match goal with
              | |- context [if eq_str ?a ?b then _ else _] => destruct (eq_str a b)
              end); simpl;
        first [ by (exists names, []; repeat split)
              | eexists names, [_]; rewrite <- app_assoc;
                repeat split; try done; by repeat constructor ].
    + simpl. exists names, []. by repeat split.
  - right. exists names. by repeat split.
Qed.

Lemma render_model_selector_spec t v t' :
  ModelManager.render_model_selector env t = (inr v, t') →
  ∃ models checked,
    ModelManager.get_available_models env t =
      (inr models, t ++ EHttp default_tags :: checked) ∧
    Forall is_log checked ∧
    ((truthy models = false ∧ v = PNone ∧
      t' = (t ++ EHttp default_tags :: checked) ++ [no_models_warning]) ∨
     (truthy models = true ∧ v = PNone) ∨
     (truthy models = true ∧ truthy v = true ∧
      ∃ items shortlist names before label shown,
        py_iter env models = inr items ∧ shortlist `sublist_of` items ∧
        names_of env shortlist = inr names ∧ names ≠ [] ∧
        t' = before ++ EWidget label names :: shown ∧
        v = st_selectbox env before label names ∧
        Forall is_info shown)).
Proof.
  destruct (get_available_models_spec t) as (models & checked & Hg & Hlog & _).
  intros H. exists models, checked. split; [done|].
  split; [exact (Forall_impl _ _ _ Hlog not_warning_is_log)|].
  revert H. unfold ModelManager.render_model_selector.
  unfold mbind at 1. unfold M_bind at 1. rewrite Hg.
  destruct (truthy models) eqn:Htr; simpl.
  2:{ unfold show, record_effect. unfold_monad. intros [= <- <-]. by left. }
  unfold mbind at 1. unfold M_bind at 1.
  destruct (py_iter env models) as [e|items] eqn:Hi; simpl; [done|].
  unfold mbind at 1. unfold M_bind at 1.
  destruct (ModelManager.categorize env items [] [] [])
    as [e|[[research recommended] other]] eqn:Hc; simpl; [done|].
  destruct (categorize_spec _ _ _ _ _ _ _ Hc)
    as (r & c & o & -> & -> & -> & _ & Hr & Hrc & Ho & _).
  simpl.
  unfold mbind at 1. unfold M_bind at 1. unfold record_effect at 1.
  unfold mbind at 1. unfold M_bind at 1.
  assert (∀ shortlist label note d tr,
    shortlist `sublist_of` items →
    match ModelManager.tab env shortlist label note d tr with
    | (inr (Some v0), tr') =>
        truthy v0 = true ∧
        ∃ names shown, names_of env shortlist = inr names ∧ names ≠ [] ∧
          tr' = tr ++ EWidget label names :: shown ∧
          v0 = st_selectbox env tr label names ∧ Forall is_info shown
    | _ => True
    end) as Htab.
  { intros shortlist label note d tr Hsub.
    pose proof (tab_spec shortlist label note d tr) as Ht.
    destruct (ModelManager.tab env shortlist label note d tr) as [[e|[v0|]] tr'];
      try done.
    destruct Ht as (names & shown & Hne & Hn & -> & Htv & -> & Hshown).
    split; [done|]. exists names, shown. repeat split; try done.
    intros ->. destruct shortlist as [|m l]; [done|]. simpl in Hn.
    destruct (getitem env m "name"); [done|].
    by destruct (names_of env l). }
  match goal with
  | |- context [ModelManager.tab env r ?l ?n ?d ?tr] =>
      pose proof (Htab r l n d tr Hr) as H1;
      destruct (ModelManager.tab env r l n d tr) as [[e|[v1|]] t1]; [done| |]
  end.
  { unfold_monad. intros [= <- <-]. right. right.
    destruct H1 as (Htv & names & shown & Hn & Hne & -> & -> & Hshown).
    split; [done|]. split; [done|]. by eexists items, r, names, _, _, shown. }
  unfold mbind at 1. unfold M_bind at 1.
  match goal with
  | |- context [ModelManager.tab env c ?l ?n ?d ?tr] =>
      pose proof (Htab c l n d tr Hrc) as H2;
      destruct (ModelManager.tab env c l n d tr) as [[e|[v2|]] t2]; [done| |]
  end.
  { unfold_monad. intros [= <- <-]. right. right.
    destruct H2 as (Htv & names & shown & Hn & Hne & -> & -> & Hshown).
    split; [done|]. split; [done|]. by eexists items, c, names, _, _, shown. }
  unfold mbind at 1. unfold M_bind at 1.
  match goal with
  | |- context [ModelManager.tab env o ?l ?n ?d ?tr] =>
      pose proof (Htab o l n d tr Ho) as H3;
      destruct (ModelManager.tab env o l n d tr) as [[e|[v3|]] t3]; [done| |]
  end.
  { unfold_monad. intros [= <- <-]. right. right.
    destruct H3 as (Htv & names & shown & Hn & Hne & -> & -> & Hshown).
    split; [done|]. split; [done|]. by eexists items, o, names, _, _, shown. }
  unfold_monad. intros [= <- <-]. right. by left.
Qed.

(** X18.  What [render_model_selector] returns is [None] or a truthy
    selection.  A selection returned is the answer of the last select box
    drawn, and after it nothing but a description is shown: the tabs behind
    the one that gave the selection stay empty.  When the available models
    are falsy, it returns [None] and shows the warning only, with no tab and
    no select box. *)
Theorem selector_returns_last_selection t v t' :
  ModelManager.render_model_selector env t = (inr v, t') →
  (v = PNone ∨ truthy v = true) ∧
  (truthy v = true →
   ∃ before label names shown,
     t' = before ++ EWidget label names :: shown ∧
     v = st_selectbox env before label names ∧ Forall is_info shown) ∧
  (∀ models, (ModelManager.get_available_models env t).1 = inr models →
     truthy models = false →
     v = PNone ∧
     ∃ checked, t' = t ++ EHttp default_tags :: checked ++ [no_models_warning] ∧
                Forall is_log checked).
Proof.
  intros H.
  destruct (render_model_selector_spec t v t' H)
    as (models & checked & Hg & Hlog & [(Htr & -> & ->)|[(Htr & ->)|(Htr & Hv & Hsel)]]).
  - split; [by left|]. split; [done|]. intros models' Hm' _. split; [done|].
    exists checked. split; [|done]. by rewrite <- app_assoc.
  - split; [by left|]. split; [done|]. intros models' Hm' Hf.
    rewrite Hg in Hm'. simpl in Hm'. congruence.
  - split; [by right|]. split.
    + intros _. destruct Hsel as (items & sl & names & before & label & shown & H').
      exists before, label, names, shown. by destruct H' as (_ & _ & _ & _ & ? & ? & ?).
    + intros models' Hm' Hf. rewrite Hg in Hm'. simpl in Hm'. congruence.
Qed.

(** X19.  With select boxes that answer with one of their options, a
    selection [render_model_selector] returns is the name of one of the
    available models. *)
Theorem selector_returns_listed_name t v t' :
  (∀ tr label options, options ≠ [] → st_selectbox env tr label options ∈ options) →
  ModelManager.render_model_selector env t = (inr v, t') →
  v ≠ PNone →
  ∃ models items m,
    (ModelManager.get_available_models env t).1 = inr models ∧
    py_iter env models = inr items ∧
    m ∈ items ∧ getitem env m "name" = inr v.
Proof.
  intros Hbox H Hv.
  destruct (render_model_selector_spec t v t' H)
    as (models & checked & Hg & Hlog & [(_ & ? & _)|[(_ & ?)|(Htr & _ & Hsel)]]);
    [done|done|].
  destruct Hsel as (items & sl & names & before & label & shown &
                    Hi & Hsub & Hn & Hne & _ & -> & _).
  destruct (names_of_elem sl names _ Hn (Hbox before label names Hne))
    as (m & Hm & Hname).
  exists models, items, m. rewrite Hg. split; [done|]. split; [done|].
  split; [|done]. by eapply elem_of_sublist.
Qed.

End ManagerExtras.

(** ** The app: properties *)

Lemma contains_split needle s : contains needle s = true ↔ occurs needle s.
Proof.
  unfold occurs. induction s as [|c s IH].
  - change (contains needle "") with (String.prefix needle "" || false).
    rewrite orb_false_r, prefix_split. split.
    + intros (post & ->). by exists "", post.
    + intros ([|? pre] & post & E); [by exists post|done].
  - change (contains needle (String c s))
      with (String.prefix needle (String c s) || contains needle s).
    rewrite orb_true_iff, prefix_split, IH. split.
    + intros [(post & E)|(pre & post & ->)].
      * by exists "", post.
      * by exists (String c pre), post.
    + intros ([|c' pre] & post & E).
      * left. by exists post.
      * right. injection E as -> ->. by exists pre, post.
Qed.

(** X23.  [update_progress] sets the progress bar and then shows the
    message in one place only, the first that fits: the plan container
    (under a heading) when [Research Plan] occurs in the message, else the
    areas container when [Researching area] occurs, else the final container
    when [Research complete] occurs, else the page. *)
Theorem progress_message_goes_to_one_place message progress t :
  ∃ shown,
    App.update_progress message progress t =
      (inr tt, t ++ EShow ProgressContainer UiProgress progress :: shown) ∧
    (occurs "Research Plan" message →
     shown = [EShow PlanContainer UiMarkdown (PStr "## Research Plan");
              EShow PlanContainer UiMarkdown (PStr message)]) ∧
    (¬ occurs "Research Plan" message → occurs "Researching area" message →
     shown = [EShow AreasContainer UiMarkdown (PStr message)]) ∧
    (¬ occurs "Research Plan" message → ¬ occurs "Researching area" message →
     occurs "Research complete" message →
     shown = [EShow FinalContainer UiSuccess (PStr message)]) ∧
    (¬ occurs "Research Plan" message → ¬ occurs "Researching area" message →
     ¬ occurs "Research complete" message →
     shown = [EShow Page UiMarkdown (PStr message)]).
Proof.
  unfold App.update_progress, record_effect. unfold_monad.
  destruct (contains "Research Plan" message) eqn:H1;
    [|destruct (contains "Researching area" message) eqn:H2;
      [|destruct (contains "Research complete" message) eqn:H3]];
    (eexists; rewrite <- !app_assoc; split; [reflexivity|]);
    repeat split; intros;
    first [ reflexivity
          | exfalso;
            match goal with
            | H : occurs ?n ?s, E : contains ?n ?s = false |- _ =>
                apply contains_split in H; congruence
            | H : ¬ occurs ?n ?s, E : contains ?n ?s = true |- _ =>
                apply H, contains_split, E
            end ].
Qed.

(** X24.  [initialize_session_state] leaves a session state with a [config]
    and a [research_results] entry, keeps every entry that was there, these
    two included, touches no other key, and does nothing when run again. *)
Theorem session_state_is_initialised_once session :
  is_Some (App.initialize_session_state session !! "config") ∧
  is_Some (App.initialize_session_state session !! "research_results") ∧
  (∀ k v, session !! k = Some v → App.initialize_session_state session !! k = Some v) ∧
  (∀ k, k ≠ "config" → k ≠ "research_results" →
        App.initialize_session_state session !! k = session !! k) ∧
  App.initialize_session_state (App.initialize_session_state session) =
    App.initialize_session_state session.
Proof.
  unfold App.initialize_session_state.
  destruct (session !! "config") as [c|] eqn:Hc;
    destruct (session !! "research_results") as [r|] eqn:Hr;
    repeat (rewrite ?Hc, ?Hr, ?lookup_insert_eq;
            try rewrite lookup_insert_ne by done);
    repeat split; try done; intros;
    repeat (rewrite lookup_insert_ne; [|congruence]); done.
Qed.

Section AppExtras.

Variable env : environment.
Variable OLLAMA_URL : string.

Lemma app_create_model_no_delete t :
  ∃ b new, App.create_model env OLLAMA_URL t = (inr b, t ++ new) ∧
           Forall (λ e, ¬ is_delete e) new.
Proof.
  unfold App.create_model, try_except, http_request, show, record_effect.
  unfold_monad.
  destruct (http env _ _) as [e|r1]; simpl.
  { eexists _, _. rewrite <- !app_assoc. split; [reflexivity|].
    repeat constructor; simpl; by auto. }
  destruct (App.not_ok r1); simpl.
  { eexists _, _. rewrite <- !app_assoc. split; [reflexivity|].
    repeat constructor; simpl; by auto. }
  destruct (http env _ _) as [e|r2]; simpl.
  { eexists _, _. rewrite <- !app_assoc. split; [reflexivity|].
    repeat constructor; simpl; by auto. }
  destruct (App.not_ok r2); simpl.
  - eexists _, _. rewrite <- !app_assoc. split; [reflexivity|].
    repeat constructor; simpl; by auto.
  - eexists _, _. rewrite <- !app_assoc. split; [reflexivity|].
    repeat constructor; simpl; by auto.
Qed.

(** X20.  The app's [create_model] never raises.  It posts the pull first,
    and posts the creation exactly when the pull is answered with status
    200; it returns [True] exactly when both are answered with 200, which is
    exactly when its last message is the one of success. *)
Theorem create_follows_pull t :
  let t1 := t ++ [EShow Page UiSpinner (PStr "Pulling base Phi model...")] in
  let t2 := t1 ++ [EHttp (pull_call OLLAMA_URL);
                   EShow Page UiSpinner (PStr "Creating researcher model...")] in
  ∃ b after,
    App.create_model env OLLAMA_URL t =
      (inr b, t1 ++ EHttp (pull_call OLLAMA_URL) :: after) ∧
    (b = true ↔ answered_ok env t1 (pull_call OLLAMA_URL) ∧
                answered_ok env t2 (create_call OLLAMA_URL)) ∧
    (EHttp (create_call OLLAMA_URL) ∈ after ↔
     answered_ok env t1 (pull_call OLLAMA_URL)) ∧
    (b = true ↔
     last after = Some (EShow Page UiSuccess (PStr "Model created successfully!"))).
Proof.
  intros t1 t2. unfold App.create_model, try_except, http_request, show, record_effect.
  unfold_monad. fold (pull_call OLLAMA_URL) (create_call OLLAMA_URL). fold t1.
  unfold answered_ok, App.not_ok.
  destruct (http env t1 (pull_call OLLAMA_URL)) as [e|r1] eqn:H1; simpl.
  { eexists false, [_]. rewrite <- app_assoc. split; [done|]. split.
    { split; [done|]. by intros [(? & ? & _) _]. }
    split; [|done]. split.
    - intros [?|?%elem_of_nil]%elem_of_cons; done.
    - by intros (? & ? & _). }
  destruct (Z.eqb_spec (status_code r1) 200) as [E1|E1]; simpl.
  2:{ eexists false, [_]. rewrite <- app_assoc. split; [done|]. split.
      { split; [done|]. intros [(? & [= <-] & ?) _]. done. }
      split; [|done]. split.
      - intros [?|?%elem_of_nil]%elem_of_cons; done.
      - intros (? & [= <-] & ?). done. }
  rewrite <- !app_assoc. simpl. fold t2.
  replace (t ++ EShow Page UiSpinner (PStr "Pulling base Phi model...")
             :: EHttp (pull_call OLLAMA_URL)
             :: [EShow Page UiSpinner (PStr "Creating researcher model...")])
    with t2 by (unfold t2, t1; by rewrite <- !app_assoc).
  destruct (http env t2 (create_call OLLAMA_URL)) as [e|r2] eqn:H2; simpl.
  { eexists false, [_; _; _]. unfold t2. rewrite <- !app_assoc. simpl.
    split; [unfold t1; by rewrite <- !app_assoc|]. split.
    { split; [done|]. by intros [_ (? & ? & _)]. }
    split; [|done]. split; [by eexists|]. intros _.
    apply elem_of_cons. right. by left. }
  destruct (Z.eqb_spec (status_code r2) 200) as [E2|E2]; simpl.
  - eexists true, [_; _; _]. unfold t2. rewrite <- !app_assoc. simpl.
    split; [unfold t1; by rewrite <- !app_assoc|]. split.
    { split; [|done]. intros _. split; by eexists. }
    split; [|done]. split; [by eexists|]. intros _.
    apply elem_of_cons. right. by left.
  - eexists false, [_; _; _]. unfold t2. rewrite <- !app_assoc. simpl.
    split; [unfold t1; by rewrite <- !app_assoc|]. split.
    { split; [done|]. intros [_ (? & [= <-] & ?)]. done. }
    split; [|done]. split; [by eexists|]. intros _.
    apply elem_of_cons. right. by left.
Qed.


(** X21.  [verify_model] never raises, after one request for the tags.  It
    is [True] exactly when the request is answered with status 200 and the
    names listed can be read and one of them starts with [researcher], the
    ones before it being strings; then nothing is shown.  When it is
    [False] an error message is shown first; and once the button to create
    the model has been offered the answer is [False], whatever the creation
    gives. *)
Theorem verify_model_reports_missing_model t :
  ∃ b shown,
    App.verify_model env OLLAMA_URL t =
      (inr b, t ++ EHttp (tags_call OLLAMA_URL) :: shown) ∧
    (b = true ↔
     answered_ok env t (tags_call OLLAMA_URL) ∧
     ∃ models, listed_names env OLLAMA_URL t = inr models ∧
               App.any_startswith env models "researcher" = inr true) ∧
    (b = true → shown = []) ∧
    (b = false → ∃ first rest, shown = first :: rest ∧ is_error_message first) ∧
    (EWidget "Create Model" [] ∈ shown → b = false).
Proof.
  unfold App.verify_model, try_except, http_request, show, record_effect, button.
  unfold answered_ok, listed_names.
  unfold mbind at 1. unfold M_bind at 1. fold (tags_call OLLAMA_URL).
  destruct (http env t (tags_call OLLAMA_URL)) as [e|r] eqn:Hr; simpl.
  { unfold_monad. eexists false, [_]. rewrite <- app_assoc. split; [done|].
    split; [split; [done|]; by intros [(? & ? & _) _]|].
    split; [done|]. split; [by eexists _, _|done]. }
  destruct (Z.eqb_spec (status_code r) 200) as [E|E]; simpl.
  2:{ unfold_monad. eexists false, [_]. rewrite <- app_assoc. split; [done|].
      split; [split; [done|]; intros [(? & [= <-] & ?) _]; done|].
      split; [done|]. split; [by eexists _, _|done]. }
  unfold_monad. unfold_monad.
  destruct (json_result r) as [e|body]; simpl.
  { eexists false, [_]. rewrite <- app_assoc. split; [done|].
    split; [split; [done|]; by intros [_ (? & ? & _)]|].
    split; [done|]. split; [by eexists _, _|done]. }
  destruct (getitem env body "models") as [e|listed]; simpl.
  { eexists false, [_]. rewrite <- app_assoc. split; [done|].
    split; [split; [done|]; by intros [_ (? & ? & _)]|].
    split; [done|]. split; [by eexists _, _|done]. }
  destruct (py_iter env listed) as [e|items]; simpl.
  { eexists false, [_]. rewrite <- app_assoc. split; [done|].
    split; [split; [done|]; by intros [_ (? & ? & _)]|].
    split; [done|]. split; [by eexists _, _|done]. }
  destruct (names_of env items) as [e|models]; simpl.
  { eexists false, [_]. rewrite <- app_assoc. split; [done|].
    split; [split; [done|]; by intros [_ (? & ? & _)]|].
    split; [done|]. split; [by eexists _, _|done]. }
  destruct (App.any_startswith env models "researcher") as [e|found] eqn:Hf; simpl.
  { eexists false, [_]. rewrite <- app_assoc. split; [done|].
    split; [split; [done|]; intros [_ (? & [= <-] & ?)]; congruence|].
    split; [done|]. split; [by eexists _, _|done]. }
  destruct found; cbn [negb]; cbv beta iota.
  { exists true, []. split; [done|].
    split; [split; [|done]; intros _; split; [by eexists|by eexists]|].
    split; [done|]. split; [done|]. by intros ?%elem_of_nil. }
  destruct (st_button env _ "Create Model"); cbv beta iota.
  - match goal with
    | |- context [App.create_model env OLLAMA_URL ?tr] =>
        destruct (app_create_model_no_delete tr) as (b & new & -> & _)
    end.
    cbv beta iota.
    eexists false, (_ :: _ :: new).
    split.
    { f_equal. repeat (rewrite <- app_assoc; simpl). reflexivity. }
    split; [split; [discriminate|]; intros [_ (? & [= <-] & ?)]; congruence|].
    split; [discriminate|]. split; [intros _; by eexists _, _|done].
  - eexists false, [_; _]. rewrite <- !app_assoc. split; [reflexivity|].
    split; [split; [discriminate|]; intros [_ (? & [= <-] & ?)]; congruence|].
    split; [discriminate|]. split; [intros _; by eexists _, _|done].
Qed.

Lemma delete_model_trace model_name t :
  ∃ b k text,
    App.delete_model env OLLAMA_URL model_name t =
      (inr b, t ++ [EHttp (delete_call OLLAMA_URL model_name);
                    EShow Page k (PStr text)]).
Proof.
  unfold App.delete_model, try_except, http_request, show, record_effect.
  unfold_monad. fold (delete_call OLLAMA_URL model_name).
  destruct (http env t _) as [e|r]; simpl.
  { eexists _, _, _. by rewrite <- app_assoc. }
  destruct (status_code r =? 200); simpl; eexists _, _, _; by rewrite <- app_assoc.
Qed.

(** X22.  [delete_model] never raises.  It makes one [DELETE] request with
    the name and shows one message; it returns [True] exactly when the
    request is answered with status 200, and the message is one of success
    then and an error otherwise. *)
Theorem delete_model_reports_once model_name t :
  ∃ b k text,
    App.delete_model env OLLAMA_URL model_name t =
      (inr b, t ++ [EHttp (delete_call OLLAMA_URL model_name);
                    EShow Page k (PStr text)]) ∧
    (b = true ↔ answered_ok env t (delete_call OLLAMA_URL model_name)) ∧
    k = (if b then UiSuccess else UiError).
Proof.
  unfold App.delete_model, try_except, http_request, show, record_effect.
  unfold_monad. fold (delete_call OLLAMA_URL model_name). unfold answered_ok.
  destruct (http env t _) as [e|r]; simpl.
  { eexists false, _, _. rewrite <- app_assoc. split; [done|]. split; [|done].
    split; [done|]. by intros (? & ? & _). }
  destruct (Z.eqb_spec (status_code r) 200) as [E|E]; simpl.
  - eexists true, _, _. rewrite <- app_assoc. split; [done|]. split; [|done].
    split; [|done]. intros _. by eexists.
  - eexists false, _, _. rewrite <- app_assoc. split; [done|]. split; [|done].
    split; [done|]. intros (? & [= <-] & ?). done.
Qed.

End AppExtras.

(** ** The model creator: properties *)

Lemma before_trans a b c : before a b → before b c → before a c.
Proof. exact (StrictOrder_Transitive (R:=String_as_OT.lt) a b c). Qed.

Lemma compare_gt_before a b : String.compare a b = Gt → before b a.
Proof.
  unfold before. rewrite (String.compare_antisym a b).
  by destruct (String.compare b a).
Qed.

Lemma insert_sorted_elem s l x : x ∈ insert_sorted s l ↔ x = s ∨ x ∈ l.
Proof.
  induction l as [|y l IH]; simpl.
  { rewrite list_elem_of_singleton. split; [by left|]. intros [?|?%elem_of_nil]; done. }
  destruct (String.compare s y) eqn:E.
  - apply String.compare_eq_iff in E as ->. rewrite !elem_of_cons.
    split; [by right|]. by intros [->|?]; [left|].
  - by rewrite !elem_of_cons.
  - rewrite !elem_of_cons, IH. split.
    + intros [?|[?|?]]; [right; by left|by left|right; by right].
    + intros [?|[?|?]]; [right; by left|by left|right; by right].
Qed.

Lemma sorted_set_elem l x : x ∈ sorted_set l ↔ x ∈ l.
Proof.
  induction l as [|y l IH]; [done|]. simpl.
  rewrite insert_sorted_elem, IH, elem_of_cons. done.
Qed.

Lemma insert_sorted_sorted s l :
  StronglySorted before l → StronglySorted before (insert_sorted s l).
Proof.
  induction 1 as [|y l Hs IH Hy]; simpl.
  { by repeat constructor. }
  destruct (String.compare s y) eqn:E.
  - by constructor.
  - constructor; [by constructor|]. constructor; [done|].
    eapply Forall_impl; [exact Hy|]. intros z Hz. by eapply before_trans.
  - constructor; [done|]. apply Forall_forall. intros z Hz.
    apply insert_sorted_elem in Hz as [->|Hz].
    + by apply compare_gt_before.
    + rewrite Forall_forall in Hy. by apply Hy.
Qed.

Lemma sorted_set_sorted l : StronglySorted before (sorted_set l).
Proof.
  induction l as [|y l IH]; simpl; [constructor|]. by apply insert_sorted_sorted.
Qed.

Lemma all_strings_fmap names l : all_strings names = Some l ↔ names = PStr <$> l.
Proof.
  revert l. induction names as [|v names IH]; intros l; simpl.
  { split; [by intros [= <-]|]. by destruct l. }
  destruct v; try (split; [done|]; destruct l; simpl; congruence).
  destruct (all_strings names) as [l'|] eqn:E.
  - split.
    + intros [= <-]. simpl. f_equal. by apply IH.
    + destruct l as [|s' l'']; [done|]. simpl. intros [= -> H].
      apply IH in H. by injection H as ->.
  - split; [done|]. destruct l as [|s' l'']; [done|]. simpl. intros [= -> H].
    apply IH in H. done.
Qed.

Lemma all_strings_total names :
  (∀ v, v ∈ names → ∃ s, v = PStr s) → ∃ l, all_strings names = Some l.
Proof.
  induction names as [|v names IH]; intros Hall; [by exists []|]. simpl.
  destruct (Hall v) as (s & ->); [by left|].
  destruct IH as (l & ->); [intros x Hx; apply Hall; by right|]. by eexists.
Qed.

Lemma existsb_eq_str names b :
  existsb (λ n, eq_str n b) names = true ↔ PStr b ∈ names.
Proof.
  rewrite existsb_exists. split.
  - intros (x & Hx & Heq). apply list_elem_of_In in Hx.
    destruct x; try done. simpl in Heq. apply String.eqb_eq in Heq. by subst.
  - intros H. exists (PStr b). split; [by apply list_elem_of_In|].
    simpl. apply String.eqb_refl.
Qed.

Lemma add_recommended_elem names v :
  v ∈ ModelManager.add_recommended names ↔
  v ∈ names ∨ ∃ s, v = PStr s ∧ ModelManager.is_recommended (PStr s) = true.
Proof.
  assert (∀ names b v,
    v ∈ (if existsb (λ n, eq_str n b) names then names else names ++ [PStr b]) ↔
    v ∈ names ∨ v = PStr b) as Hstep.
  { intros ns b x. destruct (existsb _ ns) eqn:E.
    - apply existsb_eq_str in E. split; [by left|]. by intros [?| ->].
    - rewrite elem_of_app, list_elem_of_singleton. done. }
  unfold ModelManager.add_recommended. simpl. rewrite !Hstep.
  unfold ModelManager.is_recommended. simpl. split.
  - intros [[[?| ->]| ->]| ->]; [by left|right; by eexists..].
  - intros [?|(s & -> & H)]; [by repeat left|].
    rewrite !orb_true_iff, !String.eqb_eq in H.
    destruct H as [->|[->|[->|?]]]; [| | |done];
      [left; left; by right|left; by right|by right].
Qed.

Lemma all_strings_none names :
  all_strings names = None →
  all_strings (ModelManager.add_recommended names) = None.
Proof.
  intros Hn. destruct (all_strings (ModelManager.add_recommended names)) as [l|] eqn:E;
    [|done].
  apply all_strings_fmap in E.
  destruct (all_strings_total names) as (l' & Hl'); [|congruence].
  intros v Hv.
  assert (v ∈ ModelManager.add_recommended names) as H
    by (apply add_recommended_elem; by left).
  rewrite E in H. apply list_elem_of_fmap in H as (s & -> & _). by exists s.
Qed.

Section CreatorExtras.

Variable env : environment.

Lemma create_research_model_extends base_model ctx_length t :
  ∃ r new, ModelManager.create_research_model env base_model ctx_length t = (r, t ++ new).
Proof.
  destruct (create_research_model_spec env base_model ctx_length t)
    as (checked & Hlog & [[_ E]|[[_ (e & _ & E)]|[[_ H]|[_ H]]]]).
  - by eexists _, _.
  - by eexists _, _.
  - destruct H as (path & e & _ & _ & E).
    eexists _, _. rewrite E. f_equal. by rewrite <- app_assoc.
  - destruct H as (path & logged & ok & msg & _ & _ & E & _). cbv zeta in E.
    eexists _, _. rewrite E. f_equal.
    repeat (rewrite <- app_assoc; simpl). reflexivity.
Qed.

(** X26.  The select box of [render_model_creator] offers every name of the
    available models and every recommended base, each once and in ascending
    order, and nothing else, provided the names are all strings.  When one
    of them is not, the page raises the [TypeError] of the sort before any
    select box is drawn. *)
Theorem creator_offers_sorted_names t :
  let t0 := t ++ [EShow Page UiSubheader (PStr "Create Custom Research Model")] in
  ∃ models checked,
    ModelManager.get_available_models env t0 =
      (inr models, t0 ++ EHttp default_tags :: checked) ∧
    Forall is_log checked ∧
    ∀ items names,
      py_iter env models = inr items → names_of env items = inr names →
      (all_strings names = None →
       ModelManager.render_model_creator env t =
         (inl (sort_error env (ModelManager.add_recommended names)),
          t0 ++ EHttp default_tags :: checked)) ∧
      (∀ l, names = PStr <$> l →
       ∃ options r rest,
         ModelManager.render_model_creator env t =
           (r, (t0 ++ EHttp default_tags :: checked) ++
               EWidget "Select Base Model" (PStr <$> options) :: rest) ∧
         StronglySorted before options ∧
         ∀ s, s ∈ options ↔ s ∈ l ∨ ModelManager.is_recommended (PStr s) = true).
Proof.
  intros t0.
  destruct (get_available_models_spec env t0) as (models & checked & Hg & Hlog & _).
  exists models, checked. split; [done|].
  split; [exact (Forall_impl _ _ _ Hlog not_warning_is_log)|].
  intros items names Hi Hn.
  assert (ModelManager.render_model_creator env t =
    (sorted_names ← lift (match all_strings (ModelManager.add_recommended names) with
                          | Some l => inr (sorted_set l)
                          | None => inl (sort_error env (ModelManager.add_recommended names))
                          end);
     selected_model ← ModelManager.selectbox env "Select Base Model" (PStr <$> sorted_names);
     ModelManager.describe selected_model ;;
     ctx_length ← ModelManager.number_input env "Context Length" 1000 128000
                    (ModelManager.default_ctx_of selected_model) 1000;
     clicked ← button env "Create Research Model";
     if clicked : bool then
       show UiSpinner "Creating model..." ;;
       result ← match selected_model return M (list effect) (bool * string) with
                | PStr base_model =>
                    ModelManager.create_research_model env base_model ctx_length
                | _ => raise (attribute_error env selected_model "replace")
                end;
       let '(success, message) := result in
       if success : bool then show UiSuccess message else show UiError message
     else mret tt) (t0 ++ EHttp default_tags :: checked)) as ->.
  { unfold ModelManager.render_model_creator.
    unfold mbind at 1. unfold M_bind at 1. unfold record_effect at 1. fold t0.
    unfold mbind at 1. unfold M_bind at 1. rewrite Hg.
    unfold mbind at 1. unfold M_bind at 1. rewrite Hi. simpl.
    unfold mbind at 1. unfold M_bind at 1. rewrite Hn. simpl. reflexivity. }
  split.
  - intros Hnone. rewrite (all_strings_none _ Hnone). reflexivity.
  - intros l ->.
    destruct (all_strings_total (ModelManager.add_recommended (PStr <$> l)))
      as (l2 & E).
    { intros v [(s & -> & _)%list_elem_of_fmap|(s & -> & _)]%add_recommended_elem;
        by exists s. }
    rewrite E. exists (sorted_set l2).
    assert (∀ s, s ∈ sorted_set l2 ↔ s ∈ l ∨ ModelManager.is_recommended (PStr s) = true)
      as Helem.
    { intros s. rewrite sorted_set_elem. apply all_strings_fmap in E.
      assert (s ∈ l2 ↔ PStr s ∈ ModelManager.add_recommended (PStr <$> l)) as ->.
      { rewrite E. split; [by apply list_elem_of_fmap_2|].
        intros (s' & [= ->] & ?)%list_elem_of_fmap. done. }
      rewrite add_recommended_elem. split.
      - intros [(s' & [= ->] & ?)%list_elem_of_fmap|(s' & [= ->] & ?)]; [by left|by right].
      - intros [?|?]; [left; by apply list_elem_of_fmap_2|right; by exists s]. }
    cut (∃ r rest,
      (selected_model ← ModelManager.selectbox env "Select Base Model"
                          (PStr <$> sorted_set l2);
       ModelManager.describe selected_model ;;
       ctx_length ← ModelManager.number_input env "Context Length" 1000 128000
                      (ModelManager.default_ctx_of selected_model) 1000;
       clicked ← button env "Create Research Model";
       if clicked : bool then
         show UiSpinner "Creating model..." ;;
         result ← match selected_model return M (list effect) (bool * string) with
                  | PStr base_model =>
                      ModelManager.create_research_model env base_model ctx_length
                  | _ => raise (attribute_error env selected_model "replace")
                  end;
         let '(success, message) := result in
         if success : bool then show UiSuccess message else show UiError message
       else mret tt) (t0 ++ EHttp default_tags :: checked) =
      (r, (t0 ++ EHttp default_tags :: checked) ++
          EWidget "Select Base Model" (PStr <$> sorted_set l2) :: rest)).
    { intros (r & rest & Hrun). exists r, rest. split; [exact Hrun|].
      split; [apply sorted_set_sorted|exact Helem]. }
    generalize (t0 ++ EHttp default_tags :: checked). intros tr.
    unfold ModelManager.selectbox, ModelManager.number_input, button, show, record_effect.
    unfold mbind at 1. unfold M_bind at 1.
    set (selected := st_selectbox env tr "Select Base Model" (PStr <$> sorted_set l2)).
    assert (∃ shown, ModelManager.describe selected
                       (tr ++ [EWidget "Select Base Model" (PStr <$> sorted_set l2)]) =
                     (inr tt, tr ++ EWidget "Select Base Model" (PStr <$> sorted_set l2)
                                 :: shown)) as (shown & Hd).
    { unfold ModelManager.describe.
      match goal with |- context [List.find ?f ?l] => destruct (List.find f l) end.
      - unfold record_effect. eexists [_]. by rewrite <- app_assoc.
      - exists []. done. }
    unfold mbind at 1. unfold M_bind at 1. rewrite Hd.
    unfold mbind at 1. unfold M_bind at 1.
    unfold mbind at 1. unfold M_bind at 1.
    destruct (st_button env _ "Create Research Model").
    2:{ eexists _, _. unfold mret, M_ret. f_equal. rewrite <- !app_assoc. reflexivity. }
    unfold mbind at 1. unfold M_bind at 1.
    unfold mbind at 1. unfold M_bind at 1.
    destruct selected as [| | | |base_model| |];
      try (eexists _, _; unfold raise; f_equal; rewrite <- !app_assoc; reflexivity).
    match goal with
    | |- context [ModelManager.create_research_model env base_model ?c ?tr0] =>
        destruct (create_research_model_extends base_model c tr0) as (r & new & ->)
    end.
    destruct r as [e|[[] msg]].
    + eexists _, _. f_equal. rewrite <- !app_assoc. reflexivity.
    + eexists _, _. f_equal. rewrite <- !app_assoc. reflexivity.
    + eexists _, _. f_equal. rewrite <- !app_assoc. reflexivity.
Qed.

End CreatorExtras.

(** ** The sidebar of the app: properties *)

Section ManagementExtras.

Variable env : environment.
Variable OLLAMA_URL : string.

(** X27.  [display_model_management] never raises.  After the two headings
    it asks for the tags; an answer with a status other than 200 leaves the
    sidebar without any message, and a request that raises shows the error.
    A [DELETE] request is made only right after the button [Delete Selected
    Model], drawn under a select box of the names listed, and it names the
    selection of that box. *)
Theorem management_deletes_the_selection t :
  let t1 := t ++ [EShow Sidebar UiMarkdown (PStr "---");
                  EShow Sidebar UiMarkdown (PStr App.management_heading)] in
  ∃ shown,
    App.display_model_management env OLLAMA_URL t =
      (inr tt, t1 ++ EHttp (tags_call OLLAMA_URL) :: shown) ∧
    (∀ r, http env t1 (tags_call OLLAMA_URL) = inr r → status_code r ≠ 200 →
          shown = []) ∧
    (∀ e, http env t1 (tags_call OLLAMA_URL) = inl e →
          shown = [EShow Sidebar UiError (PStr ("Error loading models: " +:+ str_exn e))]) ∧
    (∀ e, e ∈ shown → is_delete e →
       ∃ before names after,
         listed_names env OLLAMA_URL t1 = inr names ∧ names ≠ [] ∧
         shown = before ++ EWidget "Select model to delete" names ::
                           EWidget "Delete Selected Model" [] :: e :: after ∧
         e = EHttp (delete_call OLLAMA_URL
                      (st_selectbox env (t1 ++ EHttp (tags_call OLLAMA_URL) :: before)
                         "Select model to delete" names))).
Proof.
  intros t1. unfold App.display_model_management.
  unfold mbind at 1. unfold M_bind at 1. unfold record_effect at 1.
  unfold mbind at 1. unfold M_bind at 1. unfold record_effect at 1.
  rewrite <- app_assoc. simpl. fold t1.
  unfold try_except, http_request, listed_names.
  unfold mbind at 1. unfold M_bind at 1. fold (tags_call OLLAMA_URL).
  destruct (http env t1 (tags_call OLLAMA_URL)) as [e|r] eqn:Hr.
  { unfold record_effect. eexists [_]. rewrite <- app_assoc. split; [reflexivity|].
    split; [done|]. split; [by intros ? [= <-]|].
    intros x [->|?%elem_of_nil]%elem_of_cons; done. }
  destruct (Z.eqb_spec (status_code r) 200) as [E|E].
  2:{ exists []. split; [done|]. split; [done|]. split; [done|].
      by intros x ?%elem_of_nil. }
  unfold mbind at 1. unfold M_bind at 1.
  destruct (json_result r) as [e|body]; simpl.
  { unfold record_effect. eexists [_]. rewrite <- app_assoc. split; [reflexivity|].
    split; [intros ? [= <-] ?; done|]. split; [done|].
    intros x [->|?%elem_of_nil]%elem_of_cons; done. }
  unfold mbind at 1. unfold M_bind at 1.
  destruct (getitem env body "models") as [e|listed]; simpl.
  { unfold record_effect. eexists [_]. rewrite <- app_assoc. split; [reflexivity|].
    split; [intros ? [= <-] ?; done|]. split; [done|].
    intros x [->|?%elem_of_nil]%elem_of_cons; done. }
  unfold mbind at 1. unfold M_bind at 1.
  destruct (py_iter env listed) as [e|items]; simpl.
  { unfold record_effect. eexists [_]. rewrite <- app_assoc. split; [reflexivity|].
    split; [intros ? [= <-] ?; done|]. split; [done|].
    intros x [->|?%elem_of_nil]%elem_of_cons; done. }
  unfold mbind at 1. unfold M_bind at 1.
  destruct (names_of env items) as [e|names]; simpl.
  { unfold record_effect. eexists [_]. rewrite <- app_assoc. split; [reflexivity|].
    split; [intros ? [= <-] ?; done|]. split; [done|].
    intros x [->|?%elem_of_nil]%elem_of_cons; done. }
  unfold button. unfold mbind at 1. unfold M_bind at 1. cbv beta iota.
  unfold mbind at 1. unfold M_bind at 1.
  assert (∃ new,
    (if st_button env (t1 ++ [EHttp (tags_call OLLAMA_URL)]) "Create Researcher Model"
     then App.create_model env OLLAMA_URL ≫= λ _ : bool, mret ()
     else mret ())
      ((t1 ++ [EHttp (tags_call OLLAMA_URL)]) ++ [EWidget "Create Researcher Model" []]) =
    (inr tt, (t1 ++ [EHttp (tags_call OLLAMA_URL)]) ++
             EWidget "Create Researcher Model" [] :: new) ∧
    Forall (λ e, ¬ is_delete e) new) as (new & -> & Hnew).
  { destruct (st_button env _ _).
    - unfold mbind, M_bind.
      destruct (app_create_model_no_delete env OLLAMA_URL
                  ((t1 ++ [EHttp (tags_call OLLAMA_URL)]) ++
                   [EWidget "Create Researcher Model" []])) as (b & new & -> & Hnew).
      exists new. rewrite <- !app_assoc. by split.
    - exists []. by split. }
  destruct names as [|n names]; cbn [truthy].
  { eexists (_ :: new). rewrite <- !app_assoc. split; [reflexivity|].
    split; [intros ? [= <-] ?; done|]. split; [done|].
    intros x [->|Hx]%elem_of_cons Hd; [done|].
    rewrite Forall_forall in Hnew. by destruct (Hnew x Hx). }
  unfold ModelManager.selectbox, record_effect.
  unfold mbind at 1. unfold M_bind at 1.
  unfold mbind at 1. unfold M_bind at 1.
  unfold mbind at 1. unfold M_bind at 1.
  match goal with
  | |- context [st_button env ?tr "Delete Selected Model"] =>
      destruct (st_button env tr "Delete Selected Model")
  end.
  2:{ eexists (_ :: new ++ [_; _; _]). unfold mret, M_ret.
      split; [f_equal; repeat (rewrite <- app_assoc; simpl); reflexivity|].
      split; [intros ? [= <-] ?; done|]. split; [done|].
      intros x [->|[Hx|Hx]%elem_of_app]%elem_of_cons Hd; [done| |].
      - rewrite Forall_forall in Hnew. by destruct (Hnew x Hx).
      - repeat (apply elem_of_cons in Hx as [->|Hx]; [done|]). by apply elem_of_nil in Hx. }
  unfold mbind at 1. unfold M_bind at 1.
  match goal with
  | |- context [App.delete_model env OLLAMA_URL ?v ?tr] =>
      destruct (delete_model_trace env OLLAMA_URL v tr) as (b & k & text & ->)
  end.
  eexists (_ :: new ++ [_; _; _; _; _]). unfold mret, M_ret.
  split; [f_equal; repeat (rewrite <- app_assoc; simpl); reflexivity|].
  split; [intros ? [= <-] ?; done|]. split; [done|].
  intros x [->|[Hx|Hx]%elem_of_app]%elem_of_cons Hd; [done| |].
  { rewrite Forall_forall in Hnew. by destruct (Hnew x Hx). }
  apply elem_of_cons in Hx as [->|Hx]; [done|].
  apply elem_of_cons in Hx as [->|Hx]; [done|].
  apply elem_of_cons in Hx as [->|Hx]; [done|].
  apply elem_of_cons in Hx as [->|Hx].
  2:{ apply elem_of_cons in Hx as [->|Hx]; [done|]. by apply elem_of_nil in Hx. }
  eexists (EWidget "Create Researcher Model" [] :: new ++ [_]), (n :: names), [_].
  split; [reflexivity|]. split; [done|].
  split; simpl; repeat (rewrite <- app_assoc; simpl); reflexivity.
Qed.

End ManagementExtras.

(** ** Worked calls of the further properties *)

(** A callback that never raises, over a JSON line and a line of text. *)
Lemma callback_receives_buffered_fragments_witness :
  stream_calls Wire.loads Wire.decode Wire.repr (Some Sample.quiet)
    [Wire.line_Hel; Wire.line_hello] None =
    buffer (run_stream Wire.loads Wire.decode Wire.repr (Some Sample.quiet)
              [Wire.line_Hel; Wire.line_hello] None).2 ∧
  stream_calls Wire.loads Wire.decode Wire.repr None
    [Wire.line_Hel; Wire.line_hello] None = [].
Proof.
  apply (callback_receives_buffered_fragments Wire.loads Wire.decode Wire.repr
           Sample.quiet [Wire.line_Hel; Wire.line_hello] None).
  intros earlier x. reflexivity.
Defined.

(** Two lines around an empty one: three events. *)
Lemma one_event_per_line_witness :
  length (stream_events Wire.loads Wire.decode Wire.repr None
            [Wire.line_Hel; ""; Wire.line_lo] None) =
  S (length (filter (λ l, l ≠ "") [Wire.line_Hel; ""; Wire.line_lo])).
Proof.
  exact (one_event_per_line Wire.loads Wire.decode Wire.repr None
           [Wire.line_Hel; ""; Wire.line_lo] _ eq_refl).
Defined.

(** [Hel] and [lo] end in [Hello]. *)
Lemma partial_texts_concatenate_to_final_witness :
  stream_events Wire.loads Wire.decode Wire.repr None
    [Wire.line_Hel; Wire.line_lo] None =
  yielded (iterate Wire.loads Wire.decode Wire.repr None
             [Wire.line_Hel; Wire.line_lo] None gen_init).2 ++
  [mk_event (PStr "Hello") (PStr "") (PStr "") (PBool true)].
Proof.
  exact (partial_texts_concatenate_to_final Wire.loads Wire.decode Wire.repr None
           [Wire.line_Hel; Wire.line_lo] None _ ["Hel"; "lo"] eq_refl eq_refl).
Defined.

(** A server that answers, and no options. *)
Lemma generate_returns_without_retry_witness :
  ∃ v w',
    generate (Net.always Net.greeting) Wire.repr Net.ollama "researcher" "hi" None
      false Net.empty_world = (inr v, w') ∧
    length (sent w') = S (length (sent Net.empty_world)) ∧
    slept w' = slept Net.empty_world.
Proof.
  apply (generate_returns_without_retry (Net.always Net.greeting) Wire.repr
           Net.ollama "researcher" "hi" None false Net.empty_world).
  - intros l opts requested. discriminate.
  - intros rq. simpl. exact I.
Defined.

(** A server that answers 404 to a streaming call. *)
Lemma error_status_is_error_event_witness :
  ∃ e,
    http_error (base_url Net.ollama +:+ "/api/generate") Sample.not_found = Some e ∧
    generate (Net.always Sample.not_found) Wire.repr Net.ollama "researcher" "hi"
      None true Net.empty_world =
    (inr (RDict (error_event (str_exn e))),
     World (heap Net.empty_world)
       (sent Net.empty_world ++
        [Request (base_url Net.ollama +:+ "/api/generate")
           (base_data "researcher" "hi" true) true (timeout Net.ollama)])
       (slept Net.empty_world)).
Proof.
  eexists. split; [reflexivity|].
  apply (error_status_is_error_event (Net.always Sample.not_found) Wire.repr
           Net.ollama "researcher" "hi" true Net.empty_world Sample.not_found).
  - intros rq. reflexivity.
  - reflexivity.
Defined.

(** Options with a temperature only. *)
Lemma options_take_precedence_witness :
  ∃ r rqs sl,
    generate (Net.always Net.greeting) Wire.repr Net.ollama "researcher" "hi"
      (Some Net.caller) false (Net.world_with Sample.plain_options) =
      (r, World (heap (Net.world_with Sample.plain_options))
            (sent (Net.world_with Sample.plain_options) ++ rqs)
            (slept (Net.world_with Sample.plain_options) ++ sl)) ∧
    rqs ≠ [] ∧
    Forall (λ rq, rq = Request (base_url Net.ollama +:+ "/api/generate")
                         (Sample.plain_options ∪ base_data "researcher" "hi" false)
                         false (timeout Net.ollama)) rqs ∧
    (∀ k v, Sample.plain_options !! k = Some v →
       Forall (λ rq, req_json rq !! k = Some v ∧ req_stream rq = false) rqs).
Proof.
  exact (options_take_precedence (Net.always Net.greeting) Wire.repr Net.ollama
           "researcher" "hi" Net.caller false Sample.plain_options
           (Net.world_with Sample.plain_options) eq_refl eq_refl).
Defined.

(** Options whose [max_tokens] is a string. *)
Lemma non_numeric_max_tokens_is_retried_witness :
  ∃ raised,
    generate (Net.always Net.greeting) Wire.repr Net.ollama "researcher" "hi"
      (Some Net.caller) false (Net.world_with Sample.bad_options) =
      (inl raised,
       World (heap (Net.world_with Sample.bad_options))
         (sent (Net.world_with Sample.bad_options))
         (slept (Net.world_with Sample.bad_options) ++ [4; 4])) ∧
    exn_cls raised = RetryError.
Proof.
  exact (non_numeric_max_tokens_is_retried (Net.always Net.greeting) Wire.repr
           Net.ollama "researcher" "hi" Net.caller false Sample.bad_options
           (PStr "many") _ (Net.world_with Sample.bad_options)
           eq_refl eq_refl eq_refl).
Defined.

(** The three models listed: one research model, one recommended model and
    one other. *)
Lemma categorize_partitions_witness :
  [Sample.research_phi] ++ [Sample.mistral] ++ [Sample.phi_latest] ≡ₚ Sample.listed ∧
  [Sample.research_phi] `sublist_of` Sample.listed ∧
  [Sample.mistral] `sublist_of` Sample.listed ∧
  [Sample.phi_latest] `sublist_of` Sample.listed ∧
  Forall (λ m, named Sample.env m (λ s, startswith s "research-" = true))
    [Sample.research_phi] ∧
  Forall (λ m, named Sample.env m
                 (λ s, startswith s "research-" = false ∧
                       ModelManager.is_recommended (PStr s) = true ∧
                       split_colon s = None))
    [Sample.mistral] ∧
  Forall (λ m, named Sample.env m
                 (λ s, startswith s "research-" = false ∧
                       ModelManager.is_recommended (PStr s) = false))
    [Sample.phi_latest].
Proof.
  exact (categorize_partitions Sample.env Sample.listed [Sample.research_phi]
           [Sample.mistral] [Sample.phi_latest] eq_refl).
Defined.

(** The research model is the selection returned. *)
Lemma selector_returns_last_selection_witness :
  (PStr "research-phi" = PNone ∨ truthy (PStr "research-phi") = true) ∧
  (truthy (PStr "research-phi") = true →
   ∃ before label names shown,
     (ModelManager.render_model_selector Sample.env []).2 =
       before ++ EWidget label names :: shown ∧
     PStr "research-phi" = st_selectbox Sample.env before label names ∧
     Forall is_info shown) ∧
  (∀ models, (ModelManager.get_available_models Sample.env []).1 = inr models →
     truthy models = false →
     PStr "research-phi" = PNone ∧
     ∃ checked,
       (ModelManager.render_model_selector Sample.env []).2 =
         [] ++ EHttp default_tags :: checked ++ [no_models_warning] ∧
       Forall is_log checked).
Proof.
  exact (selector_returns_last_selection Sample.env [] (PStr "research-phi")
           (ModelManager.render_model_selector Sample.env []).2 eq_refl).
Defined.

Lemma selector_returns_listed_name_witness :
  ∃ models items m,
    (ModelManager.get_available_models Sample.env []).1 = inr models ∧
    py_iter Sample.env models = inr items ∧
    m ∈ items ∧ getitem Sample.env m "name" = inr (PStr "research-phi").
Proof.
  apply (selector_returns_listed_name Sample.env [] (PStr "research-phi")
           (ModelManager.render_model_selector Sample.env []).2).
  - intros tr label [|o options] H; [done|]. simpl. by left.
  - reflexivity.
  - discriminate.
Defined.
